(** * NoteEditor: the autosave / save coordinator of the note editor page

    A shallow embedding of the [NoteEditor] React component
    (frontend/src/dashboard/NoteEditor.tsx): its state cells and refs, the
    debounce effect, the handlers [handleAutoSave], [handleSave],
    [handleDelete] and [fetchNote], together with the small part of the
    browser they talk to (one clock, the [setTimeout] table, the requests
    that are awaiting an answer, and a log of the outward calls).

    Conventions of the model.
    - An [async] handler is cut at its [await]: the part before it runs in
      the step that triggers the handler and leaves a [Pending] record; the
      part after it ([try] tail, [catch], [finally]) runs in the step that
      settles the request.
    - The state updates of one step are committed together and the component
      is rendered, with its effects run, before the next event is delivered.
    - A closure captured by [setTimeout] keeps the values of the render that
      created it ([Render]), the [id] of the route among them; refs are read
      at the time of use.
    - The events of [Event] are those of an instance whose route stays the
      one it was mounted on.  A change of the route that keeps the instance
      is an action of its own, in [Routed].
    - React drops updates of an unmounted component; nothing reads the state
      cells after unmount, so the setters are left unconditional.
    - Strings are sequences of code units below 256. *)

From Stdlib Require Import Bool List String Ascii ZArith Lia.
Import ListNotations.
Open Scope string_scope.
Open Scope Z_scope.

(** ** JavaScript helpers *)

Module Js.

(** Code units removed by [String.prototype.trim]: TAB, LF, VT, FF, CR, SP
    and NBSP. *)
Definition is_white_space (c : ascii) : bool :=
  let n := nat_of_ascii c in
  (Nat.leb 9 n && Nat.leb n 13) || Nat.eqb n 32 || Nat.eqb n 160.

Fixpoint trimStart (s : string) : string :=
  match s with
  | EmptyString => EmptyString
  | String c r => if is_white_space c then trimStart r else s
  end.

Fixpoint trimEnd (s : string) : string :=
  match s with
  | EmptyString => EmptyString
  | String c r =>
      match trimEnd r with
      | EmptyString => if is_white_space c then EmptyString else String c EmptyString
      | r' => String c r'
      end
  end.

Definition trim (s : string) : string := trimEnd (trimStart s).

(** Truthiness of a string, and of a value that is a string or [undefined]. *)
Definition truthy (s : string) : bool :=
  match s with EmptyString => false | _ => true end.

Definition truthy_opt (o : option string) : bool :=
  match o with Some s => truthy s | None => false end.

(** [a || b] on values that are a string, [null] or [undefined]. *)
Definition or (a b : option string) : option string :=
  if truthy_opt a then a else b.

(** [s || undefined] *)
Definition or_undefined (s : string) : option string :=
  if truthy s then Some s else None.

(** [s || d] with a string default. *)
Definition or_default (s d : string) : string :=
  if truthy s then s else d.

(** The string behind a truthy value: the test [if (v)] together with the
    narrowing of [v] to a string. *)
Definition if_truthy (o : option string) : option string :=
  match o with
  | Some s => if truthy s then Some s else None
  | None => None
  end.

End Js.

(** ** Data of utils/api.ts *)

Record Note := {
  note_id : string;
  note_title : option string;
  note_content : string
}.

Record CreateNoteData := {
  create_title : option string;
  create_content : string
}.

Record EditNoteData := {
  edit_id : string;
  edit_title : option string;
  edit_content : string
}.

(** The four operations of [notesApi] the editor uses. *)
Inductive Request :=
| GetSingleNote (noteId : string)
| CreateNote (d : CreateNoteData)
| EditNote (d : EditNoteData)
| DeleteNote (noteId : string).

(** [ApiResponse<Note>]: only the optional [data] is read by the editor. *)
Record ApiResponse := { data : option Note }.

(** How a request settles: the promise is fulfilled with a response, or it
    is rejected with an error of which the editor reads [message]. *)
Inductive Outcome :=
| Fulfilled (response : ApiResponse)
| Rejected (message : string).

(** ** Component state *)

Inductive SaveStatus := Saved | Saving | Unsaved.

Definition SaveStatus_eqb (a b : SaveStatus) : bool :=
  match a, b with
  | Saved, Saved | Saving, Saving | Unsaved, Unsaved => true
  | _, _ => false
  end.

(** What the [handleAutoSave] closure of one render has captured: the
    state cells it reads and the [id] of the route. *)
Record Render := {
  r_title : string;
  r_content : string;
  r_saving : bool;
  r_autoSaveStatus : SaveStatus;
  r_id : option string
}.

(** An entry of the browser's timer table. *)
Record Timer := {
  t_handle : nat;
  t_deadline : Z;
  t_callback : Render
}.

(** The code after an [await], by the handler that is suspended there. *)
Inductive Awaiting :=
| InFetchNote
| InAutoSaveEdit
| InAutoSaveCreate
| InHandleSave
| InHandleDelete.

Record Pending := {
  p_rid : nat;
  p_request : Request;
  p_awaiting : Awaiting
}.

(** Outward calls, newest first.  [ApiSettled] is a ghost entry: it records
    with which outcome a request came back. *)
Inductive Effect :=
| ApiCall (rid : nat) (at_ms : Z) (req : Request)
| ApiSettled (rid : nat) (req : Request) (out : Outcome)
| WindowConfirm (answer : bool)
| Navigate (path : string)
| HistoryReplaceState (url : string)
| ConsoleError (label : string).

(** The component ([routeId] is the [id] of [useParams]) and its browser. *)
Record Editor := {
  routeId : option string;
  note : option Note;
  title : string;
  content : string;
  loading : bool;
  saving : bool;
  error : option string;
  autoSaveStatus : SaveStatus;
  autoSaveTimerRef : option nat;
  createdNoteIdRef : option string;
  effectCleanup : bool;
  mounted : bool;
  now : Z;
  timers : list Timer;
  nextTimer : nat;
  inflight : list Pending;
  nextRequest : nat;
  trace : list Effect
}.

Definition set_routeId (v : option string) (s : Editor) : Editor :=
  {| routeId := v; note := note s; title := title s; content := content s;
     loading := loading s; saving := saving s; error := error s;
     autoSaveStatus := autoSaveStatus s;
     autoSaveTimerRef := autoSaveTimerRef s;
     createdNoteIdRef := createdNoteIdRef s;
     effectCleanup := effectCleanup s; mounted := mounted s; now := now s;
     timers := timers s; nextTimer := nextTimer s; inflight := inflight s;
     nextRequest := nextRequest s; trace := trace s |}.

Definition setNote (v : option Note) (s : Editor) : Editor :=
  {| routeId := routeId s; note := v; title := title s; content := content s;
     loading := loading s; saving := saving s; error := error s;
     autoSaveStatus := autoSaveStatus s;
     autoSaveTimerRef := autoSaveTimerRef s;
     createdNoteIdRef := createdNoteIdRef s;
     effectCleanup := effectCleanup s; mounted := mounted s; now := now s;
     timers := timers s; nextTimer := nextTimer s; inflight := inflight s;
     nextRequest := nextRequest s; trace := trace s |}.

Definition setTitle (v : string) (s : Editor) : Editor :=
  {| routeId := routeId s; note := note s; title := v; content := content s;
     loading := loading s; saving := saving s; error := error s;
     autoSaveStatus := autoSaveStatus s;
     autoSaveTimerRef := autoSaveTimerRef s;
     createdNoteIdRef := createdNoteIdRef s;
     effectCleanup := effectCleanup s; mounted := mounted s; now := now s;
     timers := timers s; nextTimer := nextTimer s; inflight := inflight s;
     nextRequest := nextRequest s; trace := trace s |}.

Definition setContent (v : string) (s : Editor) : Editor :=
  {| routeId := routeId s; note := note s; title := title s; content := v;
     loading := loading s; saving := saving s; error := error s;
     autoSaveStatus := autoSaveStatus s;
     autoSaveTimerRef := autoSaveTimerRef s;
     createdNoteIdRef := createdNoteIdRef s;
     effectCleanup := effectCleanup s; mounted := mounted s; now := now s;
     timers := timers s; nextTimer := nextTimer s; inflight := inflight s;
     nextRequest := nextRequest s; trace := trace s |}.

Definition setLoading (v : bool) (s : Editor) : Editor :=
  {| routeId := routeId s; note := note s; title := title s;
     content := content s; loading := v; saving := saving s;
     error := error s; autoSaveStatus := autoSaveStatus s;
     autoSaveTimerRef := autoSaveTimerRef s;
     createdNoteIdRef := createdNoteIdRef s;
     effectCleanup := effectCleanup s; mounted := mounted s; now := now s;
     timers := timers s; nextTimer := nextTimer s; inflight := inflight s;
     nextRequest := nextRequest s; trace := trace s |}.

Definition setSaving (v : bool) (s : Editor) : Editor :=
  {| routeId := routeId s; note := note s; title := title s;
     content := content s; loading := loading s; saving := v;
     error := error s; autoSaveStatus := autoSaveStatus s;
     autoSaveTimerRef := autoSaveTimerRef s;
     createdNoteIdRef := createdNoteIdRef s;
     effectCleanup := effectCleanup s; mounted := mounted s; now := now s;
     timers := timers s; nextTimer := nextTimer s; inflight := inflight s;
     nextRequest := nextRequest s; trace := trace s |}.

Definition setError (v : option string) (s : Editor) : Editor :=
  {| routeId := routeId s; note := note s; title := title s;
     content := content s; loading := loading s; saving := saving s;
     error := v; autoSaveStatus := autoSaveStatus s;
     autoSaveTimerRef := autoSaveTimerRef s;
     createdNoteIdRef := createdNoteIdRef s;
     effectCleanup := effectCleanup s; mounted := mounted s; now := now s;
     timers := timers s; nextTimer := nextTimer s; inflight := inflight s;
     nextRequest := nextRequest s; trace := trace s |}.

Definition setAutoSaveStatus (v : SaveStatus) (s : Editor) : Editor :=
  {| routeId := routeId s; note := note s; title := title s;
     content := content s; loading := loading s; saving := saving s;
     error := error s; autoSaveStatus := v;
     autoSaveTimerRef := autoSaveTimerRef s;
     createdNoteIdRef := createdNoteIdRef s;
     effectCleanup := effectCleanup s; mounted := mounted s; now := now s;
     timers := timers s; nextTimer := nextTimer s; inflight := inflight s;
     nextRequest := nextRequest s; trace := trace s |}.

Definition set_autoSaveTimerRef (v : option nat) (s : Editor) : Editor :=
  {| routeId := routeId s; note := note s; title := title s;
     content := content s; loading := loading s; saving := saving s;
     error := error s; autoSaveStatus := autoSaveStatus s;
     autoSaveTimerRef := v; createdNoteIdRef := createdNoteIdRef s;
     effectCleanup := effectCleanup s; mounted := mounted s; now := now s;
     timers := timers s; nextTimer := nextTimer s; inflight := inflight s;
     nextRequest := nextRequest s; trace := trace s |}.

Definition set_createdNoteIdRef (v : option string) (s : Editor) : Editor :=
  {| routeId := routeId s; note := note s; title := title s;
     content := content s; loading := loading s; saving := saving s;
     error := error s; autoSaveStatus := autoSaveStatus s;
     autoSaveTimerRef := autoSaveTimerRef s; createdNoteIdRef := v;
     effectCleanup := effectCleanup s; mounted := mounted s; now := now s;
     timers := timers s; nextTimer := nextTimer s; inflight := inflight s;
     nextRequest := nextRequest s; trace := trace s |}.

Definition set_effectCleanup (v : bool) (s : Editor) : Editor :=
  {| routeId := routeId s; note := note s; title := title s;
     content := content s; loading := loading s; saving := saving s;
     error := error s; autoSaveStatus := autoSaveStatus s;
     autoSaveTimerRef := autoSaveTimerRef s;
     createdNoteIdRef := createdNoteIdRef s; effectCleanup := v;
     mounted := mounted s; now := now s; timers := timers s;
     nextTimer := nextTimer s; inflight := inflight s;
     nextRequest := nextRequest s; trace := trace s |}.

Definition set_mounted (v : bool) (s : Editor) : Editor :=
  {| routeId := routeId s; note := note s; title := title s;
     content := content s; loading := loading s; saving := saving s;
     error := error s; autoSaveStatus := autoSaveStatus s;
     autoSaveTimerRef := autoSaveTimerRef s;
     createdNoteIdRef := createdNoteIdRef s;
     effectCleanup := effectCleanup s; mounted := v; now := now s;
     timers := timers s; nextTimer := nextTimer s; inflight := inflight s;
     nextRequest := nextRequest s; trace := trace s |}.

Definition set_now (v : Z) (s : Editor) : Editor :=
  {| routeId := routeId s; note := note s; title := title s;
     content := content s; loading := loading s; saving := saving s;
     error := error s; autoSaveStatus := autoSaveStatus s;
     autoSaveTimerRef := autoSaveTimerRef s;
     createdNoteIdRef := createdNoteIdRef s;
     effectCleanup := effectCleanup s; mounted := mounted s; now := v;
     timers := timers s; nextTimer := nextTimer s; inflight := inflight s;
     nextRequest := nextRequest s; trace := trace s |}.

Definition set_timers (v : list Timer) (s : Editor) : Editor :=
  {| routeId := routeId s; note := note s; title := title s;
     content := content s; loading := loading s; saving := saving s;
     error := error s; autoSaveStatus := autoSaveStatus s;
     autoSaveTimerRef := autoSaveTimerRef s;
     createdNoteIdRef := createdNoteIdRef s;
     effectCleanup := effectCleanup s; mounted := mounted s; now := now s;
     timers := v; nextTimer := nextTimer s; inflight := inflight s;
     nextRequest := nextRequest s; trace := trace s |}.

Definition set_nextTimer (v : nat) (s : Editor) : Editor :=
  {| routeId := routeId s; note := note s; title := title s;
     content := content s; loading := loading s; saving := saving s;
     error := error s; autoSaveStatus := autoSaveStatus s;
     autoSaveTimerRef := autoSaveTimerRef s;
     createdNoteIdRef := createdNoteIdRef s;
     effectCleanup := effectCleanup s; mounted := mounted s; now := now s;
     timers := timers s; nextTimer := v; inflight := inflight s;
     nextRequest := nextRequest s; trace := trace s |}.

Definition set_inflight (v : list Pending) (s : Editor) : Editor :=
  {| routeId := routeId s; note := note s; title := title s;
     content := content s; loading := loading s; saving := saving s;
     error := error s; autoSaveStatus := autoSaveStatus s;
     autoSaveTimerRef := autoSaveTimerRef s;
     createdNoteIdRef := createdNoteIdRef s;
     effectCleanup := effectCleanup s; mounted := mounted s; now := now s;
     timers := timers s; nextTimer := nextTimer s; inflight := v;
     nextRequest := nextRequest s; trace := trace s |}.

Definition set_nextRequest (v : nat) (s : Editor) : Editor :=
  {| routeId := routeId s; note := note s; title := title s;
     content := content s; loading := loading s; saving := saving s;
     error := error s; autoSaveStatus := autoSaveStatus s;
     autoSaveTimerRef := autoSaveTimerRef s;
     createdNoteIdRef := createdNoteIdRef s;
     effectCleanup := effectCleanup s; mounted := mounted s; now := now s;
     timers := timers s; nextTimer := nextTimer s; inflight := inflight s;
     nextRequest := v; trace := trace s |}.

Definition set_trace (v : list Effect) (s : Editor) : Editor :=
  {| routeId := routeId s; note := note s; title := title s;
     content := content s; loading := loading s; saving := saving s;
     error := error s; autoSaveStatus := autoSaveStatus s;
     autoSaveTimerRef := autoSaveTimerRef s;
     createdNoteIdRef := createdNoteIdRef s;
     effectCleanup := effectCleanup s; mounted := mounted s; now := now s;
     timers := timers s; nextTimer := nextTimer s; inflight := inflight s;
     nextRequest := nextRequest s; trace := v |}.

(** ** Browser primitives *)

Definition log (e : Effect) (s : Editor) : Editor :=
  set_trace (e :: trace s) s.

(** [setTimeout(cb, ms)]: a fresh handle, returned with the new state. *)
Definition setTimeout (cb : Render) (ms : Z) (s : Editor) : nat * Editor :=
  let h := nextTimer s in
  (h, set_nextTimer (S h)
        (set_timers ({| t_handle := h; t_deadline := now s + ms;
                        t_callback := cb |} :: timers s) s)).

Definition clearTimeout (h : nat) (s : Editor) : Editor :=
  set_timers (filter (fun t => negb (Nat.eqb (t_handle t) h)) (timers s)) s.

(** A [notesApi] call: the request leaves now and the caller is suspended. *)
Definition api_call (req : Request) (k : Awaiting) (s : Editor) : Editor :=
  let rid := nextRequest s in
  set_nextRequest (S rid)
    (set_inflight ({| p_rid := rid; p_request := req; p_awaiting := k |}
                     :: inflight s)
       (log (ApiCall rid (now s) req) s)).

(** ** The component *)

Definition isEditing (s : Editor) : bool := Js.truthy_opt (routeId s).

(** The values the closures of the current render see. *)
Definition render (s : Editor) : Render :=
  {| r_title := title s; r_content := content s; r_saving := saving s;
     r_autoSaveStatus := autoSaveStatus s; r_id := routeId s |}.

Definition AUTO_SAVE_DELAY : Z := 3000.

Definition fetchNote (noteId : string) (s : Editor) : Editor :=
  api_call (GetSingleNote noteId) InFetchNote
    (setError None (setLoading true s)).

(** [handleAutoSave] up to its [await], run with the captures [r] of the
    render that created it. *)
Definition handleAutoSave (r : Render) (s : Editor) : Editor :=
  if negb (Js.truthy (Js.trim (r_content r))) then s
  else if r_saving r || SaveStatus_eqb (r_autoSaveStatus r) Saving then s
  else
    let s := setSaving true (setAutoSaveStatus Saving s) in
    match Js.if_truthy (Js.or (createdNoteIdRef s) (r_id r)) with
    | Some noteId =>
        api_call (EditNote {| edit_id := noteId;
                              edit_title := Js.or_undefined (Js.trim (r_title r));
                              edit_content := Js.trim (r_content r) |})
                 InAutoSaveEdit s
    | None =>
        api_call (CreateNote {| create_title := Js.or_undefined (Js.trim (r_title r));
                                create_content := Js.trim (r_content r) |})
                 InAutoSaveCreate s
    end.

(** The cleanup the debounce effect returns. *)
Definition autoSaveCleanup (s : Editor) : Editor :=
  match autoSaveTimerRef s with
  | Some h => clearTimeout h s
  | None => s
  end.

(** The debounce effect, run after a render in which [title] or [content]
    changed: first the cleanup of its previous run, when that run returned
    one, then the body. *)
Definition autoSaveEffect (s : Editor) : Editor :=
  let s := if effectCleanup s then autoSaveCleanup s else s in
  let s := set_effectCleanup false s in
  if negb (Js.truthy (title s)) && negb (Js.truthy (content s)) then s
  else if saving s then s
  else
    let s := match autoSaveTimerRef s with
             | Some h => clearTimeout h s
             | None => s
             end in
    let cb := render s in
    let s := setAutoSaveStatus Unsaved s in
    let (h, s) := setTimeout cb AUTO_SAVE_DELAY s in
    set_effectCleanup true (set_autoSaveTimerRef (Some h) s).

(** [handleSave] up to its [await]. *)
Definition handleSave (s : Editor) : Editor :=
  if negb (Js.truthy (Js.trim (content s))) then
    setError (Some "Note content is required") s
  else
    let s := match autoSaveTimerRef s with
             | Some h => set_autoSaveTimerRef None (clearTimeout h s)
             | None => s
             end in
    let s := setError None (setAutoSaveStatus Saving (setSaving true s)) in
    match Js.if_truthy (Js.or (createdNoteIdRef s) (routeId s)) with
    | Some noteId =>
        api_call (EditNote {| edit_id := noteId;
                              edit_title := Js.or_undefined (Js.trim (title s));
                              edit_content := Js.trim (content s) |})
                 InHandleSave s
    | None =>
        api_call (CreateNote {| create_title := Js.or_undefined (Js.trim (title s));
                                create_content := Js.trim (content s) |})
                 InHandleSave s
    end.

(** [handleDelete] up to its [await]; [answer] is what [window.confirm]
    returns if it is asked. *)
Definition handleDelete (answer : bool) (s : Editor) : Editor :=
  if negb (isEditing s) then s
  else
    match Js.if_truthy (routeId s) with
    | None => s
    | Some id =>
        let s := log (WindowConfirm answer) s in
        if answer then api_call (DeleteNote id) InHandleDelete (setLoading true s)
        else s
    end.

(** [navigate(path)]: the route changes, the editor is unmounted and the
    cleanup of its debounce effect runs. *)
Definition navigate (path : string) (s : Editor) : Editor :=
  let s := log (Navigate path) s in
  if mounted s then
    let s := if effectCleanup s then autoSaveCleanup s else s in
    set_mounted false (set_effectCleanup false s)
  else s.

(** A render after [title] or [content] may have changed. *)
Definition rerender (old : Editor) (s : Editor) : Editor :=
  if mounted s
     && negb (String.eqb (title old) (title s) && String.eqb (content old) (content s))
  then autoSaveEffect s
  else s.

(** The code after the [await] of the suspended handler [k]. *)
Definition resume (k : Awaiting) (out : Outcome) (s : Editor) : Editor :=
  match k, out with
  | InFetchNote, Fulfilled response =>
      let s' := match data response with
                | Some noteData =>
                    setContent (Js.or_default (note_content noteData) "")
                      (setTitle (match note_title noteData with
                                 | Some t => Js.or_default t ""
                                 | None => ""
                                 end)
                         (setNote (Some noteData) s))
                | None => s
                end in
      rerender s (setLoading false s')
  | InFetchNote, Rejected message =>
      setLoading false
        (log (ConsoleError "Error fetching note:")
           (setError (Some (Js.or_default message "Failed to fetch note")) s))
  | InAutoSaveEdit, Fulfilled _ =>
      setSaving false (setAutoSaveStatus Saved s)
  | InAutoSaveCreate, Fulfilled response =>
      let s := match Js.if_truthy (option_map note_id (data response)) with
               | Some newId =>
                   log (HistoryReplaceState ("/dashboard/edit-note/" ++ newId))
                     (set_createdNoteIdRef (Some newId) s)
               | None => s
               end in
      setSaving false (setAutoSaveStatus Saved s)
  | InAutoSaveEdit, Rejected _
  | InAutoSaveCreate, Rejected _ =>
      setSaving false
        (setAutoSaveStatus Unsaved (log (ConsoleError "Auto-save failed:") s))
  | InHandleSave, Fulfilled _ =>
      setAutoSaveStatus Saved (setSaving false (navigate "/dashboard" s))
  | InHandleSave, Rejected message =>
      setAutoSaveStatus Saved
        (setSaving false
           (log (ConsoleError "Error saving note:")
              (setError (Some (Js.or_default message "Failed to save note")) s)))
  | InHandleDelete, Fulfilled _ =>
      setLoading false (navigate "/dashboard" s)
  | InHandleDelete, Rejected message =>
      setLoading false
        (log (ConsoleError "Error deleting note:")
           (setError (Some (Js.or_default message "Failed to delete note")) s))
  end.

(** The state after the first render and its effects. *)
Definition mount (id : option string) : Editor :=
  let s := {| routeId := id; note := None; title := ""; content := "";
              loading := false; saving := false; error := None;
              autoSaveStatus := Saved; autoSaveTimerRef := None;
              createdNoteIdRef := None; effectCleanup := false;
              mounted := true; now := 0; timers := []; nextTimer := 0;
              inflight := []; nextRequest := 0; trace := [] |} in
  if isEditing s then
    match Js.if_truthy id with
    | Some noteId => fetchNote noteId s
    | None => s
    end
  else s.

(** ** Events

    What can happen to a mounted instance while its route stays the same:
    the user types, clicks Save, Cancel or Delete, time passes, a request
    comes back. *)

Inductive Event :=
| TypeTitle (v : string)
| TypeContent (v : string)
| ClickSave
| ClickCancel
| ClickDelete (answer : bool)
| Elapse (ms : Z)
| Settle (rid : nat) (out : Outcome).

(** What is on screen. *)
Definition inputs_rendered (s : Editor) : bool :=
  mounted s && negb (loading s).

Definition save_enabled (s : Editor) : bool :=
  mounted s && negb (saving s || negb (Js.truthy (Js.trim (content s)))).

Definition delete_rendered (s : Editor) : bool :=
  mounted s && negb (loading s) && isEditing s
  && match note s with Some _ => true | None => false end.

(** The pending timer that is due first, among those due by [limit]. *)
Fixpoint next_due (limit : Z) (ts : list Timer) : option Timer :=
  match ts with
  | [] => None
  | t :: ts' =>
      match next_due limit ts' with
      | Some u =>
          if (t_deadline t <=? limit)
             && ((t_deadline t <? t_deadline u)
                 || ((t_deadline t =? t_deadline u)
                     && Nat.leb (t_handle t) (t_handle u)))
          then Some t else Some u
      | None => if t_deadline t <=? limit then Some t else None
      end
  end.

(** The timer [t] fires: it leaves the table and its callback runs. *)
Definition fire (t : Timer) (s : Editor) : Editor :=
  handleAutoSave (t_callback t)
    (set_now (Z.max (now s) (t_deadline t)) (clearTimeout (t_handle t) s)).

Fixpoint fire_due (fuel : nat) (limit : Z) (s : Editor) : Editor :=
  match fuel with
  | O => s
  | S fuel' =>
      match next_due limit (timers s) with
      | Some t => fire_due fuel' limit (fire t s)
      | None => s
      end
  end.

(** [ms] milliseconds pass; the timers that come due fire in order. *)
Definition elapse (ms : Z) (s : Editor) : Editor :=
  let limit := now s + Z.max 0 ms in
  set_now limit (fire_due (List.length (timers s)) limit s).

Fixpoint take_pending (rid : nat) (ps : list Pending)
  : option (Pending * list Pending) :=
  match ps with
  | [] => None
  | p :: ps' =>
      if Nat.eqb (p_rid p) rid then Some (p, ps')
      else match take_pending rid ps' with
           | Some (q, rest) => Some (q, p :: rest)
           | None => None
           end
  end.

Definition settle (rid : nat) (out : Outcome) (s : Editor) : Editor :=
  match take_pending rid (inflight s) with
  | Some (p, rest) =>
      resume (p_awaiting p) out
        (log (ApiSettled rid (p_request p) out) (set_inflight rest s))
  | None => s
  end.

Definition step (s : Editor) (e : Event) : Editor :=
  match e with
  | TypeTitle v =>
      if inputs_rendered s then rerender s (setTitle v s) else s
  | TypeContent v =>
      if inputs_rendered s then rerender s (setContent v s) else s
  | ClickSave => if save_enabled s then handleSave s else s
  | ClickCancel => if mounted s then navigate "/dashboard" s else s
  | ClickDelete answer =>
      if delete_rendered s then handleDelete answer s else s
  | Elapse ms => elapse ms s
  | Settle rid out => settle rid out s
  end.

Definition run (s : Editor) (evs : list Event) : Editor :=
  fold_left step evs s.

(** ** Observations on a state and on a trace *)

(** The persistence calls are the create and edit calls of the two save
    handlers. *)
Definition is_save (k : Awaiting) : bool :=
  match k with
  | InAutoSaveEdit | InAutoSaveCreate | InHandleSave => true
  | InFetchNote | InHandleDelete => false
  end.

Definition saves (ps : list Pending) : list Pending :=
  filter (fun p => is_save (p_awaiting p)) ps.

Definition is_persistence_call (e : Effect) : bool :=
  match e with
  | ApiCall _ _ (CreateNote _) | ApiCall _ _ (EditNote _) => true
  | _ => false
  end.

Definition persistence_calls (tr : list Effect) : list Effect :=
  filter is_persistence_call tr.

(** Which request a suspended handler can be waiting for. *)
Definition kind_matches (k : Awaiting) (r : Request) : bool :=
  match k, r with
  | InFetchNote, GetSingleNote _ => true
  | InAutoSaveEdit, EditNote _ => true
  | InAutoSaveCreate, CreateNote _ => true
  | InHandleSave, CreateNote _ | InHandleSave, EditNote _ => true
  | InHandleDelete, DeleteNote _ => true
  | _, _ => false
  end.

(** ** Invariants of the reachable states *)

(** At most one save is awaiting its answer, and [saving] says whether one
    is. *)
Definition saves_wf (s : Editor) : Prop :=
  (saves (inflight s) = [] /\ saving s = false)
  \/ (exists p, saves (inflight s) = [p] /\ saving s = true).

Definition status_wf (s : Editor) : Prop :=
  SaveStatus_eqb (autoSaveStatus s) Saving = saving s.

(** At most one timer is pending; it is the one the ref holds, its cleanup
    is registered, it was created by a render that saw no save in progress,
    and no save has started since. *)
Definition timer_wf (s : Editor) : Prop :=
  timers s = []
  \/ exists h d cb,
       timers s = [{| t_handle := h; t_deadline := d; t_callback := cb |}]
       /\ autoSaveTimerRef s = Some h
       /\ effectCleanup s = true
       /\ mounted s = true
       /\ saving s = false
       /\ r_saving cb = false
       /\ r_autoSaveStatus cb <> Saving
       /\ d <= now s + AUTO_SAVE_DELAY.

Definition pending_wf (s : Editor) : Prop :=
  forallb (fun p => kind_matches (p_awaiting p) (p_request p)) (inflight s)
  = true.

Record WF (s : Editor) : Prop := {
  wf_saves : saves_wf s;
  wf_status : status_wf s;
  wf_timer : timer_wf s;
  wf_pending : pending_wf s
}.

(** The pending timer, if any, carries the current draft, which is not
    fully empty. *)
Definition synced (s : Editor) : Prop :=
  forall t, In t (timers s) ->
    r_title (t_callback t) = title s
    /\ r_content (t_callback t) = content s
    /\ (Js.truthy (title s) || Js.truthy (content s)) = true.

(** The invariant of the reachable states. *)
Definition Inv (s : Editor) : Prop := WF s /\ synced s.

(** The pending timer, if any, was created by a render that saw the current
    route id.  This holds as long as the route of the instance does not
    change. *)
Definition route_synced (s : Editor) : Prop :=
  forall t, In t (timers s) -> r_id (t_callback t) = routeId s.

(** ** Specifications used by the theorems *)

(** The draft has no title and no content. *)
Definition draft_empty (s : Editor) : bool :=
  negb (Js.truthy (title s)) && negb (Js.truthy (content s)).

(** *** Debounce coalescing *)

(** The request a save of the current draft sends: an edit of the known
    note, or a create. *)
Definition save_request (s : Editor) : Request :=
  match Js.if_truthy (Js.or (createdNoteIdRef s) (routeId s)) with
  | Some noteId =>
      EditNote {| edit_id := noteId;
                  edit_title := Js.or_undefined (Js.trim (title s));
                  edit_content := Js.trim (content s) |}
  | None =>
      CreateNote {| create_title := Js.or_undefined (Js.trim (title s));
                    create_content := Js.trim (content s) |}
  end.

(** A real change of the title or of the content. *)
Definition is_mutation (s : Editor) (e : Event) : Prop :=
  match e with
  | TypeTitle v => v <> title s
  | TypeContent v => v <> content s
  | _ => False
  end.

(** A burst of edits: each entry is the time that passes before a change,
    and the change. *)
Definition burst_step (s : Editor) (gm : Z * Event) : Editor :=
  step (step s (Elapse (fst gm))) (snd gm).

Definition run_burst (s : Editor) (b : list (Z * Event)) : Editor :=
  fold_left burst_step b s.

(** Every change of the burst comes less than the delay after the one
    before it. *)
Fixpoint rapid (s : Editor) (b : list (Z * Event)) : Prop :=
  match b with
  | [] => True
  | gm :: b' =>
      0 <= fst gm < AUTO_SAVE_DELAY
      /\ is_mutation s (snd gm)
      /\ rapid (burst_step s gm) b'
  end.

(** C4 as it is stated: the sequence of changes that starts with [e0] in
    the state [s] and goes on with the burst [b] is followed, the delay after
    its last change, by exactly one call, with the draft of the last
    change. *)
Definition debounce_saves_last_draft
           (s : Editor) (e0 : Event) (b : list (Z * Event)) : Prop :=
  let s' := run_burst (step s e0) b in
  exists rid,
    trace (step s' (Elapse AUTO_SAVE_DELAY))
    = ApiCall rid (now s' + AUTO_SAVE_DELAY) (save_request s') :: trace s.

(** The state between two changes of a burst. *)
Definition between_changes (s : Editor) : Prop :=
  Inv s /\ inputs_rendered s = true /\ saving s = false
  /\ (timers s = []
      \/ exists t, timers s = [t] /\ t_deadline t = now s + AUTO_SAVE_DELAY).

(** After a change: no timer for a fully empty draft, else one fresh timer
    a full delay away. *)
Definition armed (s : Editor) : Prop :=
  if draft_empty s then timers s = []
  else exists t, timers s = [t] /\ t_deadline t = now s + AUTO_SAVE_DELAY.

(** *** What one step does to the log *)

(** The identity a fulfilled create returns: [response.data?.id], when it is
    truthy. *)
Definition returned_id (r : ApiResponse) : option string :=
  Js.if_truthy (option_map note_id (data r)).

(** The ref after the continuation [k] has run on [out]. *)
Definition ref_after (k : Awaiting) (out : Outcome) (ref : option string)
  : option string :=
  match k, out with
  | InAutoSaveCreate, Fulfilled r =>
      match returned_id r with Some newId => Some newId | None => ref end
  | _, _ => ref
  end.

(** Whether the continuation [k] leaves the editor on [out]. *)
Definition leaves (k : Awaiting) (out : Outcome) : bool :=
  match k, out with
  | InHandleSave, Fulfilled _ | InHandleDelete, Fulfilled _ => true
  | _, _ => false
  end.

(** Log entries that are neither a call nor an answer nor a confirmation. *)
Definition is_note (e : Effect) : bool :=
  match e with
  | Navigate _ | HistoryReplaceState _ | ConsoleError _ => true
  | _ => false
  end.

(** The observable change of one step, by cases. *)
Inductive Delta (s : Editor) (e : Event) (s' : Editor) : Prop :=
| D_quiet :
    trace s' = trace s -> inflight s' = inflight s ->
    createdNoteIdRef s' = createdNoteIdRef s -> mounted s' = mounted s ->
    Delta s e s'
| D_cancel :
    trace s' = Navigate "/dashboard" :: trace s -> inflight s' = inflight s ->
    createdNoteIdRef s' = createdNoteIdRef s -> mounted s' = false ->
    Delta s e s'
| D_save (k : Awaiting) (at_ms : Z) :
    saves (inflight s) = [] -> mounted s = true ->
    Js.truthy (Js.trim (content s)) = true ->
    is_save k = true -> kind_matches k (save_request s) = true ->
    trace s' = ApiCall (nextRequest s) at_ms (save_request s) :: trace s ->
    inflight s' = {| p_rid := nextRequest s; p_request := save_request s;
                     p_awaiting := k |} :: inflight s ->
    createdNoteIdRef s' = createdNoteIdRef s -> mounted s' = true ->
    Delta s e s'
| D_declined :
    trace s' = WindowConfirm false :: trace s -> inflight s' = inflight s ->
    createdNoteIdRef s' = createdNoteIdRef s -> mounted s' = mounted s ->
    Delta s e s'
| D_delete (noteId : string) :
    delete_rendered s = true ->
    Js.if_truthy (routeId s) = Some noteId ->
    trace s' = ApiCall (nextRequest s) (now s) (DeleteNote noteId)
               :: WindowConfirm true :: trace s ->
    inflight s' = {| p_rid := nextRequest s; p_request := DeleteNote noteId;
                     p_awaiting := InHandleDelete |} :: inflight s ->
    createdNoteIdRef s' = createdNoteIdRef s -> mounted s' = mounted s ->
    Delta s e s'
| D_settle (rid : nat) (out : Outcome) (p : Pending) (rest : list Pending)
           (notes : list Effect) :
    e = Settle rid out ->
    take_pending rid (inflight s) = Some (p, rest) ->
    forallb is_note notes = true ->
    trace s' = (notes ++ ApiSettled rid (p_request p) out :: trace s)%list ->
    inflight s' = rest ->
    createdNoteIdRef s' = ref_after (p_awaiting p) out (createdNoteIdRef s) ->
    mounted s' = (if leaves (p_awaiting p) out then false else mounted s) ->
    Delta s e s'.

(** *** No save without content *)


(** *** Delete *)

(** Every [deleteNote] call of the log comes right after a confirmation
    that returned true. *)
Fixpoint deletes_confirmed (tr : list Effect) : Prop :=
  match tr with
  | [] => True
  | e :: tr' =>
      match e with
      | ApiCall _ _ (DeleteNote _) => exists rest, tr' = WindowConfirm true :: rest
      | _ => True
      end /\ deletes_confirmed tr'
  end.


(** A session-created identity and a truthy route id exclude each other,
    and a debounced create is only ever in flight without a route id. *)
Definition created_without_route (s : Editor) : Prop :=
  (createdNoteIdRef s <> None -> Js.truthy_opt (routeId s) = false)
  /\ forall p, In p (inflight s) -> p_awaiting p = InAutoSaveCreate ->
               Js.truthy_opt (routeId s) = false.

(** *** Create once, then edit *)

(** The identity a log entry hands to the editor: that of a fulfilled
    create. *)
Definition create_result (e : Effect) : option string :=
  match e with
  | ApiSettled _ (CreateNote _) (Fulfilled r) => returned_id r
  | _ => None
  end.

(** The identity returned by the first fulfilled create of the log. *)
Fixpoint first_created (tr : list Effect) : option string :=
  match tr with
  | [] => None
  | e :: tr' =>
      match first_created tr' with
      | Some i => Some i
      | None => create_result e
      end
  end.

(** Every create is called while no create has returned an identity, and
    every edit is called with the identity the first fulfilled create
    returned. *)
Fixpoint identity_promotion (tr : list Effect) : Prop :=
  match tr with
  | [] => True
  | e :: tr' =>
      match e with
      | ApiCall _ _ (CreateNote _) => first_created tr' = None
      | ApiCall _ _ (EditNote d) => first_created tr' = Some (edit_id d)
      | _ => True
      end /\ identity_promotion tr'
  end.

Definition is_fulfilled_create (e : Effect) : bool :=
  match e with
  | ApiSettled _ (CreateNote _) (Fulfilled _) => true
  | _ => false
  end.

Definition is_fulfilled_edit (e : Effect) : bool :=
  match e with
  | ApiSettled _ (EditNote _) (Fulfilled _) => true
  | _ => false
  end.

(** The successful saves of a log, newest first. *)
Definition successful_saves (tr : list Effect) : list Effect :=
  filter (fun e => is_fulfilled_create e || is_fulfilled_edit e) tr.

Definition is_create_call (e : Effect) : bool :=
  match e with
  | ApiCall _ _ (CreateNote _) => true
  | _ => false
  end.

Definition is_edit_call (e : Effect) : bool :=
  match e with
  | ApiCall _ _ (EditNote _) => true
  | _ => false
  end.

Definition create_calls (tr : list Effect) : nat :=
  List.length (filter is_create_call tr).

Definition edit_calls (tr : list Effect) : nat :=
  List.length (filter is_edit_call tr).

(** C2 as it is stated: for S >= 1 successful saves, exactly one
    [createNote] call and S-1 [editNote] calls. *)
Definition one_create_call (tr : list Effect) : Prop :=
  let S := List.length (successful_saves tr) in
  (1 <= S)%nat ->
  create_calls tr = 1%nat /\ edit_calls tr = (S - 1)%nat.

(** Every create of the log that was fulfilled returned an identity. *)
Definition creates_return_identity (tr : list Effect) : Prop :=
  forall rid d r,
    In (ApiSettled rid (CreateNote d) (Fulfilled r)) tr ->
    returned_id r <> None.

(** The same, as a check that can be run on a log. *)
Definition answers_with_identity (e : Effect) : bool :=
  match e with
  | ApiSettled _ (CreateNote _) (Fulfilled r) =>
      match returned_id r with Some _ => true | None => false end
  | _ => true
  end.

(** A fulfilled edit of the note [i]. *)
Definition edit_of (i : string) (e : Effect) : Prop :=
  exists rid d r,
    e = ApiSettled rid (EditNote d) (Fulfilled r) /\ edit_id d = i.

(** The successful saves of the log are one create, which returned [i], and
    after it edits of [i] only. *)
Definition create_then_edits (i : string) (tr : list Effect) : Prop :=
  exists rid d r later,
    successful_saves tr
    = (later ++ [ApiSettled rid (CreateNote d) (Fulfilled r)])%list
    /\ returned_id r = Some i
    /\ Forall (edit_of i) later.

(** The two phases of a session opened without a route id: before a create
    has returned, and after; after it either the ref holds the identity or
    the create was a manual one and the editor has been left. *)
Definition before_create (s : Editor) : Prop :=
  first_created (trace s) = None /\ createdNoteIdRef s = None
  /\ successful_saves (trace s) = []
  /\ forall p, In p (saves (inflight s)) ->
               exists d, p_request p = CreateNote d.

Definition after_create (i : string) (s : Editor) : Prop :=
  first_created (trace s) = Some i
  /\ create_then_edits i (trace s)
  /\ ((createdNoteIdRef s = Some i /\ Js.truthy i = true
       /\ forall p, In p (saves (inflight s)) ->
                    exists d, p_request p = EditNote d /\ edit_id d = i)
      \/ (mounted s = false /\ saves (inflight s) = [])).

Definition single_create (s : Editor) : Prop :=
  identity_promotion (trace s)
  /\ (before_create s \/ exists i, after_create i s).

(** ** Further specifications *)

(** The create and edit calls of a log all edit the note [noteId]. *)
Definition only_edits (noteId : string) (e : Effect) : Prop :=
  match e with
  | ApiCall _ _ (CreateNote _) => False
  | ApiCall _ _ (EditNote d) => edit_id d = noteId
  | _ => True
  end.

Definition is_api_call (e : Effect) : bool :=
  match e with
  | ApiCall _ _ _ => true
  | _ => false
  end.

(** The [notesApi] calls of a log. *)
Definition api_calls (tr : list Effect) : list Effect :=
  filter is_api_call tr.

(** The title and content [fetchNote] puts into the draft. *)
Definition fetched_title (n : Note) : string :=
  match note_title n with
  | Some t => Js.or_default t ""
  | None => ""
  end.

Definition fetched_content (n : Note) : string :=
  Js.or_default (note_content n) "".

(** [getAutoSaveText]; its [default] branch cannot be reached. *)
Definition getAutoSaveText (s : Editor) : string :=
  match autoSaveStatus s with
  | Saving => "Auto-saving..."
  | Saved => "All changes saved"
  | Unsaved => "Unsaved changes"
  end.

(** The label of the Save control: [saving ? 'Saving...' : 'Save']. *)
Definition saveButtonLabel (s : Editor) : string :=
  if saving s then "Saving..." else "Save".

(** A payload field as the editor sends it: trimmed, and not empty. *)
Definition normal_text (x : string) : Prop := x <> "" /\ Js.trim x = x.

Definition normal_title (t : option string) : Prop :=
  match t with
  | Some x => normal_text x
  | None => True
  end.

Definition payload_normal (e : Effect) : Prop :=
  match e with
  | ApiCall _ _ (CreateNote d) =>
      normal_text (create_content d) /\ normal_title (create_title d)
  | ApiCall _ _ (EditNote d) =>
      normal_text (edit_content d) /\ normal_title (edit_title d)
  | _ => True
  end.

(** While a debounced create is in flight the ref is empty, and the ref only
    ever holds a truthy id. *)
Definition ref_wf (s : Editor) : Prop :=
  (forall p, In p (inflight s) -> p_awaiting p = InAutoSaveCreate ->
             createdNoteIdRef s = None)
  /\ (forall i, createdNoteIdRef s = Some i -> Js.truthy i = true).

Definition is_fetch_call (e : Effect) : bool :=
  match e with
  | ApiCall _ _ (GetSingleNote _) => true
  | _ => false
  end.

(** The [getSingleNote] calls of a log. *)
Definition fetch_calls (tr : list Effect) : list Effect :=
  filter is_fetch_call tr.

(** ** Route changes inside one instance

    App.tsx renders the same element, the [NoteEditor] inside an
    [AuthGuard], for /dashboard/create-note and for
    /dashboard/edit-note/:id.  A change between these routes (the "Create
    New Note" link of the Sidebar that the editor renders, or the history of
    the browser) therefore re-renders the mounted instance with another
    [id] and keeps its state cells, its refs and its pending timer.  A
    change to any other route unmounts the editor, as Cancel does. *)

Module Routed.

(** [Object.is] on the [id] of two renders. *)
Definition same_id (a b : option string) : bool :=
  match a, b with
  | Some x, Some y => String.eqb x y
  | None, None => true
  | _, _ => false
  end.

(** The first effect of the component, with the dependencies
    [[id, isEditing]]. *)
Definition fetchEffect (s : Editor) : Editor :=
  if isEditing s then
    match Js.if_truthy (routeId s) with
    | Some noteId => fetchNote noteId s
    | None => s
    end
  else s.

(** The route of the mounted editor changes to an editor route with the
    param [id]: the component is rendered with it, and the first effect
    runs if its dependencies changed.  The debounce effect does not run:
    [title] and [content] are as before. *)
Definition changeRoute (id : option string) (s : Editor) : Editor :=
  if mounted s then
    if same_id (routeId s) id then s
    else fetchEffect (set_routeId id s)
  else s.

Inductive Action :=
| Ui (e : Event)
| ChangeRoute (id : option string).

Definition step (s : Editor) (a : Action) : Editor :=
  match a with
  | Ui e => step s e
  | ChangeRoute id => changeRoute id s
  end.

Definition run (s : Editor) (acts : list Action) : Editor :=
  fold_left step acts s.

End Routed.

(** *** The character count of the footer *)

(** The text after the first [>] of [s], if there is one. *)
Fixpoint after_gt (s : string) : option string :=
  match s with
  | EmptyString => None
  | String c r => if Ascii.eqb c ">" then Some r else after_gt r
  end.

(** [s.replace(/<[^>]*>/g, '')]: scanning from the left, a [<] that has a
    [>] somewhere after it is removed together with everything up to the
    first such [>]; a [<] with no [>] after it stays, and then nothing
    further can match. *)
Fixpoint strip_tags (fuel : nat) (s : string) : string :=
  match fuel with
  | O => s
  | S fuel' =>
      match s with
      | EmptyString => EmptyString
      | String c r =>
          if Ascii.eqb c "<" then
            match after_gt r with
            | Some rest => strip_tags fuel' rest
            | None => s
            end
          else String c (strip_tags fuel' r)
      end
  end.

Definition stripTags (s : string) : string :=
  strip_tags (String.length s) s.

(** No [<] of [s] has a [>] after it. *)
Definition tag_free (s : string) : Prop :=
  forall a b, s = a ++ String "<" b -> after_gt b = None.

(** Whether the character [x] occurs in [s]. *)
Fixpoint has_char (x : ascii) (s : string) : bool :=
  match s with
  | EmptyString => false
  | String c r => Ascii.eqb c x || has_char x r
  end.

(** ** utils/api.ts

    The token functions, [apiCall], [authApi.login], [authApi.logout] and
    the [notesApi] functions the editor calls (frontend/src/utils/api.ts).
    [localStorage] is a function from keys to values; the network is a
    function [net] from the request handed to [fetch] to what [fetch] and
    [response.json()] come back with; a call yields what it returns or
    throws together with the storage it leaves. *)

Module Api.

Definition API_BASE_URL : string := "http://localhost:8000/api/v1".

(** [localStorage]: a value or [null] under every key. *)
Definition Storage : Type := string -> option string.

Definition getItem (k : string) (st : Storage) : option string := st k.

Definition setItem (k v : string) (st : Storage) : Storage :=
  fun k' => if String.eqb k' k then Some v else st k'.

Definition removeItem (k : string) (st : Storage) : Storage :=
  fun k' => if String.eqb k' k then None else st k'.

Definition TOKEN_KEY : string := "accessToken".
Definition REFRESH_TOKEN_KEY : string := "refreshToken".

Definition getAccessToken (st : Storage) : option string :=
  getItem TOKEN_KEY st.

Definition setTokens (accessToken refreshToken : string) (st : Storage)
  : Storage :=
  setItem REFRESH_TOKEN_KEY refreshToken (setItem TOKEN_KEY accessToken st).

Definition clearTokens (st : Storage) : Storage :=
  removeItem REFRESH_TOKEN_KEY (removeItem TOKEN_KEY st).

(** [tokenUtils.isAuthenticated]: [!!getAccessToken()] *)
Definition isAuthenticated (st : Storage) : bool :=
  Js.truthy_opt (getAccessToken st).

(** [class ApiError extends Error] *)
Record ApiError := {
  status : Z;
  message : string
}.

(** What a call of this file can throw: an [ApiError], or the [TypeError] of
    reading a property of [null]. *)
Inductive Thrown :=
| ThrownApiError (e : ApiError)
| ThrownTypeError.

(** A headers object: keys in insertion order, each once.  Assigning an
    existing key replaces its value in place. *)
Definition Headers : Type := list (string * string).

Fixpoint set_header (k v : string) (h : Headers) : Headers :=
  match h with
  | [] => [(k, v)]
  | (k', v') :: h' =>
      if String.eqb k' k then (k, v) :: h' else (k', v') :: set_header k v h'
  end.

Fixpoint get_header (k : string) (h : Headers) : option string :=
  match h with
  | [] => None
  | (k', v') :: h' => if String.eqb k' k then Some v' else get_header k h'
  end.

(** [{...dst, ...src}] *)
Definition spread (src dst : Headers) : Headers :=
  fold_left (fun acc kv => set_header (fst kv) (snd kv) acc) src dst.

(** The [options] the functions of this file pass to [apiCall], with the
    [headers] it reads; [B] stands for what [JSON.stringify] was given. *)
Record RequestInit (B : Type) := {
  method : option string;
  body : option B;
  headers : option Headers
}.
Arguments method {B} _.
Arguments body {B} _.
Arguments headers {B} _.

(** The second argument of [fetch]. *)
Record FetchInit (B : Type) := {
  f_url : string;
  f_headers : Headers;
  f_credentials : string;
  f_method : option string;
  f_body : option B
}.
Arguments f_url {B} _.
Arguments f_headers {B} _.
Arguments f_credentials {B} _.
Arguments f_method {B} _.
Arguments f_body {B} _.

(** The [message] of a parsed body, as [apiCall] reads it in
    [data.message || '...'] and hands it to the [Error] constructor, which
    converts it to a string.  It is declared a string, but it is whatever
    value the body holds: a falsy value that is not a string (missing,
    [null], [false], [0]), a string, or another truthy value ([true], a
    number but 0, an array, an object), of which only its conversion to a
    string matters. *)
Inductive MessageField :=
| Falsy
| Text (m : string)
| Other (shown : string).

(** A parsed JSON body: [null], or a value of which [message] and [data]
    are read. *)
Inductive Json (T : Type) :=
| JsonNull
| JsonValue (msg : MessageField) (payload : option T).
Arguments JsonNull {T}.
Arguments JsonValue {T} _ _.

(** What [fetch] and [response.json()] come back with: [fetch] rejects, or
    there is a response with a status, whose body parses or does not. *)
Inductive FetchResult (T : Type) :=
| NetworkFailure
| Response (status : Z) (json : option (Json T)).
Arguments NetworkFailure {T}.
Arguments Response {T} _ _.

(** [response.ok] *)
Definition ok (status : Z) : bool := (200 <=? status) && (status <=? 299).

Inductive Result (T : Type) :=
| Returns (v : Json T)
| Throws (e : Thrown).
Arguments Returns {T} _.
Arguments Throws {T} _.

Definition network_error : ApiError :=
  {| status := 500; message := "Network error. Please try again." |}.

(** The request [apiCall] hands to [fetch]. *)
Definition request_of {B : Type} (endpoint : string) (options : RequestInit B)
           (st : Storage) : FetchInit B :=
  let token := getAccessToken st in
  let hs := spread (match headers options with Some h => h | None => [] end)
                   [("Content-Type", "application/json")] in
  let hs := match Js.if_truthy token with
            | Some t => set_header "Authorization" ("Bearer " ++ t) hs
            | None => hs
            end in
  {| f_url := API_BASE_URL ++ endpoint;
     f_headers := match headers options with Some h => h | None => hs end;
     f_credentials := "include";
     f_method := method options;
     f_body := body options |}.

(** [apiCall]; [net] is what the network answers to the request. *)
Definition apiCall {B T : Type} (endpoint : string) (options : RequestInit B)
           (net : FetchInit B -> FetchResult T) (st : Storage)
  : Result T * Storage :=
  match net (request_of endpoint options st) with
  | NetworkFailure => (Throws (ThrownApiError network_error), st)
  | Response _ None => (Throws (ThrownApiError network_error), st)
  | Response code (Some data) =>
      if ok code then (Returns data, st)
      else
        let st := if (code =? 401) || (code =? 403) then clearTokens st
                  else st in
        match data with
        | JsonNull => (Throws (ThrownApiError network_error), st)
        | JsonValue msg _ =>
            (Throws (ThrownApiError
                       {| status := code;
                          message := match msg with
                                     | Text m =>
                                         Js.or_default m "Something went wrong"
                                     | Other shown => shown
                                     | Falsy => "Something went wrong"
                                     end |}), st)
        end
  end.

(** What the bodies of the requests are the [JSON.stringify] of. *)
Record LoginData := { email : string; password : string }.

Inductive Body :=
| BodyLogin (credentials : LoginData)
| BodyCreateNote (d : CreateNoteData)
| BodyEditNote (d : EditNoteData).

(** Of the [data] of a login response the two tokens are read. *)
Record LoginPayload := {
  accessToken : option string;
  refreshToken : option string
}.

Definition post (b : option Body) : RequestInit Body :=
  {| method := Some "POST"; body := b; headers := None |}.

(** [authApi.login] *)
Definition login (credentials : LoginData)
           (net : FetchInit Body -> FetchResult LoginPayload) (st : Storage)
  : Result LoginPayload * Storage :=
  match apiCall "/users/login" (post (Some (BodyLogin credentials))) net st with
  | (Returns JsonNull, st) => (Throws ThrownTypeError, st)
  | (Returns (JsonValue msg payload), st) =>
      let st :=
        match Js.if_truthy (match payload with
                            | Some p => accessToken p | None => None end),
              Js.if_truthy (match payload with
                            | Some p => refreshToken p | None => None end)
        with
        | Some a, Some r => setTokens a r st
        | _, _ => st
        end in
      (Returns (JsonValue msg payload), st)
  | (Throws e, st) => (Throws e, st)
  end.

(** [authApi.logout] *)
Definition logout {T : Type} (net : FetchInit Body -> FetchResult T)
           (st : Storage) : Result T * Storage :=
  match apiCall "/users/logout" (post None) net st with
  | (Returns response, st) => (Returns response, clearTokens st)
  | (Throws e, st) => (Throws e, clearTokens st)
  end.

(** The four [notesApi] functions the editor calls, by the request of the
    editor. *)
Definition notes_endpoint (req : Request) : string * RequestInit Body :=
  match req with
  | GetSingleNote id =>
      ("/notes/get-note/" ++ id,
       {| method := Some "GET"; body := None; headers := None |})
  | CreateNote d =>
      ("/notes/create-note",
       {| method := Some "POST"; body := Some (BodyCreateNote d);
          headers := None |})
  | EditNote d =>
      ("/notes/edit-note",
       {| method := Some "PATCH"; body := Some (BodyEditNote d);
          headers := None |})
  | DeleteNote id =>
      ("/notes/delete-note/" ++ id,
       {| method := Some "DELETE"; body := None; headers := None |})
  end.

Definition notesApi (req : Request)
           (net : FetchInit Body -> FetchResult Note) (st : Storage)
  : Result Note * Storage :=
  apiCall (fst (notes_endpoint req)) (snd (notes_endpoint req)) net st.

End Api.

(** * Proofs *)

(** ** Basic facts *)

Lemma SaveStatus_eqb_eq (a b : SaveStatus) :
  SaveStatus_eqb a b = true <-> a = b.
Proof. destruct a, b; simpl; split; congruence. Qed.

Lemma SaveStatus_eqb_neq (a b : SaveStatus) :
  SaveStatus_eqb a b = false <-> a <> b.
Proof. destruct a, b; simpl; split; congruence. Qed.

Lemma take_pending_saves rid ps p rest :
  take_pending rid ps = Some (p, rest) ->
  if is_save (p_awaiting p)
  then (List.length (saves ps) = S (List.length (saves rest)))
  else saves rest = saves ps.
Proof.
  revert p rest. induction ps as [|q ps IH]; intros p rest; simpl.
  - discriminate.
  - destruct (Nat.eqb (p_rid q) rid).
    + intros H; inversion H; subst.
      destruct (is_save (p_awaiting p)) eqn:E; simpl; rewrite ?E; reflexivity.
    + destruct (take_pending rid ps) as [[q' rest']|]; [|discriminate].
      intros H; inversion H; subst.
      specialize (IH p rest' eq_refl).
      destruct (is_save (p_awaiting p)); simpl;
        destruct (is_save (p_awaiting q)); simpl; congruence.
Qed.

Lemma take_pending_forallb rid ps p rest f :
  take_pending rid ps = Some (p, rest) ->
  forallb f ps = true -> f p = true /\ forallb f rest = true.
Proof.
  revert p rest. induction ps as [|q ps IH]; intros p rest; simpl.
  - discriminate.
  - destruct (Nat.eqb (p_rid q) rid).
    + intros H; inversion H; subst. intros F.
      apply andb_prop in F. exact F.
    + destruct (take_pending rid ps) as [[q' rest']|]; [|discriminate].
      intros H; inversion H; subst. intros F.
      apply andb_prop in F. destruct F as [Fq F].
      destruct (IH p rest' eq_refl F) as [Fp Fr].
      simpl. rewrite Fq, Fr. auto.
Qed.

(** ** Preservation of the invariants *)

Lemma saves_wf_idle s :
  saves_wf s -> saving s = false -> saves (inflight s) = [].
Proof. intros [[H _]|[p [_ H]]] E; [assumption | congruence]. Qed.

Lemma timer_wf_saving s :
  timer_wf s -> saving s = true -> timers s = [].
Proof.
  intros [H|(h & d & cb & _ & _ & _ & _ & H & _)] E; [assumption | congruence].
Qed.

Lemma timer_wf_unmounted s :
  timer_wf s -> mounted s = false -> timers s = [].
Proof.
  intros [H|(h & d & cb & _ & _ & _ & H & _)] E; [assumption | congruence].
Qed.

(** Clearing the timer the ref holds empties the table. *)
Lemma timer_wf_clear s :
  timer_wf s ->
  timers (autoSaveCleanup s) = []
  /\ (effectCleanup s = false -> timers s = []).
Proof.
  unfold autoSaveCleanup.
  intros [H|(h & d & cb & H & Hr & Hc & _)].
  - split; [|auto]. destruct (autoSaveTimerRef s); simpl; rewrite ?H; reflexivity.
  - rewrite Hr. simpl. rewrite H. simpl. rewrite Nat.eqb_refl. split; [reflexivity|].
    congruence.
Qed.

Lemma WF_handleSave s :
  WF s -> saving s = false -> WF (handleSave s).
Proof.
  intros [Hs Hst Ht Hp] Hsav.
  unfold handleSave.
  destruct (negb (Js.truthy (Js.trim (content s)))).
  - split; assumption.
  - pose proof (saves_wf_idle _ Hs Hsav) as Hnil.
    destruct (timer_wf_clear _ Ht) as [Htm _]. unfold autoSaveCleanup in Htm.
    unfold status_wf, pending_wf in *.
    destruct (autoSaveTimerRef s) as [h|]; simpl in *;
      destruct (Js.if_truthy _); split;
      unfold saves_wf, status_wf, timer_wf, pending_wf; simpl;
      rewrite ?Hnil, ?Htm; eauto.
Qed.

Lemma WF_handleAutoSave r s :
  WF s -> timers s = [] ->
  (saving s = true -> r_saving r = true \/ r_autoSaveStatus r = Saving) ->
  WF (handleAutoSave r s).
Proof.
  intros [Hs Hst Ht Hp] Htm Hg.
  unfold handleAutoSave.
  destruct (negb (Js.truthy (Js.trim (r_content r)))); [split; assumption|].
  destruct (r_saving r) eqn:Er; simpl; [split; assumption|].
  destruct (SaveStatus_eqb (r_autoSaveStatus r) Saving) eqn:Es; [split; assumption|].
  apply SaveStatus_eqb_neq in Es.
  assert (Hsav : saving s = false).
  { destruct (saving s); [|reflexivity]. destruct (Hg eq_refl); congruence. }
  pose proof (saves_wf_idle _ Hs Hsav) as Hnil.
  unfold pending_wf in *.
  destruct (Js.if_truthy _); split;
    unfold saves_wf, status_wf, timer_wf, pending_wf; simpl;
    rewrite ?Hnil, ?Htm; eauto.
Qed.

Lemma fire_timers t s :
  timers (fire t s) = timers (clearTimeout (t_handle t) s).
Proof.
  unfold fire, handleAutoSave.
  destruct (negb _); [reflexivity|].
  destruct (_ || _); [reflexivity|].
  simpl. destruct (Js.if_truthy _); reflexivity.
Qed.

Lemma WF_fire t s :
  WF s -> In t (timers s) -> WF (fire t s) /\ timers (fire t s) = [].
Proof.
  intros W Hin.
  pose proof (wf_timer _ W) as Ht.
  destruct Ht as [Ht|(h & d & cb & Ht & Hr & Hc & Hm & Hsav & Hcs & Hcst & Hd)].
  { rewrite Ht in Hin. destruct Hin. }
  rewrite Ht in Hin. destruct Hin as [<-|[]].
  assert (E : timers (clearTimeout h s) = []).
  { simpl. rewrite Ht. simpl. rewrite Nat.eqb_refl. reflexivity. }
  split; [|rewrite fire_timers; exact E].
  unfold fire. apply WF_handleAutoSave.
  - destruct W as [Hs Hst _ Hp]. split; try assumption. left. exact E.
  - exact E.
  - simpl. congruence.
Qed.

Lemma WF_set_now n s :
  WF s -> now s <= n -> WF (set_now n s).
Proof.
  intros [Hs Hst Ht Hp] Hn. split; try assumption.
  destruct Ht as [Ht|(h & d & cb & Ht & Hr & Hc & Hm & Hsav & Hcs & Hcst & Hd)].
  - left. exact Ht.
  - right. exists h, d, cb. simpl. repeat split; try assumption. lia.
Qed.

Lemma now_handleAutoSave r s : now (handleAutoSave r s) = now s.
Proof.
  unfold handleAutoSave.
  destruct (negb _); [reflexivity|].
  destruct (_ || _); [reflexivity|].
  simpl. destruct (Js.if_truthy _); reflexivity.
Qed.

Lemma now_fire t s : now (fire t s) = Z.max (now s) (t_deadline t).
Proof. unfold fire. rewrite now_handleAutoSave. reflexivity. Qed.

(** With a well-formed timer table, time passing fires the one pending
    timer when it is due, and nothing else. *)
Lemma elapse_cases ms s :
  timer_wf s ->
  let limit := now s + Z.max 0 ms in
  (timers s = [] /\ elapse ms s = set_now limit s)
  \/ (exists t, timers s = [t] /\ limit < t_deadline t
                /\ elapse ms s = set_now limit s)
  \/ (exists t, timers s = [t] /\ t_deadline t <= limit
                /\ elapse ms s = set_now limit (fire t s)).
Proof.
  intros Ht limit. unfold elapse. fold limit.
  destruct Ht as [Ht|(h & d & cb & Ht & _)].
  - left. rewrite Ht. simpl. auto.
  - right. rewrite Ht. simpl. rewrite Ht. simpl.
    destruct (Z.leb_spec d limit).
    + right. eexists. split; [reflexivity|]. simpl. split; [assumption|].
      reflexivity.
    + left. eexists. split; [reflexivity|]. simpl. auto.
Qed.

Lemma WF_elapse ms s : WF s -> WF (elapse ms s).
Proof.
  intros W.
  destruct (elapse_cases ms s (wf_timer _ W))
    as [[_ E]|[(t & _ & _ & E)|(t & Ht & Hd & E)]]; rewrite E.
  - apply WF_set_now; [assumption|lia].
  - apply WF_set_now; [assumption|lia].
  - apply WF_set_now.
    + apply WF_fire; [assumption|]. rewrite Ht. left. reflexivity.
    + rewrite now_fire. lia.
Qed.

Lemma WF_autoSaveEffect s :
  WF s -> mounted s = true ->
  WF (autoSaveEffect s) /\ synced (autoSaveEffect s).
Proof.
  intros [Hs Hst Ht Hp] Hm.
  destruct (timer_wf_clear _ Ht) as [Hc Hn].
  unfold autoSaveEffect, autoSaveCleanup in *.
  set (s1 := set_effectCleanup false _).
  assert (Htm : timers s1 = []).
  { subst s1. destruct (effectCleanup s); simpl; [exact Hc|auto]. }
  assert (W1 : WF s1).
  { subst s1. destruct (effectCleanup s); [destruct (autoSaveTimerRef s)|];
      (split; [exact Hs|exact Hst|left; exact Htm|exact Hp]). }
  assert (E1 : title s1 = title s /\ content s1 = content s
               /\ saving s1 = saving s /\ mounted s1 = mounted s
               /\ autoSaveStatus s1 = autoSaveStatus s).
  { subst s1. destruct (effectCleanup s); [destruct (autoSaveTimerRef s)|];
      simpl; auto. }
  destruct E1 as (Et & Ec & Esv & Emt & Est).
  assert (Sy1 : synced s1).
  { intros t Hin. rewrite Htm in Hin. destruct Hin. }
  clearbody s1.
  destruct (negb (Js.truthy (title s1)) && negb (Js.truthy (content s1))) eqn:Ee;
    [auto|].
  destruct (saving s1) eqn:Es1; [auto|].
  assert (Hne : (Js.truthy (title s1) || Js.truthy (content s1)) = true).
  { destruct (Js.truthy (title s1)), (Js.truthy (content s1)); simpl in *; congruence. }
  assert (Hst1 : autoSaveStatus s1 <> Saving).
  { apply SaveStatus_eqb_neq. rewrite Est, Hst. congruence. }
  destruct W1 as [Hs1 _ _ Hp1].
  assert (Htm' : timers (match autoSaveTimerRef s1 with
                         | Some h => clearTimeout h s1 | None => s1 end) = []).
  { destruct (autoSaveTimerRef s1); simpl; rewrite Htm; reflexivity. }
  split.
  - destruct (autoSaveTimerRef s1); simpl in *; (split;
      [exact Hs1| unfold status_wf; simpl; congruence | | exact Hp1]);
      right; do 3 eexists; simpl; rewrite Htm;
      (repeat split; try reflexivity; try assumption; try congruence;
       unfold AUTO_SAVE_DELAY; lia).
  - intros t. destruct (autoSaveTimerRef s1); simpl; rewrite Htm;
      (intros [<-|[]]; simpl; auto).
Qed.

Lemma WF_navigate path s :
  WF s -> WF (navigate path s) /\ mounted (navigate path s) = false
          /\ timers (navigate path s) = [].
Proof.
  intros [Hs Hst Ht Hp].
  destruct (timer_wf_clear _ Ht) as [Hc Hn].
  unfold navigate, autoSaveCleanup in *. simpl.
  destruct (mounted s) eqn:Hm.
  - assert (Htm : timers (if effectCleanup s
                          then match autoSaveTimerRef s with
                               | Some h => clearTimeout h (log (Navigate path) s)
                               | None => log (Navigate path) s end
                          else log (Navigate path) s) = []).
    { destruct (effectCleanup s); [|auto].
      destruct (autoSaveTimerRef s); exact Hc. }
    split; [|split; [reflexivity|exact Htm]].
    split; [| |left; exact Htm|];
      (destruct (effectCleanup s); [destruct (autoSaveTimerRef s)|]; assumption).
  - pose proof (timer_wf_unmounted _ Ht Hm) as Htm.
    split; [|split; [exact Hm|exact Htm]].
    split; assumption.
Qed.

Lemma rerender_inv old s :
  WF s -> timers s = timers old -> synced old ->
  WF (rerender old s) /\ synced (rerender old s).
Proof.
  intros W Et Sy. unfold rerender.
  destruct (mounted s) eqn:Hm; simpl.
  - destruct (String.eqb (title old) (title s)) eqn:E1;
      [destruct (String.eqb (content old) (content s)) eqn:E2|]; simpl;
      try (apply WF_autoSaveEffect; assumption).
    apply String.eqb_eq in E1, E2. split; [assumption|].
    intros t Hin. rewrite Et, <- E1, <- E2 in *. apply Sy. exact Hin.
  - split; [assumption|].
    intros t Hin. rewrite (timer_wf_unmounted _ (wf_timer _ W) Hm) in Hin.
    destruct Hin.
Qed.

Lemma WF_resume_save k out s :
  is_save k = true ->
  saves (inflight s) = [] -> timers s = [] -> pending_wf s ->
  WF (resume k out s) /\ timers (resume k out s) = []
  /\ saving (resume k out s) = false.
Proof.
  intros Hk Hnil Htm Hp.
  assert (Hnav : forall path, timers (navigate path s) = []).
  { intros path. unfold navigate, autoSaveCleanup. simpl.
    destruct (mounted s); [|exact Htm].
    destruct (effectCleanup s); [destruct (autoSaveTimerRef s)|];
      simpl; rewrite Htm; reflexivity. }
  assert (Hnav' : forall path, inflight (navigate path s) = inflight s).
  { intros path. unfold navigate, autoSaveCleanup. simpl.
    destruct (mounted s); [|reflexivity].
    destruct (effectCleanup s); [destruct (autoSaveTimerRef s)|]; reflexivity. }
  unfold pending_wf in *.
  destruct k; try discriminate; destruct out as [response|message]; simpl;
    try destruct (Js.if_truthy _);
    (split; [split|split; [|reflexivity]]);
    unfold saves_wf, status_wf, timer_wf, pending_wf; simpl;
    rewrite ?Hnav, ?Hnav', ?Hnil, ?Htm; auto.
Qed.

Lemma WF_resume_other k out s :
  is_save k = false -> WF s -> synced s ->
  WF (resume k out s) /\ synced (resume k out s).
Proof.
  intros Hk W Sy.
  destruct k; try discriminate; destruct out as [response|message]; simpl.
  - apply rerender_inv; [| |assumption].
    + destruct W as [Hs Hst Ht Hp].
      destruct (data response); split; assumption.
    + destruct (data response); reflexivity.
  - destruct W as [Hs Hst Ht Hp]. split; [split; assumption|exact Sy].
  - destruct (WF_navigate "/dashboard" s W) as ([Hs Hst Ht Hp] & _ & Htm).
    split; [split; assumption|].
    intros t Hin. simpl in Hin. rewrite Htm in Hin. destruct Hin.
  - destruct W as [Hs Hst Ht Hp]. split; [split; assumption|exact Sy].
Qed.

Lemma WF_settle rid out s :
  WF s -> synced s -> WF (settle rid out s) /\ synced (settle rid out s).
Proof.
  intros W Sy. unfold settle.
  destruct (take_pending rid (inflight s)) as [[p rest]|] eqn:E; [|auto].
  pose proof (take_pending_saves _ _ _ _ E) as Hsv.
  destruct (take_pending_forallb _ _ _ _ _ E (wf_pending _ W)) as [_ Hp].
  destruct (is_save (p_awaiting p)) eqn:Hk.
  - assert (Hr : saves rest = [] /\ saving s = true).
    { destruct (wf_saves _ W) as [[H _]|[q [H Hq]]]; rewrite H in Hsv;
        simpl in Hsv; [discriminate|].
      split; [|assumption]. destruct (saves rest); [reflexivity|discriminate]. }
    destruct Hr as [Hr Hsav].
    pose proof (timer_wf_saving _ (wf_timer _ W) Hsav) as Htm.
    destruct (WF_resume_save (p_awaiting p) out
                (log (ApiSettled rid (p_request p) out) (set_inflight rest s))
                Hk Hr Htm Hp) as (W' & Htm' & _).
    split; [exact W'|]. intros t Hin. rewrite Htm' in Hin. destruct Hin.
  - apply WF_resume_other; [assumption| |exact Sy].
    destruct W as [Hs Hst Ht _]. split; try assumption.
    unfold saves_wf. simpl. rewrite Hsv. exact Hs.
Qed.

Lemma WF_handleDelete answer s :
  WF s -> synced s ->
  WF (handleDelete answer s) /\ synced (handleDelete answer s).
Proof.
  intros W Sy. unfold handleDelete.
  destruct (negb (isEditing s)); [auto|].
  destruct (Js.if_truthy (routeId s)); [|auto].
  destruct W as [Hs Hst Ht Hp].
  destruct answer; (split; [split; assumption|exact Sy]).
Qed.

Lemma synced_handleSave s :
  WF s -> synced s -> synced (handleSave s).
Proof.
  intros W Sy. unfold handleSave.
  destruct (negb (Js.truthy (Js.trim (content s)))); [exact Sy|].
  destruct (timer_wf_clear _ (wf_timer _ W)) as [Hc _].
  unfold autoSaveCleanup in Hc.
  assert (Hn : timers s = [] \/ exists h, autoSaveTimerRef s = Some h).
  { destruct (wf_timer _ W) as [H|(h & d & cb & _ & H & _)]; eauto. }
  intros t.
  destruct (autoSaveTimerRef s) as [h|]; simpl in *;
    destruct (Js.if_truthy _); simpl; rewrite ?Hc; try (intros []).
  all: destruct Hn as [Hn|[h Hn]]; [rewrite Hn; intros []|discriminate].
Qed.

Lemma synced_elapse ms s :
  WF s -> synced s -> synced (elapse ms s).
Proof.
  intros W Sy.
  destruct (elapse_cases ms s (wf_timer _ W))
    as [[_ E]|[(t & _ & _ & E)|(t & Ht & Hd & E)]]; rewrite E.
  - exact Sy.
  - exact Sy.
  - assert (Hin : In t (timers s)) by (rewrite Ht; left; reflexivity).
    destruct (WF_fire t s W Hin) as [_ Htm].
    intros u Hu. simpl in Hu. rewrite Htm in Hu. destruct Hu.
Qed.

Lemma Inv_step s e : Inv s -> Inv (step s e).
Proof.
  intros [W Sy]. destruct e as [v|v| | |answer|ms|rid out]; simpl.
  - destruct (inputs_rendered s); [|split; assumption].
    apply rerender_inv; [|reflexivity|exact Sy].
    destruct W; split; assumption.
  - destruct (inputs_rendered s); [|split; assumption].
    apply rerender_inv; [|reflexivity|exact Sy].
    destruct W; split; assumption.
  - destruct (save_enabled s) eqn:E; [|split; assumption].
    unfold save_enabled in E.
    split; [apply WF_handleSave; [assumption|]|apply synced_handleSave; assumption].
    destruct (saving s); [|reflexivity].
    rewrite andb_false_r in E. discriminate.
  - destruct (mounted s); [|split; assumption].
    destruct (WF_navigate "/dashboard" s W) as (W' & _ & Htm).
    split; [exact W'|]. intros t Hin. rewrite Htm in Hin. destruct Hin.
  - destruct (delete_rendered s); [|split; assumption].
    apply WF_handleDelete; assumption.
  - split; [apply WF_elapse; assumption|apply synced_elapse; assumption].
  - apply WF_settle; assumption.
Qed.

Lemma Inv_mount id : Inv (mount id).
Proof.
  unfold Inv, mount, isEditing. simpl.
  destruct (Js.truthy_opt id); [destruct (Js.if_truthy id)|]; simpl;
    (split; [split|intros t []]); try (left; split; reflexivity);
    try reflexivity; left; reflexivity.
Qed.

Lemma Inv_run s evs : Inv s -> Inv (run s evs).
Proof.
  revert s. induction evs as [|e evs IH]; intros s H; simpl.
  - exact H.
  - apply IH, Inv_step, H.
Qed.

(** ** Reachable states *)

Lemma Inv_reachable id evs : Inv (run (mount id) evs).
Proof. apply Inv_run, Inv_mount. Qed.

Lemma elapse_while_saving ms s :
  WF s -> saving s = true ->
  elapse ms s = set_now (now s + Z.max 0 ms) s.
Proof.
  intros W Hsav.
  pose proof (timer_wf_saving _ (wf_timer _ W) Hsav) as Htm.
  destruct (elapse_cases ms s (wf_timer _ W))
    as [[_ E]|[(t & Ht & _)|(t & Ht & _)]]; [exact E| |]; congruence.
Qed.

Lemma handleAutoSave_guard r s :
  r_saving r = true \/ r_autoSaveStatus r = Saving ->
  handleAutoSave r s = s.
Proof.
  intros H. unfold handleAutoSave.
  destruct (negb _); [reflexivity|].
  destruct H as [-> | ->]; [reflexivity|].
  rewrite orb_true_r. reflexivity.
Qed.

(** *** At most one save in flight *)

(** C3: in every reachable state at most one create/edit call is awaiting
    its answer; while one is, the guard [saving] is set, a [handleAutoSave]
    that sees it does nothing, no timer can fire into it (time passing
    starts no call and queues nothing), and the Save control is disabled, so
    a click on it changes nothing. *)
Theorem at_most_one_save_in_flight (id : option string) (evs : list Event) :
  let s := run (mount id) evs in
  (List.length (saves (inflight s)) <= 1)%nat
  /\ (saves (inflight s) <> [] ->
      saving s = true
      /\ handleAutoSave (render s) s = s
      /\ (forall ms, inflight (step s (Elapse ms)) = inflight s
                     /\ trace (step s (Elapse ms)) = trace s
                     /\ timers (step s (Elapse ms)) = [])
      /\ save_enabled s = false
      /\ step s ClickSave = s).
Proof.
  intros s. destruct (Inv_reachable id evs) as [W _]. fold s in W.
  split.
  - destruct (wf_saves _ W) as [[H _]|[p [H _]]]; rewrite H; simpl; lia.
  - intros Hne.
    assert (Hsav : saving s = true).
    { destruct (wf_saves _ W) as [[H _]|[p [_ H]]]; [congruence|exact H]. }
    split; [exact Hsav|].
    split; [apply handleAutoSave_guard; left; exact Hsav|].
    split.
    { intros ms. change (step s (Elapse ms)) with (elapse ms s).
      rewrite (elapse_while_saving ms s W Hsav). simpl.
      repeat split. exact (timer_wf_saving _ (wf_timer _ W) Hsav). }
    assert (E : save_enabled s = false).
    { unfold save_enabled. rewrite Hsav. simpl. apply andb_false_r. }
    split; [exact E|]. simpl. rewrite E. reflexivity.
Qed.

Lemma at_most_one_save_in_flight_witness :
  let s := run (mount None) [TypeContent "Hello"; Elapse 3000] in
  saves (inflight s) <> [] /\ step s ClickSave = s.
Proof.
  split.
  - vm_compute. discriminate.
  - apply (at_most_one_save_in_flight None [TypeContent "Hello"; Elapse 3000]).
    vm_compute. discriminate.
Defined.

(** *** Release of the guard *)

Lemma handleSave_starts s :
  saves (inflight s) = [] -> Js.truthy (Js.trim (content s)) = true ->
  List.length (saves (inflight (handleSave s))) = 1%nat.
Proof.
  intros Hnil Hc. unfold handleSave. rewrite Hc. simpl.
  destruct (autoSaveTimerRef s); simpl; destruct (Js.if_truthy _); simpl;
    rewrite Hnil; reflexivity.
Qed.

Lemma handleAutoSave_starts s :
  saves (inflight s) = [] -> saving s = false -> autoSaveStatus s <> Saving ->
  Js.truthy (Js.trim (content s)) = true ->
  List.length (saves (inflight (handleAutoSave (render s) s))) = 1%nat.
Proof.
  intros Hnil Hsav Hst Hc. unfold handleAutoSave. simpl. rewrite Hc, Hsav.
  apply SaveStatus_eqb_neq in Hst. rewrite Hst. simpl.
  destruct (Js.if_truthy _); simpl; rewrite Hnil; reflexivity.
Qed.

(** C7: when a create/edit call settles, fulfilled or rejected, the state
    after it has [saving = false] and no save in flight, and neither trigger
    is locked out: with non-empty content the Save control of the mounted
    editor is enabled and starts a call, and so does a [handleAutoSave]
    created by that render. *)
Theorem guard_released_after_every_save
  (id : option string) (evs : list Event) (rid : nat) (out : Outcome)
  (p : Pending) (rest : list Pending) :
  let s := run (mount id) evs in
  let s' := step s (Settle rid out) in
  take_pending rid (inflight s) = Some (p, rest) ->
  is_save (p_awaiting p) = true ->
  saving s' = false
  /\ saves (inflight s') = []
  /\ (Js.truthy (Js.trim (content s')) = true ->
      (mounted s' = true -> save_enabled s' = true)
      /\ List.length (saves (inflight (handleSave s'))) = 1%nat
      /\ List.length (saves (inflight (handleAutoSave (render s') s'))) = 1%nat).
Proof.
  intros s s' E Hk.
  destruct (Inv_reachable id (evs ++ [Settle rid out])) as [W' _].
  unfold run in W'. rewrite fold_left_app in W'. simpl in W'.
  fold (run (mount id) evs) in W'. fold s in W'. fold s' in W'.
  destruct (Inv_reachable id evs) as [W _]. fold s in W.
  assert (Hsav : saving s' = false).
  { subst s'. simpl. unfold settle. rewrite E.
    pose proof (take_pending_saves _ _ _ _ E) as Hsv. rewrite Hk in Hsv.
    destruct (take_pending_forallb _ _ _ _ _ E (wf_pending _ W)) as [_ Hp].
    assert (Hr : saves rest = [] /\ saving s = true).
    { destruct (wf_saves _ W) as [[H _]|[q [H Hq]]]; rewrite H in Hsv;
        simpl in Hsv; [discriminate|].
      split; [|assumption]. destruct (saves rest); [reflexivity|discriminate]. }
    destruct Hr as [Hr Hs].
    apply WF_resume_save; try assumption.
    exact (timer_wf_saving _ (wf_timer _ W) Hs). }
  pose proof (saves_wf_idle _ (wf_saves _ W') Hsav) as Hnil.
  split; [exact Hsav|]. split; [exact Hnil|].
  intros Hc. split; [|split].
  - intros Hm. unfold save_enabled. rewrite Hm, Hsav, Hc. reflexivity.
  - apply handleSave_starts; assumption.
  - apply handleAutoSave_starts; try assumption.
    apply SaveStatus_eqb_neq. exact (eq_trans (wf_status _ W') Hsav).
Qed.

Lemma guard_released_after_every_save_witness :
  let s := run (mount None) [TypeContent "Hello"; Elapse 3000] in
  saving (step s (Settle 0%nat (Rejected "offline"))) = false.
Proof.
  eapply (guard_released_after_every_save None
            [TypeContent "Hello"; Elapse 3000] 0%nat (Rejected "offline")).
  - vm_compute. reflexivity.
  - vm_compute. reflexivity.
Defined.

(** *** Manual save: what follows the answer *)

(** C6: when the call of a manual save is fulfilled, the handler navigates
    to the dashboard and the editor is left.  When it is rejected, the
    message of the error is shown in [error], as it is (the text "Failed to
    save note" stands in only for an error without a message), nothing
    navigates, the editor stays as open as it was, and the guard is
    released, so the save can be tried again. *)
Theorem manual_save_navigates_only_on_success
  (s : Editor) (rid : nat) (p : Pending) (rest : list Pending) :
  take_pending rid (inflight s) = Some (p, rest) ->
  p_awaiting p = InHandleSave ->
  (forall response,
      let s' := step s (Settle rid (Fulfilled response)) in
      trace s' = Navigate "/dashboard"
                 :: ApiSettled rid (p_request p) (Fulfilled response) :: trace s
      /\ mounted s' = false)
  /\ (forall message,
      let s' := step s (Settle rid (Rejected message)) in
      (message <> "" -> error s' = Some message)
      /\ (message = "" -> error s' = Some "Failed to save note")
      /\ trace s' = ConsoleError "Error saving note:"
                    :: ApiSettled rid (p_request p) (Rejected message) :: trace s
      /\ mounted s' = mounted s
      /\ saving s' = false
      /\ title s' = title s /\ content s' = content s).
Proof.
  intros E Hk. split.
  - intros response. simpl. unfold settle. rewrite E, Hk. simpl.
    unfold navigate, autoSaveCleanup. simpl.
    destruct (mounted s) eqn:Hm;
      [destruct (effectCleanup s); [destruct (autoSaveTimerRef s)|]|];
      simpl; auto.
  - intros message. simpl. unfold settle. rewrite E, Hk. simpl.
    split; [|split; [intros ->; reflexivity|auto 6]].
    destruct message as [|c m]; [congruence|reflexivity].
Qed.

Lemma manual_save_navigates_only_on_success_witness :
  let s := run (mount None) [TypeContent "Hello"; ClickSave] in
  let failed := step s (Settle 0%nat (Rejected "HTTP 500")) in
  mounted (step s (Settle 0%nat (Fulfilled {| data := None |}))) = false
  /\ error failed = Some "HTTP 500"
  /\ mounted failed = true
  /\ saving failed = false.
Proof.
  destruct (manual_save_navigates_only_on_success
              (run (mount None) [TypeContent "Hello"; ClickSave]) 0%nat
              {| p_rid := 0;
                 p_request := CreateNote {| create_title := None;
                                            create_content := "Hello" |};
                 p_awaiting := InHandleSave |} [] eq_refl eq_refl) as [Hok Hko].
  split; [apply Hok|].
  destruct (Hko "HTTP 500") as (He & _ & _ & Hm & Hs & _).
  split; [apply He; discriminate|]. split; [exact Hm|exact Hs].
Defined.

(** *** The status shown while and after a save *)

(** A save in flight shows [Saving]; a debounced save ends in [Saved] or
    [Unsaved] according to its outcome. *)
Lemma status_of_debounced_save (id : option string) (evs : list Event) :
  let s := run (mount id) evs in
  (saves (inflight s) <> [] -> autoSaveStatus s = Saving)
  /\ forall rid p rest,
       take_pending rid (inflight s) = Some (p, rest) ->
       p_awaiting p = InAutoSaveEdit \/ p_awaiting p = InAutoSaveCreate ->
       (forall response,
           autoSaveStatus (step s (Settle rid (Fulfilled response))) = Saved)
       /\ (forall message,
           autoSaveStatus (step s (Settle rid (Rejected message))) = Unsaved).
Proof.
  intros s. destruct (Inv_reachable id evs) as [W _]. fold s in W. split.
  - intros Hne. apply SaveStatus_eqb_eq. rewrite (wf_status _ W).
    destruct (wf_saves _ W) as [[H _]|[p [_ H]]]; [congruence|exact H].
  - intros rid p rest E Hk. split; intros x; simpl; unfold settle; rewrite E;
      destruct Hk as [-> | ->]; reflexivity.
Qed.

(** C1, where the code departs from it: a manual save whose call is rejected
    leaves the status at [Saved], next to the error it shows. *)
Example manual_save_failure_shows_saved :
  let during := run (mount None) [TypeContent "Hello"; ClickSave] in
  let after := step during (Settle 0%nat (Rejected "Network error")) in
  autoSaveStatus during = Saving
  /\ persistence_calls (trace during)
     = [ApiCall 0 0 (CreateNote {| create_title := None;
                                   create_content := "Hello" |})]
  /\ autoSaveStatus after = Saved
  /\ error after = Some "Network error"
  /\ mounted after = true.
Proof. vm_compute. repeat split. Qed.

(** Every manual save ends in [Saved], whatever the outcome. *)
Lemma status_of_manual_save (s : Editor) (rid : nat) (out : Outcome)
      (p : Pending) (rest : list Pending) :
  take_pending rid (inflight s) = Some (p, rest) ->
  p_awaiting p = InHandleSave ->
  autoSaveStatus (step s (Settle rid out)) = Saved.
Proof.
  intros E Hk. simpl. unfold settle. rewrite E, Hk.
  destruct out; reflexivity.
Qed.

(** ** The debounce effect *)

(** What the effect leaves alone. *)
Lemma autoSaveEffect_frame s :
  let s' := autoSaveEffect s in
  trace s' = trace s /\ inflight s' = inflight s
  /\ createdNoteIdRef s' = createdNoteIdRef s /\ routeId s' = routeId s
  /\ mounted s' = mounted s /\ loading s' = loading s
  /\ saving s' = saving s /\ title s' = title s /\ content s' = content s
  /\ now s' = now s /\ nextRequest s' = nextRequest s
  /\ note s' = note s /\ error s' = error s.
Proof.
  unfold autoSaveEffect, autoSaveCleanup.
  destruct (effectCleanup s); destruct (autoSaveTimerRef s) eqn:Er; simpl;
    rewrite ?Er;
    destruct (negb (Js.truthy (title s)) && negb (Js.truthy (content s)));
    simpl; destruct (saving s) eqn:Es; simpl; rewrite ?Er, ?Es; simpl;
    repeat split.
Qed.

(** The timer table and the status after the effect. *)
Lemma autoSaveEffect_timers s :
  timer_wf s ->
  let s' := autoSaveEffect s in
  if draft_empty s || saving s
  then timers s' = [] /\ autoSaveStatus s' = autoSaveStatus s
  else timers s' = [{| t_handle := nextTimer s;
                       t_deadline := now s + AUTO_SAVE_DELAY;
                       t_callback := render s |}]
       /\ autoSaveStatus s' = Unsaved.
Proof.
  intros Ht. destruct (timer_wf_clear _ Ht) as [Hc Hn].
  unfold autoSaveEffect, autoSaveCleanup, draft_empty in *.
  destruct (effectCleanup s).
  - destruct (autoSaveTimerRef s) eqn:Er; simpl in *; rewrite ?Er;
      destruct (negb (Js.truthy (title s)) && negb (Js.truthy (content s)));
      simpl; auto; destruct (saving s) eqn:Es; simpl; rewrite ?Er, ?Es; simpl;
      rewrite ?Hc; auto.
  - specialize (Hn eq_refl). cbn.
    destruct (negb (Js.truthy (title s)) && negb (Js.truthy (content s)));
      cbn; auto; destruct (saving s) eqn:Es; cbn; auto.
    destruct (autoSaveTimerRef s); cbn; rewrite Hn; auto.
Qed.

Lemma draft_empty_iff s :
  draft_empty s = true <-> title s = "" /\ content s = "".
Proof.
  unfold draft_empty. destruct (title s), (content s); simpl;
    split; try discriminate; auto; intros [? ?]; discriminate.
Qed.

Lemma empty_draft_no_timer s :
  Inv s -> draft_empty s = true -> timers s = [].
Proof.
  intros [_ Sy] He. destruct (timers s) as [|t ts] eqn:E; [reflexivity|].
  destruct (Sy t) as (_ & _ & H); [rewrite E; left; reflexivity|].
  unfold draft_empty in He.
  destruct (Js.truthy (title s)), (Js.truthy (content s)); discriminate.
Qed.

Lemma trim_empty : Js.trim "" = "".
Proof. reflexivity. Qed.

Lemma rerender_empty old s :
  timer_wf s ->
  title (rerender old s) = "" -> content (rerender old s) = "" ->
  autoSaveStatus (rerender old s) = autoSaveStatus s
  /\ trace (rerender old s) = trace s.
Proof.
  intros W. unfold rerender. destruct (mounted s && negb _); [|auto].
  intros Ht Hc.
  destruct (autoSaveEffect_frame s) as (Ftr & _ & _ & _ & _ & _ & _ & Ft & Fc & _).
  pose proof (autoSaveEffect_timers s W) as T.
  assert (D : draft_empty s = true).
  { apply draft_empty_iff. split; congruence. }
  rewrite D in T. destruct T as [_ T]. auto.
Qed.

(** *** The fully empty draft *)

(** C8: when a title or content change leaves the draft fully empty, no
    timer is pending afterwards and the status and the log are as before the
    change; and nothing can start a save from that state: time passing fires
    nothing, the debounced handler returns at once, the Save control is
    disabled and [handleSave] only reports the missing content. *)
Theorem empty_draft_arms_nothing
  (id : option string) (evs : list Event) (e : Event) :
  let s0 := run (mount id) evs in
  let s := step s0 e in
  (exists v, e = TypeTitle v \/ e = TypeContent v) ->
  title s = "" -> content s = "" ->
  timers s = []
  /\ autoSaveStatus s = autoSaveStatus s0
  /\ trace s = trace s0
  /\ (forall ms, trace (step s (Elapse ms)) = trace s
                 /\ inflight (step s (Elapse ms)) = inflight s)
  /\ handleAutoSave (render s) s = s
  /\ step s ClickSave = s
  /\ handleSave s = setError (Some "Note content is required") s.
Proof.
  intros s0 s He Ht Hc.
  assert (I0 : Inv s0) by apply Inv_reachable.
  assert (I : Inv s) by (apply Inv_step; exact I0).
  assert (Hde : draft_empty s = true) by (apply draft_empty_iff; auto).
  pose proof (empty_draft_no_timer s I Hde) as Htm.
  split; [exact Htm|].
  assert (Hfr : autoSaveStatus s = autoSaveStatus s0 /\ trace s = trace s0).
  { destruct He as [v [-> | ->]]; subst s.
    - change (step s0 (TypeTitle v))
        with (if inputs_rendered s0 then rerender s0 (setTitle v s0) else s0)
        in *.
      destruct (inputs_rendered s0); [|auto].
      apply (rerender_empty s0 (setTitle v s0)); try assumption.
      exact (wf_timer _ (proj1 I0)).
    - change (step s0 (TypeContent v))
        with (if inputs_rendered s0 then rerender s0 (setContent v s0) else s0)
        in *.
      destruct (inputs_rendered s0); [|auto].
      apply (rerender_empty s0 (setContent v s0)); try assumption.
      exact (wf_timer _ (proj1 I0)). }
  destruct Hfr as [Hst Htr].
  split; [exact Hst|]. split; [exact Htr|].
  split.
  { intros ms. change (step s (Elapse ms)) with (elapse ms s).
    destruct (elapse_cases ms s (wf_timer _ (proj1 I)))
      as [[_ E]|[(t & Ht' & _)|(t & Ht' & _)]];
      [rewrite E; auto| |]; rewrite Htm in Ht'; discriminate. }
  split.
  { unfold handleAutoSave. simpl. rewrite Hc. reflexivity. }
  split.
  { simpl. unfold save_enabled. rewrite Hc. simpl.
    rewrite orb_true_r, andb_false_r. reflexivity. }
  unfold handleSave. rewrite Hc. reflexivity.
Qed.

Lemma empty_draft_arms_nothing_witness :
  let s0 := run (mount None) [TypeTitle "T"; Elapse 3000; TypeContent "x";
                              Elapse 3000;
                              Settle 0%nat (Fulfilled {| data := None |});
                              TypeTitle ""] in
  let s := step s0 (TypeContent "") in
  timers s = [] /\ autoSaveStatus s = autoSaveStatus s0
  /\ autoSaveStatus s0 = Unsaved.
Proof.
  assert (H := empty_draft_arms_nothing None
                 [TypeTitle "T"; Elapse 3000; TypeContent "x"; Elapse 3000;
                  Settle 0%nat (Fulfilled {| data := None |}); TypeTitle ""]
                 (TypeContent "")
                 (ex_intro _ "" (or_intror eq_refl)) eq_refl eq_refl).
  split; [apply H|]. split; [apply H|]. vm_compute. reflexivity.
Defined.

(** ** What one step does to the log *)

Lemma routeId_autoSaveEffect s : routeId (autoSaveEffect s) = routeId s.
Proof. apply (autoSaveEffect_frame s). Qed.

Lemma rerender_frame old s :
  let s' := rerender old s in
  trace s' = trace s /\ inflight s' = inflight s
  /\ createdNoteIdRef s' = createdNoteIdRef s /\ routeId s' = routeId s
  /\ mounted s' = mounted s.
Proof.
  unfold rerender. destruct (mounted s && negb _); [|auto 6].
  destruct (autoSaveEffect_frame s) as (? & ? & ? & ? & ? & _). auto 6.
Qed.

Lemma navigate_frame path s :
  let s' := navigate path s in
  trace s' = Navigate path :: trace s /\ inflight s' = inflight s
  /\ createdNoteIdRef s' = createdNoteIdRef s /\ routeId s' = routeId s
  /\ mounted s' = false.
Proof.
  unfold navigate, autoSaveCleanup. simpl.
  destruct (mounted s) eqn:Hm;
    [destruct (effectCleanup s); [destruct (autoSaveTimerRef s)|]|];
    simpl; auto 6.
Qed.

Lemma Delta_handleAutoSave e t s0 s :
  trace s = trace s0 -> inflight s = inflight s0 ->
  createdNoteIdRef s = createdNoteIdRef s0 ->
  r_id (t_callback t) = routeId s0 ->
  mounted s = mounted s0 -> nextRequest s = nextRequest s0 ->
  title s = title s0 -> content s = content s0 ->
  saves (inflight s0) = [] -> mounted s0 = true ->
  r_title (t_callback t) = title s0 -> r_content (t_callback t) = content s0 ->
  Delta s0 e (handleAutoSave (t_callback t) s).
Proof.
  intros Etr Ein Eref Erid Emt Enr Eti Eco Hnil Hm Hti Hco.
  unfold handleAutoSave. rewrite Hti, Hco.
  destruct (Js.truthy (Js.trim (content s0))) eqn:Hc; simpl;
    [|apply D_quiet; assumption].
  destruct (_ || _); [apply D_quiet; assumption|].
  rewrite Eref, Erid.
  destruct (Js.if_truthy (Js.or (createdNoteIdRef s0) (routeId s0))) eqn:Ek.
  - apply (D_save s0 e _ InAutoSaveEdit (now s)); try assumption;
      try reflexivity; unfold save_request; rewrite ?Ek; simpl;
      try reflexivity; congruence.
  - apply (D_save s0 e _ InAutoSaveCreate (now s)); try assumption;
      try reflexivity; unfold save_request; rewrite ?Ek; simpl;
      try reflexivity; congruence.
Qed.

Lemma Delta_handleSave e s :
  Inv s -> save_enabled s = true -> Delta s e (handleSave s).
Proof.
  intros [W _] He. unfold save_enabled in He.
  apply andb_prop in He. destruct He as [Hm He].
  apply negb_true_iff, orb_false_iff in He. destruct He as [Hsav Hc].
  apply negb_false_iff in Hc.
  pose proof (saves_wf_idle _ (wf_saves _ W) Hsav) as Hnil.
  unfold handleSave. rewrite Hc. simpl.
  apply (D_save s e _ InHandleSave (now s)); try assumption; try reflexivity;
    unfold save_request;
    destruct (autoSaveTimerRef s); simpl;
    destruct (Js.if_truthy (Js.or (createdNoteIdRef s) (routeId s)));
    simpl; auto.
Qed.

Lemma Delta_resume k out s0 s rid p rest :
  take_pending rid (inflight s0) = Some (p, rest) ->
  p_awaiting p = k ->
  s = log (ApiSettled rid (p_request p) out) (set_inflight rest s0) ->
  Delta s0 (Settle rid out) (resume k out s).
Proof.
  intros E Hk ->.
  destruct k, out as [response|message]; simpl.
  - match goal with
    | |- Delta _ _ (rerender ?o ?x) =>
        destruct (rerender_frame o x) as (Ftr & Fin & Fref & _ & Fm)
    end.
    apply (D_settle s0 _ _ rid (Fulfilled response) p rest []); try assumption;
      try reflexivity; rewrite ?Hk; simpl.
    + rewrite Ftr. destruct (data response); reflexivity.
    + rewrite Fin. destruct (data response); reflexivity.
    + rewrite Fref. destruct (data response); reflexivity.
    + rewrite Fm. destruct (data response); reflexivity.
  - apply (D_settle s0 _ _ rid (Rejected message) p rest
             [ConsoleError "Error fetching note:"]); try assumption;
      try reflexivity; rewrite ?Hk; reflexivity.
  - apply (D_settle s0 _ _ rid (Fulfilled response) p rest []); try assumption;
      try reflexivity; rewrite ?Hk; reflexivity.
  - apply (D_settle s0 _ _ rid (Rejected message) p rest
             [ConsoleError "Auto-save failed:"]); try assumption;
      try reflexivity; rewrite ?Hk; reflexivity.
  - unfold returned_id.
    destruct (Js.if_truthy (option_map note_id (data response))) as [newId|] eqn:Er.
    + apply (D_settle s0 _ _ rid (Fulfilled response) p rest
               [HistoryReplaceState ("/dashboard/edit-note/" ++ newId)]);
        try assumption; try reflexivity; rewrite ?Hk; simpl;
        unfold returned_id; rewrite ?Er; reflexivity.
    + apply (D_settle s0 _ _ rid (Fulfilled response) p rest []);
        try assumption; try reflexivity; rewrite ?Hk; simpl;
        unfold returned_id; rewrite ?Er; reflexivity.
  - apply (D_settle s0 _ _ rid (Rejected message) p rest
             [ConsoleError "Auto-save failed:"]); try assumption;
      try reflexivity; rewrite ?Hk; reflexivity.
  - destruct (navigate_frame "/dashboard"
                (log (ApiSettled rid (p_request p) (Fulfilled response))
                   (set_inflight rest s0))) as (Ftr & Fin & Fref & _ & Fm).
    apply (D_settle s0 _ _ rid (Fulfilled response) p rest
             [Navigate "/dashboard"]); try assumption;
      try reflexivity; rewrite ?Hk; simpl; assumption.
  - apply (D_settle s0 _ _ rid (Rejected message) p rest
             [ConsoleError "Error saving note:"]); try assumption;
      try reflexivity; rewrite ?Hk; reflexivity.
  - destruct (navigate_frame "/dashboard"
                (log (ApiSettled rid (p_request p) (Fulfilled response))
                   (set_inflight rest s0))) as (Ftr & Fin & Fref & _ & Fm).
    apply (D_settle s0 _ _ rid (Fulfilled response) p rest
             [Navigate "/dashboard"]); try assumption;
      try reflexivity; rewrite ?Hk; simpl; assumption.
  - apply (D_settle s0 _ _ rid (Rejected message) p rest
             [ConsoleError "Error deleting note:"]); try assumption;
      try reflexivity; rewrite ?Hk; reflexivity.
Qed.

(** Replacing the route id by itself changes nothing. *)
Lemma set_routeId_same s : set_routeId (routeId s) s = s.
Proof. destruct s; reflexivity. Qed.

(** One step, seen from the route id [seen] of the closure that ran: the
    current one, except for a timer callback, which keeps the route id of
    the render that created it. *)
Lemma Delta_seen s e :
  Inv s ->
  exists seen,
    (route_synced s -> seen = routeId s)
    /\ Delta (set_routeId seen s) e (step s e).
Proof.
  intros I. pose proof I as [W Sy].
  assert (Now : Delta s e (step s e) ->
                exists seen, (route_synced s -> seen = routeId s)
                             /\ Delta (set_routeId seen s) e (step s e)).
  { intros D. exists (routeId s). split; [auto|].
    rewrite set_routeId_same. exact D. }
  destruct e as [v|v| | |answer|ms|rid out]; cbn [step].
  - apply Now. cbn [step].
    destruct (inputs_rendered s); [|apply D_quiet; reflexivity].
    destruct (rerender_frame s (setTitle v s)) as (? & ? & ? & _ & ?).
    apply D_quiet; assumption.
  - apply Now. cbn [step].
    destruct (inputs_rendered s); [|apply D_quiet; reflexivity].
    destruct (rerender_frame s (setContent v s)) as (? & ? & ? & _ & ?).
    apply D_quiet; assumption.
  - apply Now. cbn [step].
    destruct (save_enabled s) eqn:He; [|apply D_quiet; reflexivity].
    apply Delta_handleSave; assumption.
  - apply Now. cbn [step].
    destruct (mounted s) eqn:Hm; [|apply D_quiet; auto].
    destruct (navigate_frame "/dashboard" s) as (? & ? & ? & _ & ?).
    apply D_cancel; assumption.
  - apply Now. cbn [step].
    destruct (delete_rendered s) eqn:Hd; [|apply D_quiet; reflexivity].
    unfold handleDelete.
    destruct (negb (isEditing s)); [apply D_quiet; reflexivity|].
    destruct (Js.if_truthy (routeId s)) as [noteId|] eqn:Er;
      [|apply D_quiet; reflexivity].
    destruct answer.
    + apply (D_delete s _ _ noteId); try assumption; reflexivity.
    + apply D_declined; reflexivity.
  - destruct (elapse_cases ms s (wf_timer _ W))
      as [[_ E]|[(t & _ & _ & E)|(t & Ht & _ & E)]]; rewrite E;
      try (exists (routeId s); split; [auto|]; rewrite set_routeId_same;
           apply D_quiet; reflexivity).
    destruct (wf_timer _ W)
      as [Hnil|(h & d & cb & Ht' & _ & _ & Hm & Hsav & _)];
      [rewrite Hnil in Ht; discriminate|].
    destruct (Sy t) as (Sti & Sco & _); [rewrite Ht; left; reflexivity|].
    pose proof (saves_wf_idle _ (wf_saves _ W) Hsav) as Hnil.
    exists (r_id (t_callback t)). split.
    { intros Hr. apply Hr. rewrite Ht. left. reflexivity. }
    assert (D : Delta (set_routeId (r_id (t_callback t)) s) (Elapse ms)
                  (fire t s)).
    { unfold fire. apply Delta_handleAutoSave; try assumption; reflexivity. }
    destruct D;
      [ apply D_quiet | apply D_cancel | eapply D_save | apply D_declined
      | eapply D_delete | eapply D_settle ]; eassumption.
  - apply Now. cbn [step]. unfold settle.
    destruct (take_pending rid (inflight s)) as [[p rest]|] eqn:E;
      [|apply D_quiet; reflexivity].
    eapply Delta_resume; [exact E|reflexivity|reflexivity].
Qed.

(** The fields of a state in which only the route id was replaced. *)
Ltac unseen H :=
  cbn [set_routeId trace inflight createdNoteIdRef mounted nextRequest now
       content title loading note] in H.

(** One step of a session whose route does not change. *)
Lemma Delta_step s e : Inv s /\ route_synced s -> Delta s e (step s e).
Proof.
  intros [I R]. destruct (Delta_seen s e I) as (seen & Hs & D).
  rewrite (Hs R), set_routeId_same in D. exact D.
Qed.

Lemma routeId_step s e : routeId (step s e) = routeId s.
Proof.
  destruct e as [v|v| | |answer|ms|rid out]; cbn [step].
  - destruct (inputs_rendered s); [|reflexivity].
    apply (rerender_frame s (setTitle v s)).
  - destruct (inputs_rendered s); [|reflexivity].
    apply (rerender_frame s (setContent v s)).
  - destruct (save_enabled s); [|reflexivity]. unfold handleSave.
    destruct (negb _); [reflexivity|].
    destruct (autoSaveTimerRef s); simpl; destruct (Js.if_truthy _); reflexivity.
  - destruct (mounted s); [|reflexivity]. apply navigate_frame.
  - destruct (delete_rendered s); [|reflexivity]. unfold handleDelete.
    destruct (negb _); [reflexivity|].
    destruct (Js.if_truthy _); [|reflexivity]. destruct answer; reflexivity.
  - unfold elapse. simpl.
    generalize (List.length (timers s)) (now s + Z.max 0 ms).
    intros n limit. revert s. induction n as [|n IH]; intros s; simpl.
    + reflexivity.
    + destruct (next_due limit (timers s)) as [t|]; [|reflexivity].
      rewrite IH. unfold fire, handleAutoSave.
      destruct (negb _); [reflexivity|].
      destruct (_ || _); [reflexivity|].
      simpl. destruct (Js.if_truthy _); reflexivity.
  - unfold settle.
    destruct (take_pending rid (inflight s)) as [[p rest]|]; [|reflexivity].
    destruct (p_awaiting p), out as [response|message]; simpl;
      try reflexivity.
    + match goal with
      | |- routeId (rerender ?o ?x) = _ =>
          destruct (rerender_frame o x) as (_ & _ & _ & Fr & _); rewrite Fr
      end.
      destruct (data response); reflexivity.
    + destruct (Js.if_truthy _); reflexivity.
    + match goal with
      | |- routeId (navigate ?path ?x) = _ =>
          destruct (navigate_frame path x) as (_ & _ & _ & Fr & _); exact Fr
      end.
    + match goal with
      | |- routeId (navigate ?path ?x) = _ =>
          destruct (navigate_frame path x) as (_ & _ & _ & Fr & _); exact Fr
      end.
Qed.

Lemma routeId_run evs : forall s, routeId (run s evs) = routeId s.
Proof.
  induction evs as [|e evs IH]; intros s; simpl; [reflexivity|].
  rewrite IH. apply routeId_step.
Qed.

Lemma routeId_mount id : routeId (mount id) = id.
Proof.
  unfold mount, isEditing. simpl.
  destruct (Js.truthy_opt id); [destruct (Js.if_truthy id)|]; reflexivity.
Qed.

(** ** Properties of every log *)

(** Induction over the runs of a freshly mounted editor. *)
Lemma run_snoc s evs e : run s (evs ++ [e]) = step (run s evs) e.
Proof. unfold run. rewrite fold_left_app. reflexivity. Qed.

(** ** The route id seen by a pending timer *)

Lemma clearTimeout_In h s t :
  In t (timers (clearTimeout h s)) -> In t (timers s).
Proof. simpl. intros H. apply filter_In in H. tauto. Qed.

Lemma autoSaveCleanup_In s t :
  In t (timers (autoSaveCleanup s)) -> In t (timers s).
Proof.
  unfold autoSaveCleanup. destruct (autoSaveTimerRef s); [|auto].
  apply clearTimeout_In.
Qed.

(** A timer of the table after the effect was there before, or it was
    created by this render. *)
Lemma autoSaveEffect_armed s t :
  In t (timers (autoSaveEffect s)) ->
  In t (timers s) \/ r_id (t_callback t) = routeId s.
Proof.
  unfold autoSaveEffect.
  set (s1 := set_effectCleanup false _).
  assert (H1 : forall u, In u (timers s1) -> In u (timers s)).
  { subst s1. destruct (effectCleanup s); simpl; [|auto].
    apply autoSaveCleanup_In. }
  assert (E1 : routeId s1 = routeId s).
  { subst s1. unfold autoSaveCleanup.
    destruct (effectCleanup s); [destruct (autoSaveTimerRef s)|]; reflexivity. }
  clearbody s1.
  destruct (negb (Js.truthy (title s1)) && negb (Js.truthy (content s1)));
    [auto|].
  destruct (saving s1); [auto|].
  destruct (autoSaveTimerRef s1) as [n|]; simpl; intros [<-|H]; simpl;
    try (right; exact E1); left; apply H1.
  - apply filter_In in H. tauto.
  - exact H.
Qed.

Lemma rerender_armed old s t :
  In t (timers (rerender old s)) ->
  In t (timers s) \/ r_id (t_callback t) = routeId s.
Proof.
  unfold rerender. destruct (mounted s && negb _); [|auto].
  apply autoSaveEffect_armed.
Qed.

Lemma navigate_In path s t :
  In t (timers (navigate path s)) -> In t (timers s).
Proof.
  unfold navigate. simpl. destruct (mounted s); [|auto].
  destruct (effectCleanup s); simpl; [|auto].
  apply (autoSaveCleanup_In (log (Navigate path) s)).
Qed.

Lemma handleSave_In s t :
  In t (timers (handleSave s)) -> In t (timers s).
Proof.
  unfold handleSave. destruct (negb _); [auto|].
  destruct (autoSaveTimerRef s); simpl; destruct (Js.if_truthy _); simpl;
    auto; intros H; apply filter_In in H; tauto.
Qed.

Lemma fire_due_In fuel limit : forall s t,
  In t (timers (fire_due fuel limit s)) -> In t (timers s).
Proof.
  induction fuel as [|fuel IH]; intros s t; simpl; [auto|].
  destruct (next_due limit (timers s)) as [u|]; [|auto].
  intros H. apply IH in H. rewrite fire_timers in H.
  apply clearTimeout_In in H. exact H.
Qed.

(** A timer that is pending after a step was pending before it, or it was
    created by a render of that step, which saw the route id of the
    state. *)
Lemma step_armed s e t :
  In t (timers (step s e)) ->
  In t (timers s) \/ r_id (t_callback t) = routeId s.
Proof.
  destruct e as [v|v| | |answer|ms|rid out]; cbn [step].
  - destruct (inputs_rendered s); [|auto].
    apply (rerender_armed s (setTitle v s)).
  - destruct (inputs_rendered s); [|auto].
    apply (rerender_armed s (setContent v s)).
  - destruct (save_enabled s); [|auto]. intros H. left.
    apply handleSave_In. exact H.
  - destruct (mounted s); [|auto]. intros H. left.
    apply (navigate_In _ _ _ H).
  - destruct (delete_rendered s); [|auto]. unfold handleDelete.
    destruct (negb _); [auto|]. destruct (Js.if_truthy _); [|auto].
    destruct answer; auto.
  - unfold elapse. simpl. intros H. left. apply (fire_due_In _ _ _ _ H).
  - unfold settle.
    destruct (take_pending rid (inflight s)) as [[p rest]|]; [|auto].
    destruct (p_awaiting p), out as [response|message]; simpl; auto;
      try (destruct (Js.if_truthy _); simpl; auto).
    + intros H. apply rerender_armed in H.
      destruct (data response); exact H.
    + intros H. left. apply navigate_In in H. exact H.
    + intros H. left. apply navigate_In in H. exact H.
Qed.

Lemma route_synced_step s e : route_synced s -> route_synced (step s e).
Proof.
  intros H t Ht. rewrite routeId_step.
  destruct (step_armed s e t Ht) as [Hin|Hr]; [apply H; exact Hin|exact Hr].
Qed.

Lemma route_synced_reachable id evs : route_synced (run (mount id) evs).
Proof.
  induction evs as [|e evs IH] using rev_ind.
  - unfold route_synced, mount, isEditing. simpl.
    destruct (Js.truthy_opt id); [destruct (Js.if_truthy id)|]; simpl;
      intros t [].
  - rewrite run_snoc. apply route_synced_step. exact IH.
Qed.

Lemma reachable_ind (P : Editor -> Prop) (id : option string) :
  P (mount id) ->
  (forall s e, Inv s /\ route_synced s -> routeId s = id -> P s ->
               P (step s e)) ->
  forall evs, P (run (mount id) evs).
Proof.
  intros H0 Hstep evs.
  induction evs as [|e evs IH] using rev_ind.
  - exact H0.
  - rewrite run_snoc. apply Hstep.
    + split; [apply Inv_reachable|apply route_synced_reachable].
    + rewrite routeId_run. apply routeId_mount.
    + exact IH.
Qed.

Lemma trace_mount id :
  trace (mount id) = []
  \/ exists noteId, trace (mount id) = [ApiCall 0 0 (GetSingleNote noteId)].
Proof.
  unfold mount, isEditing. simpl.
  destruct (Js.truthy_opt id); [destruct (Js.if_truthy id)|]; simpl; eauto.
Qed.

(** ** Debounce coalescing *)

Lemma route_synced_run evs : forall s,
  route_synced s -> route_synced (run s evs).
Proof.
  induction evs as [|e evs IH]; intros s H; simpl; [exact H|].
  apply IH, route_synced_step, H.
Qed.

Lemma run_burst_run b : forall s,
  run_burst s b = run s (flat_map (fun gm => [Elapse (fst gm); snd gm]) b).
Proof.
  induction b as [|gm b IH]; intros s; simpl; [reflexivity|].
  rewrite IH. reflexivity.
Qed.

Lemma elapse_short g s :
  between_changes s -> 0 <= g < AUTO_SAVE_DELAY ->
  elapse g s = set_now (now s + g) s.
Proof.
  intros (I & _ & _ & Ht) Hg.
  destruct (elapse_cases g s (wf_timer _ (proj1 I)))
    as [[_ E]|[(t & _ & _ & E)|(t & Ht' & Hd & _)]].
  - rewrite E. f_equal. lia.
  - rewrite E. f_equal. lia.
  - exfalso. destruct Ht as [Ht|(u & Hu & Hdu)]; rewrite Ht' in *;
      [discriminate|]. inversion Hu; subst. lia.
Qed.

Lemma rerender_change old s :
  timer_wf s -> mounted s = true ->
  title old <> title s \/ content old <> content s ->
  rerender old s = autoSaveEffect s.
Proof.
  intros _ Hm Hch. unfold rerender. rewrite Hm. simpl.
  destruct (String.eqb_spec (title old) (title s));
    destruct (String.eqb_spec (content old) (content s)); simpl;
    try reflexivity.
  destruct Hch; contradiction.
Qed.

(** A real change of the draft, made while the inputs are shown and no save
    is running: whatever timer was pending is gone, a fresh one is armed
    unless the draft is now fully empty, and nothing is called. *)
Lemma change_between s e :
  Inv s -> inputs_rendered s = true -> saving s = false ->
  is_mutation s e ->
  let s' := step s e in
  between_changes s' /\ armed s'
  /\ trace s' = trace s /\ nextRequest s' = nextRequest s
  /\ now s' = now s.
Proof.
  intros I Hr Hsav Hm s'.
  assert (I' : Inv s') by (apply Inv_step; exact I).
  assert (Hmt : mounted s = true).
  { unfold inputs_rendered in Hr. apply andb_prop in Hr. tauto. }
  assert (Key : forall x, timer_wf x -> mounted x = true ->
                  loading x = loading s -> saving x = false ->
                  trace x = trace s -> nextRequest x = nextRequest s ->
                  now x = now s ->
                  Inv (autoSaveEffect x) ->
                  between_changes (autoSaveEffect x) /\ armed (autoSaveEffect x)
                  /\ trace (autoSaveEffect x) = trace s
                  /\ nextRequest (autoSaveEffect x) = nextRequest s
                  /\ now (autoSaveEffect x) = now s).
  { intros x Wx Hmx Hlx Hsx Htx Hnx Hwx Ix.
    destruct (autoSaveEffect_frame x)
      as (Ftr & _ & _ & _ & Fm & Fl & Fs & Ft & Fc & Fn & Fq & _).
    pose proof (autoSaveEffect_timers x Wx) as T. rewrite Hsx in T.
    rewrite orb_false_r in T.
    assert (Ea : armed (autoSaveEffect x)).
    { unfold armed. unfold draft_empty in *. rewrite Ft, Fc.
      destruct (negb (Js.truthy (title x)) && negb (Js.truthy (content x)));
        [tauto|]. destruct T as [T _]. rewrite T. eexists. split; [reflexivity|].
      simpl. congruence. }
    split; [|split; [exact Ea|repeat split; congruence]].
    split; [exact Ix|]. split.
    { unfold inputs_rendered in *. rewrite Fm, Fl, Hmx, Hlx.
      rewrite Hmt in Hr. exact Hr. }
    split; [congruence|].
    unfold armed in Ea. destruct (draft_empty (autoSaveEffect x)); auto. }
  subst s'.
  destruct e as [v|v| | | | |]; simpl in Hm; try contradiction;
    cbn [step] in *; rewrite Hr in *.
  - rewrite (rerender_change s (setTitle v s)) in *;
      try (left; simpl; congruence); try exact Hmt;
      try exact (wf_timer _ (proj1 I)).
    apply Key; try reflexivity; try assumption.
    exact (wf_timer _ (proj1 I)).
  - rewrite (rerender_change s (setContent v s)) in *;
      try (right; simpl; congruence); try exact Hmt;
      try exact (wf_timer _ (proj1 I)).
    apply Key; try reflexivity; try assumption.
    exact (wf_timer _ (proj1 I)).
Qed.

Lemma burst_step_between s gm :
  between_changes s -> 0 <= fst gm < AUTO_SAVE_DELAY -> is_mutation s (snd gm) ->
  let s' := burst_step s gm in
  between_changes s' /\ armed s'
  /\ trace s' = trace s /\ nextRequest s' = nextRequest s
  /\ now s' = now s + fst gm.
Proof.
  intros B Hg Hm s'.
  pose proof (elapse_short _ _ B Hg) as E.
  destruct B as (I & Hr & Hsav & Ht).
  assert (I1 : Inv (step s (Elapse (fst gm)))) by (apply Inv_step; exact I).
  subst s'. unfold burst_step.
  change (step s (Elapse (fst gm))) with (elapse (fst gm) s) in *.
  rewrite E in *.
  assert (Hm1 : is_mutation (set_now (now s + fst gm) s) (snd gm)).
  { destruct (snd gm); exact Hm. }
  exact (change_between (set_now (now s + fst gm) s) (snd gm) I1 Hr Hsav Hm1).
Qed.

Lemma run_burst_between b : forall s,
  between_changes s -> armed s -> rapid s b ->
  let s' := run_burst s b in
  between_changes s' /\ armed s'
  /\ trace s' = trace s /\ nextRequest s' = nextRequest s.
Proof.
  induction b as [|gm b IH]; intros s B A R; simpl.
  - auto.
  - destruct R as (Hg & Hm & R).
    destruct (burst_step_between s gm B Hg Hm) as (B1 & A1 & Etr & Enr & _).
    destruct (IH _ B1 A1 R) as (B' & A' & Etr' & Enr').
    split; [exact B'|]. split; [exact A'|].
    split; [exact (eq_trans Etr' Etr)|exact (eq_trans Enr' Enr)].
Qed.

(** What a firing timer logs. *)
Lemma fire_trace t s :
  r_saving (t_callback t) = false ->
  r_autoSaveStatus (t_callback t) <> Saving ->
  r_title (t_callback t) = title s ->
  r_content (t_callback t) = content s ->
  r_id (t_callback t) = routeId s ->
  trace (fire t s)
  = if Js.truthy (Js.trim (content s))
    then ApiCall (nextRequest s) (Z.max (now s) (t_deadline t)) (save_request s)
         :: trace s
    else trace s.
Proof.
  intros Hs Hst Ht Hc Hi. unfold fire, handleAutoSave, save_request.
  rewrite Hs, Ht, Hc, Hi. apply SaveStatus_eqb_neq in Hst. rewrite Hst.
  destruct (Js.truthy (Js.trim (content s))); simpl; [|reflexivity].
  destruct (Js.if_truthy _); reflexivity.
Qed.

(** C4 as amended: take a sequence of real changes of the draft typed into
    the shown inputs, the first made while no save is in flight and each
    later one less than the delay after the one before.  No call is made
    during the sequence.  After it the timer table holds nothing if the
    draft is fully empty, and else exactly one timer, due a full delay after
    the last change and carrying the draft as of that change: whatever was
    armed before is gone.  Nothing is called before that delay has passed;
    when it has, exactly one call is made, with the trimmed draft of the
    last change, if its trimmed content is non-empty, and none otherwise. *)
Theorem debounce_coalesces
  (id : option string) (evs : list Event)
  (e0 : Event) (b : list (Z * Event)) :
  let s := run (mount id) evs in
  let s' := run_burst (step s e0) b in
  inputs_rendered s = true -> saves (inflight s) = [] ->
  is_mutation s e0 -> rapid (step s e0) b ->
  trace s' = trace s
  /\ (if draft_empty s' then timers s' = []
      else exists h cb,
          timers s' = [{| t_handle := h;
                          t_deadline := now s' + AUTO_SAVE_DELAY;
                          t_callback := cb |}]
          /\ r_title cb = title s' /\ r_content cb = content s')
  /\ (forall ms, ms < AUTO_SAVE_DELAY ->
                 trace (step s' (Elapse ms)) = trace s)
  /\ trace (step s' (Elapse AUTO_SAVE_DELAY))
     = if Js.truthy (Js.trim (content s'))
       then ApiCall (nextRequest s) (now s' + AUTO_SAVE_DELAY) (save_request s')
            :: trace s
       else trace s.
Proof.
  intros s s' Hr Hnone Hm R.
  assert (I0 : Inv s) by apply Inv_reachable.
  assert (Hsav : saving s = false).
  { destruct (wf_saves _ (proj1 I0)) as [[_ H]|[p [H _]]]; [exact H|].
    rewrite H in Hnone. discriminate. }
  destruct (change_between s e0 I0 Hr Hsav Hm) as (B1 & A1 & Etr1 & Enr1 & _).
  destruct (run_burst_between b _ B1 A1 R) as (B' & A' & Etr & Enr).
  fold s' in B', A', Etr, Enr.
  rewrite Etr1 in Etr. rewrite Enr1 in Enr. clear Etr1 Enr1 B1 A1.
  assert (Rs : route_synced s').
  { subst s'. rewrite run_burst_run. apply route_synced_run.
    apply route_synced_step. apply route_synced_reachable. }
  destruct B' as (I & _ & _ & _). destruct I as [W Sy].
  split; [exact Etr|].
  unfold armed in A'.
  destruct (draft_empty s') eqn:De.
  - split; [exact A'|].
    assert (El : forall ms, trace (step s' (Elapse ms)) = trace s).
    { intros ms. change (step s' (Elapse ms)) with (elapse ms s').
      destruct (elapse_cases ms s' (wf_timer _ W))
        as [[_ E]|[(t & Ht & _)|(t & Ht & _)]];
        [rewrite E; exact Etr| |]; rewrite A' in Ht; discriminate. }
    split; [intros ms _; apply El|].
    apply draft_empty_iff in De. destruct De as [_ Hc]. rewrite Hc. simpl.
    apply El.
  - destruct A' as (t & Ht & Hd).
    destruct (Sy t) as (Sti & Sco & _); [rewrite Ht; left; reflexivity|].
    assert (Sid : r_id (t_callback t) = routeId s').
    { apply Rs. rewrite Ht. left. reflexivity. }
    destruct (wf_timer _ W) as [Hnil|(h & d & cb & Ht' & _ & _ & _ & _ & Hcs & Hcst & _)];
      [rewrite Hnil in Ht; discriminate|].
    rewrite Ht in Ht'. inversion Ht'; subst t. simpl in Hd, Sti, Sco, Sid.
    split.
    { exists h, cb. rewrite Ht, Hd. auto. }
    split.
    { intros ms Hms. change (step s' (Elapse ms)) with (elapse ms s').
      destruct (elapse_cases ms s' (wf_timer _ W))
        as [[_ E]|[(t & _ & _ & E)|(t & Hu & Hdu & _)]];
        try (rewrite E; exact Etr).
      exfalso. rewrite Ht in Hu. inversion Hu; subst t. simpl in Hdu.
      unfold AUTO_SAVE_DELAY in *. lia. }
    change (step s' (Elapse AUTO_SAVE_DELAY)) with (elapse AUTO_SAVE_DELAY s').
    destruct (elapse_cases AUTO_SAVE_DELAY s' (wf_timer _ W))
      as [[Hu _]|[(t & Hu & Hdu & _)|(t & Hu & _ & E)]].
    + rewrite Ht in Hu. discriminate.
    + exfalso. rewrite Ht in Hu. inversion Hu; subst t. simpl in Hdu.
      unfold AUTO_SAVE_DELAY in *. lia.
    + rewrite Ht in Hu. inversion Hu; subst t. rewrite E.
      change (trace (set_now (now s' + Z.max 0 AUTO_SAVE_DELAY)
                       (fire {| t_handle := h; t_deadline := d; t_callback := cb |} s')))
        with (trace (fire {| t_handle := h; t_deadline := d; t_callback := cb |} s')).
      rewrite (fire_trace {| t_handle := h; t_deadline := d; t_callback := cb |}
                 s' Hcs Hcst Sti Sco Sid). simpl t_deadline.
      rewrite Etr, Enr.
      replace (Z.max (now s') d) with (now s' + AUTO_SAVE_DELAY)
        by (unfold AUTO_SAVE_DELAY in *; lia).
      reflexivity.
Qed.

(** The scenario of the specification: changes at 0, 500 and 900 ms give one
    create at 3900 ms, with the draft of the last change.  And a title typed
    500 ms after a note was opened, while the timer armed by the load is
    still pending, followed 200 ms later by a change of the content, gives
    one edit 3000 ms after that last change. *)
Lemma debounce_coalesces_witness :
  let b := [(500, TypeContent "Hell"); (400, TypeContent " Hello ")] in
  let opened :=
    run (mount (Some "abc"))
      [Settle 0%nat
         (Fulfilled {| data := Some {| note_id := "abc";
                                       note_title := Some "Old";
                                       note_content := "Body" |} |});
       Elapse 500] in
  trace (step (run_burst (step (mount None) (TypeContent "H")) b)
           (Elapse AUTO_SAVE_DELAY))
  = [ApiCall 0 3900 (CreateNote {| create_title := None;
                                   create_content := "Hello" |})]
  /\ timers opened <> []
  /\ persistence_calls
       (trace (step (run_burst (step opened (TypeTitle "New"))
                       [(200, TypeContent "Body!")])
                 (Elapse AUTO_SAVE_DELAY)))
     = [ApiCall 1 3700 (EditNote {| edit_id := "abc";
                                    edit_title := Some "New";
                                    edit_content := "Body!" |})].
Proof.
  cbv zeta. split; [|split].
  - assert (Hr : rapid (step (mount None) (TypeContent "H"))
                   [(500, TypeContent "Hell"); (400, TypeContent " Hello ")]).
    { simpl. unfold AUTO_SAVE_DELAY.
      repeat split; try lia; vm_compute; discriminate. }
    destruct (debounce_coalesces None [] (TypeContent "H")
                [(500, TypeContent "Hell"); (400, TypeContent " Hello ")]
                eq_refl eq_refl ltac:(vm_compute; discriminate) Hr)
      as (_ & _ & _ & H).
    exact H.
  - vm_compute. discriminate.
  - pose proof (debounce_coalesces (Some "abc")
                  [Settle 0%nat
                     (Fulfilled {| data := Some {| note_id := "abc";
                                                   note_title := Some "Old";
                                                   note_content := "Body" |} |});
                   Elapse 500]
                  (TypeTitle "New") [(200, TypeContent "Body!")]) as H.
    cbv zeta in H.
    destruct H as (_ & _ & _ & H).
    + vm_compute. reflexivity.
    + vm_compute. reflexivity.
    + vm_compute. discriminate.
    + split; [unfold AUTO_SAVE_DELAY; simpl; lia|].
      split; [vm_compute; discriminate|exact I].
    + rewrite H. vm_compute. reflexivity.
Defined.

(** C4 as stated fails in two ways.  A change of the title alone arms the
    timer, the timer fires, and [handleAutoSave] returns at its content
    check: no call follows.  And a change typed while a debounced save is in
    flight arms no timer at all: the effect returns at [if (saving)], so
    nothing is pending after it and no call follows, however long one
    waits, also after the save has come back. *)
Lemma changes_followed_by_no_call :
  let alone := mount None in
  let busy := run (mount None) [TypeContent "Hello"; Elapse 3000] in
  let typed := step busy (TypeContent "Hello world") in
  (inputs_rendered alone = true /\ saves (inflight alone) = []
   /\ is_mutation alone (TypeTitle "Groceries")
   /\ trace (step (step alone (TypeTitle "Groceries"))
               (Elapse AUTO_SAVE_DELAY)) = []
   /\ ~ debounce_saves_last_draft alone (TypeTitle "Groceries") [])
  /\ (inputs_rendered busy = true
      /\ saves (inflight busy)
         = [{| p_rid := 0;
               p_request := CreateNote {| create_title := None;
                                          create_content := "Hello" |};
               p_awaiting := InAutoSaveCreate |}]
      /\ is_mutation busy (TypeContent "Hello world")
      /\ content typed = "Hello world" /\ timers typed = []
      /\ trace (step typed (Elapse AUTO_SAVE_DELAY)) = trace busy
      /\ persistence_calls
           (trace (run typed [Settle 0%nat (Fulfilled {| data := None |});
                              Elapse AUTO_SAVE_DELAY]))
         = [ApiCall 0 3000 (CreateNote {| create_title := None;
                                          create_content := "Hello" |})]
      /\ ~ debounce_saves_last_draft busy (TypeContent "Hello world") []).
Proof.
  cbv zeta. split.
  - split; [reflexivity|]. split; [reflexivity|].
    split; [vm_compute; discriminate|].
    split; [vm_compute; reflexivity|].
    intros [rid H]. vm_compute in H. discriminate.
  - split; [vm_compute; reflexivity|]. split; [vm_compute; reflexivity|].
    split; [vm_compute; discriminate|].
    split; [vm_compute; reflexivity|]. split; [vm_compute; reflexivity|].
    split; [vm_compute; reflexivity|]. split; [vm_compute; reflexivity|].
    intros [rid H]. vm_compute in H. discriminate.
Qed.

(** *** No save without content *)





(** *** Delete *)

Lemma deletes_confirmed_notes notes tr :
  forallb is_note notes = true -> deletes_confirmed tr ->
  deletes_confirmed (notes ++ tr).
Proof.
  induction notes as [|e notes IH]; simpl; intros H D; [exact D|].
  apply andb_prop in H. destruct H as [He H]. split; [|apply IH; assumption].
  destruct e; try exact I; discriminate.
Qed.


Lemma save_request_not_delete s :
  match save_request s with DeleteNote _ => False | _ => True end.
Proof. unfold save_request. destruct (Js.if_truthy _); exact I. Qed.

Lemma if_truthy_Some o v : Js.if_truthy o = Some v -> o = Some v /\ Js.truthy v = true.
Proof.
  destruct o as [w|]; simpl; [|discriminate].
  destruct (Js.truthy w) eqn:E; [|discriminate].
  intros H; inversion H; subst. auto.
Qed.

(** C9: in every run, each [deleteNote] call is immediately preceded by a
    [window.confirm] that returned true; and a delete action whose
    confirmation returns false calls nothing, leaves the requests in flight
    as they were and leaves the editor mounted as it was. *)
Theorem delete_requires_confirmation (id : option string) (evs : list Event) :
  let s := run (mount id) evs in
  deletes_confirmed (trace s)
  /\ (let s' := handleDelete false s in
      (trace s' = trace s \/ trace s' = WindowConfirm false :: trace s)
      /\ inflight s' = inflight s /\ mounted s' = mounted s)
  /\ (let s' := step s (ClickDelete false) in
      (trace s' = trace s \/ trace s' = WindowConfirm false :: trace s)
      /\ inflight s' = inflight s /\ mounted s' = mounted s).
Proof.
  intros s.
  assert (Hd : let s' := handleDelete false s in
               (trace s' = trace s \/ trace s' = WindowConfirm false :: trace s)
               /\ inflight s' = inflight s /\ mounted s' = mounted s).
  { unfold handleDelete. destruct (negb (isEditing s)); [auto|].
    destruct (Js.if_truthy (routeId s)); simpl; auto. }
  split; [|split; [exact Hd|]].
  - subst s. apply reachable_ind.
    + destruct (trace_mount id) as [-> | [n ->]]; simpl; auto.
    + intros s e Hi _ IH. destruct (Delta_step s e Hi)
        as [Etr _ _ _|Etr _ _ _|k at_ms _ _ Hc _ _ Etr _ _ _|Etr _ _ _
           |n _ _ Etr _ _ _|rid out p rest notes _ _ Hn Etr _ _ _];
        rewrite Etr; try assumption; simpl; auto.
      * split; [|exact IH]. pose proof (save_request_not_delete s) as H.
        destruct (save_request s); auto. contradiction.
      * split; [eauto|]. split; [exact I|exact IH].
      * apply deletes_confirmed_notes; [exact Hn|]. simpl. auto.
  - cbn [step]. destruct (delete_rendered s); [exact Hd|auto].
Qed.

Lemma take_pending_In rid ps p rest :
  take_pending rid ps = Some (p, rest) ->
  In p ps /\ forall q, In q rest -> In q ps.
Proof.
  revert p rest. induction ps as [|a ps IH]; intros p rest; simpl.
  - discriminate.
  - destruct (Nat.eqb (p_rid a) rid).
    + intros H; inversion H; subst. auto.
    + destruct (take_pending rid ps) as [[q' rest']|]; [|discriminate].
      intros H; inversion H; subst.
      destruct (IH p rest' eq_refl) as [Hp Hr]. split; [auto|].
      intros q [<-|Hq]; auto.
Qed.

Lemma if_truthy_or_None a b :
  Js.if_truthy (Js.or a b) = None ->
  Js.truthy_opt a = false /\ Js.truthy_opt b = false.
Proof.
  unfold Js.or. destruct a as [x|]; simpl.
  - destruct (Js.truthy x) eqn:E; simpl; [rewrite E; discriminate|].
    destruct b as [y|]; simpl; [|auto]. destruct (Js.truthy y); [discriminate|auto].
  - destruct b as [y|]; simpl; [|auto]. destruct (Js.truthy y); [discriminate|auto].
Qed.

Lemma created_without_route_reachable id evs :
  created_without_route (run (mount id) evs).
Proof.
  apply reachable_ind.
  - unfold created_without_route, mount, isEditing. simpl.
    destruct (Js.truthy_opt id); [destruct (Js.if_truthy id)|]; simpl;
      (split; [congruence|]); intros p Hp Hk;
      repeat (destruct Hp as [Hp|Hp]); subst; try discriminate;
      contradiction.
  - intros s e Hi _ [Href Hin]. unfold created_without_route.
    rewrite routeId_step.
    destruct (Delta_step s e Hi)
      as [_ Ein Eref _|_ Ein Eref _|k at_ms _ _ _ _ Hk _ Ein Eref _|_ Ein Eref _
         |n _ _ _ Ein Eref _|rid out p rest notes _ Et _ _ Ein Eref _];
      rewrite Ein, Eref; try (split; assumption).
    + split; [assumption|]. intros q [<-|Hq] Hq'; [|eauto].
      simpl in Hq'. subst k. unfold save_request in Hk.
      destruct (Js.if_truthy (Js.or (createdNoteIdRef s) (routeId s))) eqn:E;
        [discriminate|]. apply if_truthy_or_None in E. tauto.
    + split; [assumption|]. intros q [<-|Hq] Hq'; [discriminate|eauto].
    + destruct (take_pending_In _ _ _ _ Et) as [Hp Hr]. split; [|eauto].
      unfold ref_after. destruct (p_awaiting p) eqn:Ek; try assumption.
      destruct out as [r|m]; [|assumption].
      destruct (returned_id r); [|assumption]. intros _. eauto.
Qed.



(** ** Create once, then edit *)

Lemma notes_transparent notes tr :
  forallb is_note notes = true ->
  first_created (notes ++ tr) = first_created tr
  /\ (identity_promotion tr -> identity_promotion (notes ++ tr))
  /\ successful_saves (notes ++ tr) = successful_saves tr.
Proof.
  unfold successful_saves.
  induction notes as [|e notes IH]; simpl; intros H; [auto|].
  apply andb_prop in H. destruct H as [He H].
  destruct (IH H) as (E1 & E2 & E3). rewrite E1.
  destruct e; try discriminate; simpl;
    (split; [destruct (first_created tr); reflexivity|]); auto.
Qed.

Lemma first_created_cons e tr :
  create_result e = None -> first_created (e :: tr) = first_created tr.
Proof. simpl. intros ->. destruct (first_created tr); reflexivity. Qed.

Lemma successful_saves_cons e tr :
  is_fulfilled_create e = false -> is_fulfilled_edit e = false ->
  successful_saves (e :: tr) = successful_saves tr.
Proof. unfold successful_saves. simpl. intros -> ->. reflexivity. Qed.

Lemma create_then_edits_ext i tr tr' :
  successful_saves tr' = successful_saves tr ->
  create_then_edits i tr -> create_then_edits i tr'.
Proof. unfold create_then_edits. intros ->. auto. Qed.

Lemma single_create_frame s s' :
  trace s' = trace s -> inflight s' = inflight s ->
  createdNoteIdRef s' = createdNoteIdRef s ->
  (mounted s = false -> mounted s' = false) ->
  single_create s -> single_create s'.
Proof.
  unfold single_create, before_create, after_create.
  intros -> -> -> Hm [Hip H]. split; [exact Hip|].
  destruct H as [H|(i & H1 & H2 & [H3|[H3 H4]])].
  - left. exact H.
  - right. exists i. split; [exact H1|]. split; [exact H2|]. left. exact H3.
  - right. exists i. split; [exact H1|]. split; [exact H2|]. right. auto.
Qed.

Lemma single_create_log e s s' :
  create_result e = None -> is_fulfilled_create e = false ->
  is_fulfilled_edit e = false -> is_persistence_call e = false ->
  trace s' = e :: trace s -> saves (inflight s') = saves (inflight s) ->
  createdNoteIdRef s' = createdNoteIdRef s ->
  (mounted s = false -> mounted s' = false) ->
  single_create s -> single_create s'.
Proof.
  unfold single_create, before_create, after_create, create_then_edits.
  intros Hc Hfc Hfe Hpc -> -> -> Hm [Hip H].
  rewrite first_created_cons by exact Hc.
  rewrite successful_saves_cons by assumption.
  split.
  - split; [|exact Hip].
    destruct e as [rid t [ | | | ]| | | | | ]; try exact I; discriminate.
  - destruct H as [H|(i & H1 & H2 & [H3|[H3 H4]])].
    + left. exact H.
    + right. exists i. split; [exact H1|]. split; [exact H2|]. left. exact H3.
    + right. exists i. split; [exact H1|]. split; [exact H2|]. right. auto.
Qed.

Lemma saves_cons_save p ps :
  is_save (p_awaiting p) = true -> saves (p :: ps) = p :: saves ps.
Proof. intros H. unfold saves. simpl. rewrite H. reflexivity. Qed.

Lemma single_create_save s s' k at_ms :
  routeId s = None ->
  saves (inflight s) = [] -> mounted s = true -> is_save k = true ->
  trace s' = ApiCall (nextRequest s) at_ms (save_request s) :: trace s ->
  inflight s' = {| p_rid := nextRequest s; p_request := save_request s;
                   p_awaiting := k |} :: inflight s ->
  createdNoteIdRef s' = createdNoteIdRef s ->
  single_create s -> single_create s'.
Proof.
  unfold single_create, before_create, after_create, create_then_edits.
  intros Hrid Hnil Hm Hk -> -> -> [Hip H].
  rewrite saves_cons_save by exact Hk. rewrite Hnil.
  rewrite first_created_cons by reflexivity.
  rewrite successful_saves_cons by reflexivity.
  unfold save_request. rewrite Hrid.
  destruct H as [(H1 & H2 & H3 & _)|(i & H1 & H2 & [(H3 & H4 & _)|[H3 _]])].
  - rewrite H2. simpl. split; [auto|]. left.
    repeat (split; [first [assumption|reflexivity]|]).
    intros p [<-|[]]. simpl. eauto.
  - rewrite H3. unfold Js.or. simpl. rewrite H4. simpl. rewrite H4. simpl.
    split; [auto|]. right. exists i. split; [exact H1|]. split; [exact H2|].
    left. repeat (split; [first [assumption|reflexivity]|]).
    intros p [<-|[]]. simpl. eauto.
  - congruence.
Qed.

Lemma kind_of_other k req :
  kind_matches k req = true -> is_save k = false ->
  forall rid out,
    create_result (ApiSettled rid req out) = None
    /\ is_fulfilled_create (ApiSettled rid req out) = false
    /\ is_fulfilled_edit (ApiSettled rid req out) = false.
Proof.
  destruct k, req; simpl; try discriminate; auto.
Qed.

Lemma single_create_settle s s' rid out p rest notes :
  Inv s ->
  creates_return_identity (trace s') ->
  take_pending rid (inflight s) = Some (p, rest) ->
  forallb is_note notes = true ->
  trace s' = (notes ++ ApiSettled rid (p_request p) out :: trace s)%list ->
  inflight s' = rest ->
  createdNoteIdRef s' = ref_after (p_awaiting p) out (createdNoteIdRef s) ->
  mounted s' = (if leaves (p_awaiting p) out then false else mounted s) ->
  single_create s -> single_create s'.
Proof.
  intros [W _] Hout Et Hn Etr Ein Eref Em [Hip H].
  destruct (notes_transparent notes
              (ApiSettled rid (p_request p) out :: trace s) Hn)
    as (N1 & N2 & N3).
  destruct (take_pending_forallb _ _ _ _ _ Et (wf_pending _ W)) as [Hkm _].
  pose proof (take_pending_saves _ _ _ _ Et) as Hsv.
  destruct (take_pending_In _ _ _ _ Et) as [Hin _].
  assert (Hid : forall d r, p_request p = CreateNote d -> out = Fulfilled r ->
                            returned_id r <> None).
  { intros d r Hd ->. apply (Hout rid d r). rewrite Etr, Hd.
    apply in_or_app. right. left. reflexivity. }
  clear Hout.
  unfold single_create, before_create, after_create.
  rewrite Etr, Ein, Eref, Em, N1, N3.
  split; [apply N2; simpl; auto|].
  destruct (is_save (p_awaiting p)) eqn:Hk.
  - (* a save settles *)
    assert (Hp : saves (inflight s) = [p] /\ saves rest = []).
    { assert (Hps : In p (saves (inflight s))).
      { apply filter_In. auto. }
      destruct (wf_saves _ W) as [[E _]|[q [E _]]]; rewrite E in *.
      - destruct Hps.
      - destruct Hps as [->|[]]. split; [reflexivity|].
        simpl in Hsv. destruct (saves rest); [reflexivity|discriminate]. }
    destruct Hp as [Hp Hr]. rewrite Hr.
    destruct H as [(H1 & H2 & H3 & H5)
                  |(i & H1 & H2 & [(H3 & H4 & H5)|[_ H3]])].
    + destruct (H5 p) as [d Hd]; [rewrite Hp; left; reflexivity|].
      specialize (Hid d). rewrite Hd in *.
      destruct out as [r|m].
      * destruct (returned_id r) as [i|] eqn:Ei;
          [|exfalso; exact (Hid r eq_refl eq_refl Ei)].
        right. exists i.
        split; [simpl; rewrite H1; exact Ei|].
        split.
        { exists rid, d, r, []. rewrite ?N3. unfold successful_saves in *.
          simpl. rewrite H3. auto. }
        destruct (p_awaiting p); try discriminate; simpl.
        -- left. rewrite Ei. split; [reflexivity|].
           split; [|intros q []].
           unfold returned_id in Ei. apply if_truthy_Some in Ei. tauto.
        -- right. auto.
      * left. rewrite first_created_cons by reflexivity.
        rewrite successful_saves_cons by reflexivity.
        destruct (p_awaiting p); try discriminate; simpl;
          repeat (split; [first [assumption|reflexivity]|]); intros q [].
    + destruct (H5 p) as [d [Hd Hdi]]; [rewrite Hp; left; reflexivity|].
      rewrite Hd in *.
      right. exists i.
      rewrite first_created_cons by (destruct out; reflexivity).
      split; [exact H1|].
      split.
      { destruct H2 as (crid & cd & cr & later & E & Er & Hl).
        destruct out as [r|m].
        - exists crid, cd, cr,
            (ApiSettled rid (EditNote d) (Fulfilled r) :: later).
          rewrite ?N3. unfold successful_saves in *. simpl. rewrite E.
          split; [reflexivity|]. split; [exact Er|].
          constructor; [|exact Hl]. exists rid, d, r. auto.
        - exists crid, cd, cr, later. rewrite ?N3.
          rewrite successful_saves_cons by reflexivity. auto. }
      left. split; [|split; [exact H4|intros q []]].
      destruct (p_awaiting p); try discriminate; destruct out; exact H3.
    + rewrite H3 in Hp. discriminate.
  - (* a fetch or a delete settles *)
    destruct (kind_of_other _ _ Hkm Hk rid out) as (K1 & K2 & K3).
    rewrite first_created_cons by exact K1.
    rewrite ?successful_saves_cons by assumption. rewrite Hsv.
    assert (Er : ref_after (p_awaiting p) out (createdNoteIdRef s)
                 = createdNoteIdRef s).
    { destruct (p_awaiting p); try discriminate; reflexivity. }
    rewrite Er.
    destruct H as [H|(i & H1 & H2 & [H3|[H3 H4]])].
    + left. exact H.
    + right. exists i. split; [exact H1|].
      split; [|left; exact H3].
      apply (create_then_edits_ext i (trace s)); [|exact H2].
      rewrite N3. apply successful_saves_cons; assumption.
    + right. exists i. split; [exact H1|].
      split; [|right; split; [|exact H4]].
      * apply (create_then_edits_ext i (trace s)); [|exact H2].
        rewrite N3. apply successful_saves_cons; assumption.
      * rewrite H3. destruct (leaves _ _); reflexivity.
Qed.

(** A step only adds to the log. *)
Lemma trace_grows s e :
  Inv s -> exists newer, trace (step s e) = (newer ++ trace s)%list.
Proof.
  intros Hi. destruct (Delta_seen s e Hi) as (seen & _ & D).
  destruct D
    as [Etr _ _ _|Etr _ _ _|k at_ms _ _ _ _ _ Etr _ _ _|Etr _ _ _
       |n _ _ Etr _ _ _|rid out p rest notes _ _ _ Etr _ _ _];
    simpl in Etr; rewrite Etr.
  - exists []. reflexivity.
  - exists [Navigate "/dashboard"]. reflexivity.
  - eexists [_]. reflexivity.
  - exists [WindowConfirm false]. reflexivity.
  - eexists [_; _]. reflexivity.
  - eexists (notes ++ [_])%list. rewrite <- app_assoc. reflexivity.
Qed.

Lemma single_create_step s e :
  Inv s /\ route_synced s -> routeId s = None ->
  creates_return_identity (trace (step s e)) ->
  single_create s -> single_create (step s e).
Proof.
  intros Hi Hrid He H.
  destruct (Delta_step s e Hi)
    as [Etr Ein Eref Em|Etr Ein Eref Em
       |k at_ms Hnil Hm _ Hk _ Etr Ein Eref _|Etr Ein Eref Em
       |n _ Hn _ _ _ _|rid out p rest notes -> Et Hn Etr Ein Eref Em].
  - apply (single_create_frame s); try assumption. congruence.
  - apply (single_create_log (Navigate "/dashboard") s); try assumption;
      try reflexivity; congruence.
  - apply (single_create_save s _ k at_ms); assumption.
  - apply (single_create_log (WindowConfirm false) s); try assumption;
      try reflexivity; congruence.
  - rewrite Hrid in Hn. discriminate.
  - apply (single_create_settle s _ rid out p rest notes); try assumption.
    exact (proj1 Hi).
Qed.

Lemma single_create_reachable evs :
  creates_return_identity (trace (run (mount None) evs)) ->
  single_create (run (mount None) evs).
Proof.
  induction evs as [|e evs IH] using rev_ind; intros H.
  - split; [exact I|]. left. repeat split. intros p [].
  - rewrite run_snoc in *. apply single_create_step.
    + split; [apply Inv_reachable|apply route_synced_reachable].
    + apply routeId_run.
    + exact H.
    + apply IH. intros rid d r Hin.
      destruct (trace_grows (run (mount None) evs) e (Inv_reachable _ _))
        as [newer E].
      apply (H rid d r). rewrite E. apply in_or_app. right. exact Hin.
Qed.

Lemma creates_return_identity_check tr :
  forallb answers_with_identity tr = true -> creates_return_identity tr.
Proof.
  intros H rid d r Hin.
  rewrite forallb_forall in H. specialize (H _ Hin). simpl in H.
  destruct (returned_id r); [discriminate|discriminate].
Qed.

(** C2 as amended: take a session opened without a route id in which every
    create that was fulfilled returned an identity.  In its log every create
    call is made while no create has yet succeeded, and every edit call
    carries the identity the first successful create returned; so a save
    attempted before the first successful create is a create, and one
    attempted after it is an edit of that note.  Once a create has
    succeeded, its identity is held in [createdNoteIdRef], unless the editor
    has been left (which is what a successful manual create does), and the
    successful saves of the session are that one create followed by edits of
    the returned identity only: of S successful saves, S-1 are edits.  As
    long as no create has succeeded, no save has. *)
Theorem single_create_then_edits (evs : list Event) :
  let s := run (mount None) evs in
  creates_return_identity (trace s) ->
  identity_promotion (trace s)
  /\ (forall i, first_created (trace s) = Some i ->
                (createdNoteIdRef s = Some i \/ mounted s = false)
                /\ create_then_edits i (trace s))
  /\ (first_created (trace s) = None -> successful_saves (trace s) = []).
Proof.
  intros s H.
  destruct (single_create_reachable evs H) as [Hip Hph]. fold s in Hip, Hph.
  split; [exact Hip|].
  destruct Hph as [(H1 & H2 & H3 & _)|(i & H1 & H2 & Hr)].
  - rewrite H1. split; [discriminate|]. intros _. exact H3.
  - rewrite H1. split; [|discriminate].
    intros j Hj. inversion Hj; subst j. split; [|exact H2].
    destruct Hr as [(Hr & _)|(Hm & _)]; auto.
Qed.

Lemma single_create_then_edits_witness :
  let n1 := {| data := Some {| note_id := "n1"; note_title := None;
                               note_content := "Hello" |} |} in
  let evs := [TypeContent "Hello"; Elapse 3000; Settle 0%nat (Rejected "offline");
              TypeContent "Hello!"; Elapse 3000; Settle 1%nat (Fulfilled n1);
              TypeTitle "Greeting"; Elapse 3000; Settle 2%nat (Fulfilled n1);
              ClickSave; Settle 3%nat (Fulfilled n1)] in
  let s := run (mount None) evs in
  creates_return_identity (trace s)
  /\ identity_promotion (trace s)
  /\ create_then_edits "n1" (trace s)
  /\ List.length (successful_saves (trace s)) = 3%nat
  /\ persistence_calls (trace s)
     = [ApiCall 3 9000 (EditNote {| edit_id := "n1";
                                     edit_title := Some "Greeting";
                                     edit_content := "Hello!" |});
        ApiCall 2 9000 (EditNote {| edit_id := "n1";
                                     edit_title := Some "Greeting";
                                     edit_content := "Hello!" |});
        ApiCall 1 6000 (CreateNote {| create_title := None;
                                       create_content := "Hello!" |});
        ApiCall 0 3000 (CreateNote {| create_title := None;
                                       create_content := "Hello" |})].
Proof.
  cbv zeta.
  set (evs := [TypeContent "Hello"; Elapse 3000; Settle 0%nat (Rejected "offline");
               TypeContent "Hello!"; Elapse 3000;
               Settle 1%nat
                 (Fulfilled {| data := Some {| note_id := "n1";
                                               note_title := None;
                                               note_content := "Hello" |} |});
               TypeTitle "Greeting"; Elapse 3000;
               Settle 2%nat
                 (Fulfilled {| data := Some {| note_id := "n1";
                                               note_title := None;
                                               note_content := "Hello" |} |});
               ClickSave;
               Settle 3%nat
                 (Fulfilled {| data := Some {| note_id := "n1";
                                               note_title := None;
                                               note_content := "Hello" |} |})]).
  assert (H : creates_return_identity (trace (run (mount None) evs))).
  { apply creates_return_identity_check. vm_compute. reflexivity. }
  split; [exact H|].
  destruct (single_create_then_edits evs H) as (Hip & Hc & _).
  split; [exact Hip|].
  split; [apply (Hc "n1"); vm_compute; reflexivity|].
  split; vm_compute; reflexivity.
Defined.

(** C2 as stated fails in two ways.  A create that is rejected is followed
    by a second [createNote] call, so one successful save comes with two
    create calls.  And a create that is fulfilled without an identity in
    its response ([response.data?.id] is not there) leaves no identity to
    edit, so the next save is a create again: two successful saves, two
    create calls and no edit. *)
Lemma create_can_be_called_twice :
  let n1 := {| data := Some {| note_id := "n1"; note_title := None;
                               note_content := "Hello" |} |} in
  let retried :=
    run (mount None)
      [TypeContent "Hello"; Elapse 3000; Settle 0%nat (Rejected "offline");
       TypeContent "Hello!"; Elapse 3000; Settle 1%nat (Fulfilled n1)] in
  let unnamed :=
    run (mount None)
      [TypeContent "Hello"; Elapse 3000;
       Settle 0%nat (Fulfilled {| data := None |});
       TypeContent "Hello!"; Elapse 3000; Settle 1%nat (Fulfilled n1)] in
  (List.length (successful_saves (trace retried)) = 1%nat
   /\ persistence_calls (trace retried)
      = [ApiCall 1 6000 (CreateNote {| create_title := None;
                                        create_content := "Hello!" |});
         ApiCall 0 3000 (CreateNote {| create_title := None;
                                        create_content := "Hello" |})]
   /\ ~ one_create_call (trace retried))
  /\ (List.length (successful_saves (trace unnamed)) = 2%nat
      /\ persistence_calls (trace unnamed)
         = [ApiCall 1 6000 (CreateNote {| create_title := None;
                                           create_content := "Hello!" |});
            ApiCall 0 3000 (CreateNote {| create_title := None;
                                           create_content := "Hello" |})]
      /\ ~ one_create_call (trace unnamed)).
Proof.
  cbv zeta. split.
  - split; [vm_compute; reflexivity|]. split; [vm_compute; reflexivity|].
    intros H. unfold one_create_call in H. cbv zeta in H.
    match type of H with
    | (1 <= List.length (successful_saves ?tr))%nat -> _ =>
        assert (L : List.length (successful_saves tr) = 1%nat)
          by (vm_compute; reflexivity);
        assert (C : create_calls tr = 2%nat) by (vm_compute; reflexivity);
        rewrite L in H; destruct (H (le_n 1)) as [H1 _]; rewrite C in H1
    end.
    discriminate.
  - split; [vm_compute; reflexivity|]. split; [vm_compute; reflexivity|].
    intros H. unfold one_create_call in H. cbv zeta in H.
    match type of H with
    | (1 <= List.length (successful_saves ?tr))%nat -> _ =>
        assert (L : List.length (successful_saves tr) = 2%nat)
          by (vm_compute; reflexivity);
        assert (C : create_calls tr = 2%nat) by (vm_compute; reflexivity);
        rewrite L in H; destruct (H (le_S 1 1 (le_n 1))) as [H1 _];
        rewrite C in H1
    end.
    discriminate.
Qed.

(** ** Further properties of the editor *)

Lemma notes_only_edits noteId notes :
  forallb is_note notes = true -> Forall (only_edits noteId) notes.
Proof.
  induction notes as [|e notes IH]; simpl; intros H; constructor.
  - apply andb_prop in H. destruct e; simpl in *; try exact I.
    destruct H; discriminate.
  - apply IH. apply andb_prop in H. tauto.
Qed.

(** Induction over the runs, keeping the run in hand. *)
Lemma runs_ind (P : Editor -> Prop) (id : option string) :
  P (mount id) ->
  (forall evs e, P (run (mount id) evs) -> P (step (run (mount id) evs) e)) ->
  forall evs, P (run (mount id) evs).
Proof.
  intros H0 Hstep evs.
  induction evs as [|e evs IH] using rev_ind.
  - exact H0.
  - rewrite run_snoc. apply Hstep. exact IH.
Qed.

(** ** Route changes inside one instance *)

(** The invariant does not mention the route id. *)
Lemma Inv_set_routeId id s : Inv s -> Inv (set_routeId id s).
Proof.
  intros [[Hs Hst Ht Hp] Sy]. split; [split; assumption|exact Sy].
Qed.

Lemma Inv_fetchNote noteId s : Inv s -> Inv (fetchNote noteId s).
Proof.
  intros [[Hs Hst Ht Hp] Sy]. split; [split|exact Sy]; assumption.
Qed.

Lemma fetchEffect_cases s :
  (Js.if_truthy (routeId s) = None /\ Routed.fetchEffect s = s)
  \/ exists noteId,
      Js.if_truthy (routeId s) = Some noteId
      /\ Routed.fetchEffect s = fetchNote noteId s.
Proof.
  unfold Routed.fetchEffect, isEditing.
  destruct (routeId s) as [i|]; simpl; [|auto].
  destruct (Js.truthy i); simpl; eauto.
Qed.

(** What a route change does: nothing, or the new route id and, for a
    truthy one, the fetch of that note. *)
Lemma changeRoute_cases id s :
  Routed.changeRoute id s = s
  \/ (mounted s = true /\ Routed.same_id (routeId s) id = false
      /\ ((Js.if_truthy id = None
           /\ Routed.changeRoute id s = set_routeId id s)
          \/ exists noteId,
              Js.if_truthy id = Some noteId
              /\ Routed.changeRoute id s
                 = fetchNote noteId (set_routeId id s))).
Proof.
  unfold Routed.changeRoute. destruct (mounted s); [|auto].
  destruct (Routed.same_id (routeId s) id); [auto|].
  right. split; [reflexivity|]. split; [reflexivity|].
  destruct (fetchEffect_cases (set_routeId id s)) as [[E ->]|(n & E & ->)];
    simpl in E; eauto.
Qed.

Lemma Inv_changeRoute id s : Inv s -> Inv (Routed.changeRoute id s).
Proof.
  intros I.
  destruct (changeRoute_cases id s) as [-> |(_ & _ & [[_ ->]|(n & _ & ->)])].
  - exact I.
  - apply Inv_set_routeId. exact I.
  - apply Inv_fetchNote, Inv_set_routeId. exact I.
Qed.

Lemma Inv_routed_step s a : Inv s -> Inv (Routed.step s a).
Proof.
  destruct a as [e|id]; simpl; [apply Inv_step|apply Inv_changeRoute].
Qed.

Lemma routed_run_snoc s acts a :
  Routed.run s (acts ++ [a]) = Routed.step (Routed.run s acts) a.
Proof. unfold Routed.run. rewrite fold_left_app. reflexivity. Qed.

Lemma Inv_routed id acts : Inv (Routed.run (mount id) acts).
Proof.
  induction acts as [|a acts IH] using rev_ind.
  - apply Inv_mount.
  - rewrite routed_run_snoc. apply Inv_routed_step. exact IH.
Qed.

(** A run of events is a run of actions. *)
Lemma routed_run_ui evs : forall s,
  Routed.run s (map Routed.Ui evs) = run s evs.
Proof.
  induction evs as [|e evs IH]; intros s; simpl; [reflexivity|]. apply IH.
Qed.

(** *** The identity held in the ref *)

Lemma ref_wf_step s e : Inv s -> ref_wf s -> ref_wf (step s e).
Proof.
  intros Hi [Hin Htr]. unfold ref_wf.
  destruct (Delta_seen s e Hi) as (seen & _ & D).
  destruct D
    as [_ Ein Eref _|_ Ein Eref _|k at_ms _ _ _ _ Hk _ Ein Eref _|_ Ein Eref _
       |n _ _ _ Ein Eref _|rid out p rest notes _ Et _ _ Ein Eref _];
    simpl in Ein, Eref; rewrite Ein, Eref; try (split; assumption).
  - split; [|assumption]. intros q [<-|Hq] Hq'; [|eauto].
    simpl in Hq'. subst k. unfold save_request in Hk. simpl in Hk.
    destruct (Js.if_truthy (Js.or (createdNoteIdRef s) seen)) eqn:E;
      [discriminate|]. apply if_truthy_or_None in E. destruct E as [E _].
    destruct (createdNoteIdRef s) as [i|] eqn:Er; [|reflexivity].
    simpl in E. rewrite (Htr i eq_refl) in E. discriminate.
  - split; [|assumption]. intros q [<-|Hq] Hq'; [discriminate|eauto].
  - simpl in Et.
    destruct (take_pending_In _ _ _ _ Et) as [Hp Hr].
    pose proof (take_pending_saves _ _ _ _ Et) as Hsv.
    assert (Hcase : ref_after (p_awaiting p) out (createdNoteIdRef s)
                    = createdNoteIdRef s
                    \/ (p_awaiting p = InAutoSaveCreate
                        /\ exists r i, out = Fulfilled r
                                       /\ returned_id r = Some i
                                       /\ ref_after (p_awaiting p) out
                                            (createdNoteIdRef s) = Some i)).
    { unfold ref_after. destruct (p_awaiting p); auto.
      destruct out as [r|m]; auto.
      destruct (returned_id r) as [i|] eqn:Ei; auto.
      right. split; [reflexivity|]. eauto. }
    destruct Hcase as [-> |(Hk & r & i & -> & Ei & ->)].
    + split; [|assumption]. intros q Hq. apply Hin. apply Hr. exact Hq.
    + rewrite Hk in Hsv. simpl in Hsv. split.
      * intros q Hq Hq'. exfalso.
        assert (Hqs : In q (saves rest)).
        { apply filter_In. split; [exact Hq|]. rewrite Hq'. reflexivity. }
        destruct (wf_saves _ (proj1 Hi)) as [[E _]|[q0 [E _]]];
          rewrite E in Hsv; simpl in Hsv; [discriminate|].
        destruct (saves rest); [destruct Hqs|discriminate].
      * intros j Hj. inversion Hj; subst j.
        unfold returned_id in Ei. apply if_truthy_Some in Ei. tauto.
Qed.

Lemma ref_wf_changeRoute id s : ref_wf s -> ref_wf (Routed.changeRoute id s).
Proof.
  intros [Hin Htr].
  destruct (changeRoute_cases id s) as [-> |(_ & _ & [[_ ->]|(n & _ & ->)])];
    [split; assumption|split; assumption|].
  split; [|exact Htr]. simpl. intros q [<-|Hq] Hk; [discriminate|eauto].
Qed.

Lemma ref_wf_mount id : ref_wf (mount id).
Proof.
  unfold ref_wf, mount, isEditing. simpl.
  destruct (Js.truthy_opt id); [destruct (Js.if_truthy id)|]; simpl;
    split; try discriminate; intros p Hp Hk; try reflexivity.
Qed.

Lemma ref_wf_routed id acts : ref_wf (Routed.run (mount id) acts).
Proof.
  induction acts as [|a acts IH] using rev_ind.
  - apply ref_wf_mount.
  - rewrite routed_run_snoc. destruct a as [e|id']; simpl.
    + apply ref_wf_step; [apply Inv_routed|exact IH].
    + apply ref_wf_changeRoute. exact IH.
Qed.

(** With an identity in the ref, a step keeps it, and what it adds to the
    log holds no create and no edit of another note, whatever route id the
    closure that ran had seen. *)
Lemma ref_step_stable s e i :
  Inv s -> ref_wf s -> createdNoteIdRef s = Some i ->
  createdNoteIdRef (step s e) = Some i
  /\ exists newer, trace (step s e) = (newer ++ trace s)%list
                   /\ Forall (only_edits i) newer.
Proof.
  intros Hi [Hin Htr] Hr.
  destruct (Delta_seen s e Hi) as (seen & _ & D).
  destruct D
    as [Etr _ Eref _|Etr _ Eref _|k at_ms _ _ _ _ _ Etr _ Eref _|Etr _ Eref _
       |n _ _ Etr _ Eref _|rid out p rest notes _ Et Hn Etr _ Eref _];
    simpl in Etr, Eref; rewrite Etr, Eref.
  - split; [exact Hr|]. exists []. auto.
  - split; [exact Hr|]. exists [Navigate "/dashboard"].
    split; [reflexivity|]. repeat constructor.
  - split; [exact Hr|]. eexists [_]. split; [reflexivity|].
    repeat constructor. unfold save_request. simpl. rewrite Hr.
    unfold Js.or. simpl. rewrite (Htr i Hr). simpl. rewrite (Htr i Hr).
    reflexivity.
  - split; [exact Hr|]. exists [WindowConfirm false].
    split; [reflexivity|]. repeat constructor.
  - split; [exact Hr|]. eexists [_; _]. split; [reflexivity|].
    repeat constructor.
  - simpl in Et. destruct (take_pending_In _ _ _ _ Et) as [Hp _]. split.
    + unfold ref_after. destruct (p_awaiting p) eqn:Ek; try exact Hr.
      rewrite (Hin p Hp Ek) in Hr. discriminate.
    + eexists (notes ++ [_])%list. rewrite <- app_assoc.
      split; [reflexivity|]. apply Forall_app.
      split; [apply notes_only_edits; exact Hn|]. repeat constructor.
Qed.

Lemma ref_changeRoute_stable id s i :
  createdNoteIdRef s = Some i ->
  createdNoteIdRef (Routed.changeRoute id s) = Some i
  /\ exists newer, trace (Routed.changeRoute id s) = (newer ++ trace s)%list
                   /\ Forall (only_edits i) newer.
Proof.
  intros Hr.
  destruct (changeRoute_cases id s) as [-> |(_ & _ & [[_ ->]|(n & _ & ->)])].
  - split; [exact Hr|]. exists []. auto.
  - split; [exact Hr|]. exists []. auto.
  - split; [exact Hr|]. eexists [_]. split; [reflexivity|].
    repeat constructor.
Qed.

Lemma route_session_ref (noteId : string) (evs : list Event) :
  Js.truthy noteId = true ->
  createdNoteIdRef (run (mount (Some noteId)) evs) = None.
Proof.
  intros Ht.
  destruct (createdNoteIdRef (run (mount (Some noteId)) evs)) eqn:E;
    [|reflexivity].
  destruct (created_without_route_reachable (Some noteId) evs) as [H _].
  rewrite routeId_run, routeId_mount in H. simpl in H. rewrite Ht in H.
  rewrite E in H. discriminate H. discriminate.
Qed.

(** What a firing timer logs: the request is the one of a save whose
    closure saw the route id the timer has captured. *)
Lemma fire_trace_seen t s :
  r_saving (t_callback t) = false ->
  r_autoSaveStatus (t_callback t) <> Saving ->
  r_title (t_callback t) = title s ->
  r_content (t_callback t) = content s ->
  trace (fire t s)
  = if Js.truthy (Js.trim (content s))
    then ApiCall (nextRequest s) (Z.max (now s) (t_deadline t))
           (save_request (set_routeId (r_id (t_callback t)) s))
         :: trace s
    else trace s.
Proof.
  intros Hs Hst Ht Hc. unfold fire, handleAutoSave, save_request.
  rewrite Hs, Ht, Hc. apply SaveStatus_eqb_neq in Hst. rewrite Hst.
  destruct (Js.truthy (Js.trim (content s))); simpl; [|reflexivity].
  destruct (Js.if_truthy _); reflexivity.
Qed.

(** X2: an instance opened on an existing note edits that note as long as
    its route does not change: no create is called and [createdNoteIdRef]
    stays empty.  The change of the route to /dashboard/create-note (the
    "Create New Note" link of the Sidebar) keeps the instance with its
    draft and its note; from then on a manual save creates a new note from
    the draft that was loaded, while a timer that was pending at the change
    still edits the note of the old route, whose id its closure has
    kept. *)
Theorem route_note_is_edited_until_the_route_changes
  (noteId : string) (evs : list Event) :
  Js.truthy noteId = true ->
  let s := run (mount (Some noteId)) evs in
  let moved := Routed.changeRoute None s in
  createdNoteIdRef s = None
  /\ Forall (only_edits noteId) (trace s)
  /\ (mounted s = true ->
      routeId moved = None
      /\ title moved = title s /\ content moved = content s
      /\ note moved = note s /\ timers moved = timers s
      /\ trace moved = trace s)
  /\ (save_enabled s = true ->
      trace (step moved ClickSave)
      = ApiCall (nextRequest s) (now s)
          (CreateNote {| create_title := Js.or_undefined (Js.trim (title s));
                         create_content := Js.trim (content s) |})
        :: trace s)
  /\ (forall t, timers s = [t] -> Js.truthy (Js.trim (content s)) = true ->
      trace (step moved (Elapse AUTO_SAVE_DELAY))
      = ApiCall (nextRequest s) (Z.max (now s) (t_deadline t))
          (EditNote {| edit_id := noteId;
                       edit_title := Js.or_undefined (Js.trim (title s));
                       edit_content := Js.trim (content s) |})
        :: trace s).
Proof.
  intros Ht s moved.
  assert (Hi : Inv s) by apply Inv_reachable.
  assert (Hrs : route_synced s) by apply route_synced_reachable.
  assert (Hr : routeId s = Some noteId).
  { subst s. rewrite routeId_run. apply routeId_mount. }
  assert (Href : createdNoteIdRef s = None).
  { apply route_session_ref. exact Ht. }
  assert (Em : mounted s = true -> moved = set_routeId None s).
  { intros Hm. subst moved. unfold Routed.changeRoute. rewrite Hm, Hr.
    reflexivity. }
  split; [exact Href|]. split; [|split; [|split]].
  - subst moved s. clear Hi Hrs Hr Href Em. apply runs_ind.
    + destruct (trace_mount (Some noteId)) as [-> | [n ->]]; repeat constructor.
    + intros evs' e IH. set (s := run (mount (Some noteId)) evs') in *.
      assert (Hi : Inv s /\ route_synced s).
      { split; [apply Inv_reachable|apply route_synced_reachable]. }
      assert (Hr : routeId s = Some noteId).
      { subst s. rewrite routeId_run. apply routeId_mount. }
      assert (Href : createdNoteIdRef s = None).
      { apply route_session_ref. exact Ht. }
      destruct (Delta_step s e Hi)
        as [Etr _ _ _|Etr _ _ _|k at_ms _ _ Hc _ _ Etr _ _ _|Etr _ _ _
           |n _ _ Etr _ _ _|rid out p rest notes _ _ Hn Etr _ _ _];
        rewrite Etr; try assumption; repeat constructor; try assumption.
      * unfold save_request. rewrite Href, Hr. unfold Js.or. simpl.
        rewrite Ht. simpl. reflexivity.
      * apply Forall_app. split; [apply notes_only_edits; exact Hn|].
        constructor; [exact I|exact IH].
  - intros Hm. rewrite (Em Hm). simpl. auto 6.
  - intros He.
    assert (Hm : mounted s = true).
    { unfold save_enabled in He. apply andb_prop in He. tauto. }
    rewrite (Em Hm). cbn [step].
    change (save_enabled (set_routeId None s)) with (save_enabled s).
    rewrite He. unfold save_enabled in He. rewrite Hm in He. simpl in He.
    apply negb_true_iff, orb_false_iff in He. destruct He as [_ Hc].
    apply negb_false_iff in Hc.
    unfold handleSave. simpl. rewrite Hc. simpl.
    destruct (autoSaveTimerRef s); simpl; rewrite Href; reflexivity.
  - intros t Htm Hc.
    destruct (wf_timer _ (proj1 Hi))
      as [Hnil|(h & d & cb & Ht' & _ & _ & Hm & _ & Hcs & Hcst & Hd)];
      [rewrite Hnil in Htm; discriminate|].
    rewrite Htm in Ht'. inversion Ht'; subst t. clear Ht'.
    destruct (proj2 Hi {| t_handle := h; t_deadline := d; t_callback := cb |})
      as (Sti & Sco & _); [rewrite Htm; left; reflexivity|].
    assert (Sid : r_id cb = Some noteId).
    { rewrite <- Hr. apply (Hrs {| t_handle := h; t_deadline := d;
                                   t_callback := cb |}).
      rewrite Htm. left. reflexivity. }
    simpl in Sti, Sco.
    rewrite (Em Hm). cbn [step].
    assert (Wm : timer_wf (set_routeId None s)) by exact (wf_timer _ (proj1 Hi)).
    destruct (elapse_cases AUTO_SAVE_DELAY (set_routeId None s) Wm)
      as [[Hu _]|[(u & Hu & Hdu & _)|(u & Hu & _ & E)]]; simpl in Hu.
    + rewrite Htm in Hu. discriminate.
    + exfalso. rewrite Htm in Hu. inversion Hu; subst u. simpl in Hdu.
      unfold AUTO_SAVE_DELAY in *. lia.
    + rewrite Htm in Hu. inversion Hu; subst u. rewrite E.
      match goal with
      | |- trace (set_now _ ?x) = _ => change (trace x = 
          ApiCall (nextRequest s) (Z.max (now s) d)
            (EditNote {| edit_id := noteId;
                         edit_title := Js.or_undefined (Js.trim (title s));
                         edit_content := Js.trim (content s) |}) :: trace s)
      end.
      rewrite fire_trace_seen by assumption. simpl. rewrite Hc.
      unfold save_request. simpl. rewrite Href, Sid. unfold Js.or. simpl.
      rewrite Ht. simpl. reflexivity.
Qed.

Lemma route_note_is_edited_until_the_route_changes_witness :
  let s := run (mount (Some "abc"))
             [Settle 0%nat
                (Fulfilled {| data := Some {| note_id := "abc";
                                              note_title := Some "Old";
                                              note_content := "Body" |} |});
              Elapse 500] in
  let moved := Routed.changeRoute None s in
  Js.truthy "abc" = true
  /\ createdNoteIdRef s = None
  /\ persistence_calls (trace (step moved ClickSave))
     = [ApiCall 1 500 (CreateNote {| create_title := Some "Old";
                                     create_content := "Body" |})]
  /\ persistence_calls (trace (step moved (Elapse AUTO_SAVE_DELAY)))
     = [ApiCall 1 3000 (EditNote {| edit_id := "abc";
                                    edit_title := Some "Old";
                                    edit_content := "Body" |})].
Proof.
  cbv zeta. split; [reflexivity|]. split.
  - destruct (route_note_is_edited_until_the_route_changes "abc"
                [Settle 0%nat
                   (Fulfilled {| data := Some {| note_id := "abc";
                                                 note_title := Some "Old";
                                                 note_content := "Body" |} |});
                 Elapse 500] eq_refl) as [H _].
    exact H.
  - split; vm_compute; reflexivity.
Defined.

(** X3: what [fetchNote] does with its answer.  Rejected: the message of
    the error is put in [error] as it is (the text "Failed to fetch note"
    stands in only for an error without a message), and the draft, the note
    and the timers stay as they were.  Fulfilled without [data]: nothing but
    [loading] changes, so an empty editor is shown with no error.  Fulfilled
    with [data]: the note is kept, the title of the draft becomes the title
    of the note (empty if it has none) and the content its content.  In all
    three cases [loading] ends false. *)
Theorem fetchNote_outcomes
  (s : Editor) (rid : nat) (p : Pending) (rest : list Pending) :
  take_pending rid (inflight s) = Some (p, rest) ->
  p_awaiting p = InFetchNote ->
  (forall message,
      let s' := step s (Settle rid (Rejected message)) in
      (message <> "" -> error s' = Some message)
      /\ (message = "" -> error s' = Some "Failed to fetch note")
      /\ loading s' = false
      /\ title s' = title s /\ content s' = content s /\ note s' = note s
      /\ timers s' = timers s /\ mounted s' = mounted s)
  /\ (let s' := step s (Settle rid (Fulfilled {| data := None |})) in
      loading s' = false
      /\ title s' = title s /\ content s' = content s /\ note s' = note s
      /\ error s' = error s /\ timers s' = timers s
      /\ mounted s' = mounted s)
  /\ (forall n,
      let s' := step s (Settle rid (Fulfilled {| data := Some n |})) in
      note s' = Some n
      /\ title s' = match note_title n with Some t => t | None => "" end
      /\ content s' = note_content n
      /\ loading s' = false
      /\ error s' = error s).
Proof.
  intros E Hk. split; [|split].
  - intros message. simpl. unfold settle. rewrite E, Hk. simpl.
    split; [|split; [intros ->; reflexivity|auto 8]].
    destruct message as [|c m]; [congruence|reflexivity].
  - simpl. unfold settle. rewrite E, Hk. simpl. unfold rerender. simpl.
    rewrite !String.eqb_refl. simpl. rewrite andb_false_r. auto 8.
  - intros n. simpl. unfold settle. rewrite E, Hk. simpl.
    match goal with
    | |- context [rerender ?o ?x] =>
        pose proof (rerender_frame o x) as F1;
        assert (F2 : note (rerender o x) = note x
                     /\ title (rerender o x) = title x
                     /\ content (rerender o x) = content x
                     /\ loading (rerender o x) = loading x
                     /\ error (rerender o x) = error x)
    end.
    { unfold rerender. destruct (_ && _); [|auto].
      match goal with
      | |- context [autoSaveEffect ?x] =>
          destruct (autoSaveEffect_frame x)
            as (_ & _ & _ & _ & _ & Fl & _ & Ft & Fc & _ & _ & Fn & Fe)
      end.
      auto. }
    destruct F2 as (Fn & Ft & Fc & Fl & Fe).
    rewrite Fn, Ft, Fc, Fl, Fe. simpl.
    split; [reflexivity|]. split.
    { destruct (note_title n) as [[|c t]|]; reflexivity. }
    split; [destruct (note_content n); reflexivity|]. auto.
Qed.

Lemma fetchNote_outcomes_witness :
  let s := mount (Some "abc") in
  let n := {| note_id := "abc"; note_title := Some "Shopping";
              note_content := "<p>Milk</p>" |} in
  let loaded := step s (Settle 0%nat (Fulfilled {| data := Some n |})) in
  error (step s (Settle 0%nat (Rejected "Note not found")))
  = Some "Note not found"
  /\ title loaded = "Shopping" /\ content loaded = "<p>Milk</p>"
  /\ loading loaded = false.
Proof.
  destruct (fetchNote_outcomes (mount (Some "abc")) 0%nat
              {| p_rid := 0; p_request := GetSingleNote "abc";
                 p_awaiting := InFetchNote |} [] eq_refl eq_refl)
    as (Hko & _ & Hok).
  split.
  - destruct (Hko "Note not found") as (He & _). apply He. discriminate.
  - destruct (Hok {| note_id := "abc"; note_title := Some "Shopping";
                     note_content := "<p>Milk</p>" |})
      as (_ & Ht & Hc & Hl & _).
    split; [exact Ht|]. split; [exact Hc|exact Hl].
Defined.

(** X4: what [handleDelete] does with the answer of [deleteNote].
    Fulfilled: it navigates to the dashboard and the editor is left.
    Rejected: the message (or the default text) is put in [error], nothing
    navigates and the editor stays as open as it was.  Either way [loading]
    ends false. *)
Theorem delete_outcomes
  (s : Editor) (rid : nat) (p : Pending) (rest : list Pending) :
  take_pending rid (inflight s) = Some (p, rest) ->
  p_awaiting p = InHandleDelete ->
  (forall response,
      let s' := step s (Settle rid (Fulfilled response)) in
      trace s' = Navigate "/dashboard"
                 :: ApiSettled rid (p_request p) (Fulfilled response) :: trace s
      /\ mounted s' = false /\ loading s' = false)
  /\ (forall message,
      let s' := step s (Settle rid (Rejected message)) in
      error s' = Some (Js.or_default message "Failed to delete note")
      /\ trace s' = ConsoleError "Error deleting note:"
                    :: ApiSettled rid (p_request p) (Rejected message) :: trace s
      /\ mounted s' = mounted s /\ loading s' = false).
Proof.
  intros E Hk. split.
  - intros response. simpl. unfold settle. rewrite E, Hk. simpl.
    match goal with
    | |- context [navigate ?path ?x] =>
        destruct (navigate_frame path x) as (Ftr & _ & _ & _ & Fm)
    end.
    rewrite Ftr, Fm. repeat split.
  - intros message. simpl. unfold settle. rewrite E, Hk. simpl. repeat split.
Qed.

Lemma delete_outcomes_witness :
  let s := run (mount (Some "abc"))
             [Settle 0%nat
                (Fulfilled {| data := Some {| note_id := "abc";
                                              note_title := None;
                                              note_content := "" |} |});
              ClickDelete true] in
  mounted (step s (Settle 1%nat (Fulfilled {| data := None |}))) = false
  /\ mounted (step s (Settle 1%nat (Rejected "forbidden"))) = true
  /\ error (step s (Settle 1%nat (Rejected "forbidden"))) = Some "forbidden".
Proof.
  destruct (delete_outcomes
              (run (mount (Some "abc"))
                 [Settle 0%nat
                    (Fulfilled {| data := Some {| note_id := "abc";
                                                  note_title := None;
                                                  note_content := "" |} |});
                  ClickDelete true]) 1%nat
              {| p_rid := 1; p_request := DeleteNote "abc";
                 p_awaiting := InHandleDelete |} [] eq_refl eq_refl)
    as [Hok Hko].
  destruct (Hok {| data := None |}) as (_ & H1 & _).
  destruct (Hko "forbidden") as (H2 & _ & H3 & _).
  split; [exact H1|]. split; [exact H3|exact H2].
Defined.

(** The editor right after mounting on an existing note. *)
Lemma mount_route noteId :
  Js.truthy noteId = true ->
  mount (Some noteId)
  = {| routeId := Some noteId; note := None; title := ""; content := "";
       loading := true; saving := false; error := None;
       autoSaveStatus := Saved; autoSaveTimerRef := None;
       createdNoteIdRef := None; effectCleanup := false;
       mounted := true; now := 0; timers := []; nextTimer := 0;
       inflight := [{| p_rid := 0; p_request := GetSingleNote noteId;
                       p_awaiting := InFetchNote |}];
       nextRequest := 1;
       trace := [ApiCall 0 0 (GetSingleNote noteId)] |}.
Proof. intros H. unfold mount, isEditing. simpl. rewrite H. reflexivity. Qed.

Lemma trim_truthy_content c :
  Js.truthy (Js.trim c) = true -> Js.truthy c = true.
Proof. destruct c; [discriminate|reflexivity]. Qed.

(** X1: opening an existing note saves it again.  When the fetch is
    fulfilled with a note whose trimmed content is non-empty, the draft
    change it causes arms the debounce timer, and with no action of the user
    the delay later an [editNote] for the route id is sent, carrying the
    trimmed title and content that were just fetched. *)
Theorem opening_a_note_resaves_it (noteId : string) (n : Note) (latency : Z) :
  Js.truthy noteId = true ->
  Js.truthy (Js.trim (fetched_content n)) = true ->
  0 <= latency ->
  let answer := Fulfilled {| data := Some n |} in
  let s := run (mount (Some noteId))
             [Elapse latency; Settle 0%nat answer; Elapse AUTO_SAVE_DELAY] in
  trace s
  = [ApiCall 1 (latency + AUTO_SAVE_DELAY)
       (EditNote {| edit_id := noteId;
                    edit_title := Js.or_undefined (Js.trim (fetched_title n));
                    edit_content := Js.trim (fetched_content n) |});
     ApiSettled 0 (GetSingleNote noteId) answer;
     ApiCall 0 0 (GetSingleNote noteId)]
  /\ autoSaveStatus s = Saving.
Proof.
  intros Hi Hc Hl answer s.
  pose proof (trim_truthy_content _ Hc) as Hc'.
  subst s. change [Elapse latency; Settle 0%nat answer; Elapse AUTO_SAVE_DELAY]
    with ([Elapse latency; Settle 0%nat answer] ++ [Elapse AUTO_SAVE_DELAY])%list.
  rewrite run_snoc.
  set (s2 := run (mount (Some noteId)) [Elapse latency; Settle 0%nat answer]).
  assert (I2 : Inv s2) by apply Inv_reachable.
  (* the state after the fetch *)
  set (x := setLoading false
              (setContent (fetched_content n)
                 (setTitle (fetched_title n)
                    (setNote (Some n)
                       (log (ApiSettled 0 (GetSingleNote noteId) answer)
                          (set_inflight []
                             (set_now latency (mount (Some noteId))))))))).
  assert (E2 : s2 = autoSaveEffect x).
  { subst s2 x. unfold run. simpl fold_left. cbn [step].
    assert (E1 : elapse latency (mount (Some noteId))
                 = set_now latency (mount (Some noteId))).
    { rewrite (mount_route noteId Hi). unfold elapse. cbn [timers List.length fire_due now].
      f_equal. lia. }
    rewrite E1. rewrite (mount_route noteId Hi).
    unfold settle. cbn [inflight set_now take_pending p_rid Nat.eqb p_awaiting
                        p_request resume data].
    apply rerender_change.
    - left. reflexivity.
    - reflexivity.
    - right. cbn [content setLoading setContent log set_trace set_inflight set_now].
      intros H. rewrite <- H in Hc'. discriminate. }
  assert (Hx : timers x = [] /\ saving x = false /\ now x = latency
               /\ title x = fetched_title n /\ content x = fetched_content n
               /\ nextRequest x = 1%nat /\ createdNoteIdRef x = None
               /\ routeId x = Some noteId /\ autoSaveStatus x = Saved
               /\ trace x = [ApiSettled 0 (GetSingleNote noteId) answer;
                             ApiCall 0 0 (GetSingleNote noteId)]).
  { subst x. rewrite (mount_route noteId Hi). repeat split. }
  destruct Hx as (Xt & Xs & Xn & Xti & Xco & Xnr & Xref & Xrid & Xst & Xtr).
  destruct (autoSaveEffect_frame x)
    as (Ftr & _ & Fref & Frid & _ & _ & Fs & Fti & Fco & Fn & Fnr & _).
  pose proof (autoSaveEffect_timers x (or_introl Xt)) as T.
  assert (Hde : draft_empty x = false).
  { unfold draft_empty. rewrite Xco, Hc'. apply andb_false_r. }
  rewrite Hde, Xs in T. simpl in T. destruct T as [T _].
  rewrite <- E2 in *.
  change (step s2 (Elapse AUTO_SAVE_DELAY)) with (elapse AUTO_SAVE_DELAY s2).
  destruct (elapse_cases AUTO_SAVE_DELAY s2 (wf_timer _ (proj1 I2)))
    as [[Hu _]|[(t & Hu & Hdu & _)|(t & Hu & _ & E)]].
  - rewrite T in Hu. discriminate.
  - exfalso. rewrite T in Hu. inversion Hu; subst t. simpl in Hdu.
    rewrite Fn in Hdu. unfold AUTO_SAVE_DELAY in *. lia.
  - rewrite T in Hu. inversion Hu; subst t. rewrite E. clear E Hu.
    match goal with |- context [fire ?tt s2] => set (t := tt) end.
    assert (Etd : t_deadline t = latency + AUTO_SAVE_DELAY).
    { subst t. cbn [t_deadline]. rewrite ?Xn. reflexivity. }
    assert (Hcs : r_saving (t_callback t) = false) by exact Xs.
    assert (Hcst : r_autoSaveStatus (t_callback t) <> Saving).
    { change (autoSaveStatus x <> Saving). rewrite Xst. discriminate. }
    assert (Sti : r_title (t_callback t) = title s2) by (symmetry; exact Fti).
    assert (Sco : r_content (t_callback t) = content s2) by (symmetry; exact Fco).
    assert (Sid : r_id (t_callback t) = routeId s2) by (symmetry; exact Frid).
    split.
    + cbn [trace set_now].
      rewrite (fire_trace t s2 Hcs Hcst Sti Sco Sid).
      rewrite Fco, Xco, Hc, Fnr, Xnr, Ftr, Xtr, Etd.
      rewrite Fn, Xn.
      replace (Z.max latency (latency + AUTO_SAVE_DELAY))
        with (latency + AUTO_SAVE_DELAY) by (unfold AUTO_SAVE_DELAY; lia).
      unfold save_request. rewrite Fref, Frid, Xref, Xrid, Fti, Fco, Xti, Xco.
      unfold Js.or. simpl. rewrite Hi. simpl. reflexivity.
    + cbn [autoSaveStatus set_now].
      unfold fire, handleAutoSave. rewrite Sco, Fco, Xco, Hc, Hcs.
      apply SaveStatus_eqb_neq in Hcst. rewrite Hcst. simpl.
      destruct (Js.if_truthy _); reflexivity.
Qed.

Lemma opening_a_note_resaves_it_witness :
  let n := {| note_id := "abc"; note_title := Some " Shopping ";
              note_content := "<p>milk</p>" |} in
  let s := run (mount (Some "abc"))
             [Elapse 120; Settle 0%nat (Fulfilled {| data := Some n |});
              Elapse AUTO_SAVE_DELAY] in
  persistence_calls (trace s)
  = [ApiCall 1 3120 (EditNote {| edit_id := "abc";
                                 edit_title := Some "Shopping";
                                 edit_content := "<p>milk</p>" |})].
Proof.
  cbv zeta.
  destruct (opening_a_note_resaves_it "abc"
              {| note_id := "abc"; note_title := Some " Shopping ";
                 note_content := "<p>milk</p>" |} 120
              eq_refl eq_refl ltac:(lia)) as [H _].
  rewrite H. vm_compute. reflexivity.
Defined.

Lemma api_calls_notes notes tr :
  forallb is_note notes = true -> api_calls (notes ++ tr) = api_calls tr.
Proof.
  unfold api_calls. induction notes as [|e notes IH]; simpl; intros H;
    [reflexivity|].
  apply andb_prop in H. destruct H as [He H].
  destruct e; try discriminate; simpl; auto.
Qed.

Lemma unmounted_step s e :
  Inv s -> mounted s = false ->
  mounted (step s e) = false
  /\ api_calls (trace (step s e)) = api_calls (trace s).
Proof.
  intros Hi Hm.
  destruct (Delta_seen s e Hi) as (seen & _ & D).
  destruct D
    as [Etr _ _ Em|Etr _ _ Em|k at_ms _ Hm' _ _ _ _ _ _ _|Etr _ _ Em
       |n Hd _ _ _ _ _|rid out p rest notes _ _ Hn Etr _ _ Em];
    try unseen Etr; try unseen Em.
  - rewrite Etr, Em. auto.
  - rewrite Etr, Em. auto.
  - unseen Hm'. congruence.
  - rewrite Etr, Em. auto.
  - unfold delete_rendered in Hd. unseen Hd. rewrite Hm in Hd. discriminate.
  - rewrite Etr, Em, Hm. split; [destruct (leaves _ _); reflexivity|].
    rewrite api_calls_notes by exact Hn. reflexivity.
Qed.

(** X5: once the editor has been left, nothing it was doing reaches the
    Notes Service any more: whatever happens afterwards (time passing,
    answers arriving, clicks), no further [notesApi] call is made and the
    editor stays unmounted.  Cancel leaves the editor, so a pending
    debounce timer is discarded by it. *)
Theorem no_call_after_leaving
  (id : option string) (evs later : list Event) :
  let s := run (mount id) evs in
  (mounted s = false ->
   mounted (run s later) = false
   /\ api_calls (trace (run s later)) = api_calls (trace s))
  /\ mounted (step s ClickCancel) = false.
Proof.
  intros s. split.
  - intros Hm.
    assert (Hi : Inv s) by apply Inv_reachable.
    clearbody s. revert s Hi Hm.
    induction later as [|e later IH]; intros s Hi Hm; simpl; [auto|].
    destruct (unmounted_step s e Hi Hm) as [Hm' Ea].
    destruct (IH (step s e) (Inv_step s e Hi) Hm') as [H1 H2].
    split; [exact H1|]. rewrite H2. exact Ea.
  - cbn [step]. destruct (mounted s) eqn:Hm; [|exact Hm].
    apply navigate_frame.
Qed.

Lemma no_call_after_leaving_witness :
  let s := run (mount None) [TypeContent "Hello"; Elapse 1000; ClickCancel] in
  mounted s = false
  /\ api_calls (trace (run s [Elapse 5000; TypeContent "more"; ClickSave]))
     = [].
Proof.
  split; [vm_compute; reflexivity|].
  destruct (no_call_after_leaving None
              [TypeContent "Hello"; Elapse 1000; ClickCancel]
              [Elapse 5000; TypeContent "more"; ClickSave]) as [H _].
  destruct (H eq_refl) as [_ H2]. rewrite H2. vm_compute. reflexivity.
Defined.

(** X6: a change typed while a debounced save is in flight is not picked up
    by the debounce.  The effect arms no timer for it; when the save is
    fulfilled the status becomes [Saved] although the draft on screen is the
    changed one, no timer is pending, and however much time passes
    afterwards no call is made. *)
Theorem change_during_save_is_not_rearmed
  (id : option string) (evs : list Event) (v : string)
  (rid : nat) (p : Pending) (rest : list Pending) (response : ApiResponse) :
  let s := run (mount id) evs in
  let s1 := step s (TypeContent v) in
  let s2 := step s1 (Settle rid (Fulfilled response)) in
  inputs_rendered s = true ->
  take_pending rid (inflight s) = Some (p, rest) ->
  p_awaiting p = InAutoSaveEdit \/ p_awaiting p = InAutoSaveCreate ->
  content s1 = v /\ autoSaveStatus s1 = Saving /\ timers s1 = []
  /\ content s2 = v /\ autoSaveStatus s2 = Saved /\ timers s2 = []
  /\ forall ms, trace (step s2 (Elapse ms)) = trace s2.
Proof.
  intros s s1 s2 Hr E Hk.
  assert (Hi : Inv s) by apply Inv_reachable.
  assert (Hi1 : Inv s1) by (apply Inv_step; exact Hi).
  assert (Hi2 : Inv s2) by (apply Inv_step; exact Hi1).
  destruct (take_pending_In _ _ _ _ E) as [Hin _].
  assert (Hsv : is_save (p_awaiting p) = true).
  { destruct Hk as [-> | ->]; reflexivity. }
  assert (Hsav : saving s = true).
  { destruct (wf_saves _ (proj1 Hi)) as [[H _]|[q [_ H]]]; [|exact H].
    assert (Hp : In p (saves (inflight s))) by (apply filter_In; auto).
    rewrite H in Hp. destruct Hp. }
  assert (Hst : autoSaveStatus s = Saving).
  { apply SaveStatus_eqb_eq. rewrite (wf_status _ (proj1 Hi)). exact Hsav. }
  assert (Htm : timers s = []).
  { exact (timer_wf_saving _ (wf_timer _ (proj1 Hi)) Hsav). }
  assert (H1 : content s1 = v /\ autoSaveStatus s1 = Saving /\ timers s1 = []
               /\ inflight s1 = inflight s).
  { subst s1. cbn [step]. rewrite Hr. unfold rerender.
    destruct (mounted (setContent v s) && negb _).
    - destruct (autoSaveEffect_frame (setContent v s))
        as (_ & Fin & _ & _ & _ & _ & _ & _ & Fc & _).
      pose proof (autoSaveEffect_timers (setContent v s) (or_introl Htm)) as T.
      change (saving (setContent v s)) with (saving s) in T.
      rewrite Hsav, orb_true_r in T. destruct T as [T1 T2].
      rewrite Fc, Fin, T1, T2. auto.
    - simpl. auto. }
  destruct H1 as (Hc1 & Hst1 & Htm1 & Hin1).
  assert (H2 : content s2 = v /\ autoSaveStatus s2 = Saved /\ timers s2 = []).
  { subst s2. cbn [step]. unfold settle. rewrite Hin1, E.
    destruct Hk as [-> | ->]; cbn [resume].
    - repeat split; assumption.
    - destruct (Js.if_truthy _); repeat split; assumption. }
  destruct H2 as (Hc2 & Hst2 & Htm2).
  repeat (split; [assumption|]).
  intros ms. change (step s2 (Elapse ms)) with (elapse ms s2).
  destruct (elapse_cases ms s2 (wf_timer _ (proj1 Hi2)))
    as [[_ Ee]|[(t & Ht & _)|(t & Ht & _)]];
    [rewrite Ee; reflexivity| |]; rewrite Htm2 in Ht; discriminate.
Qed.

Lemma change_during_save_is_not_rearmed_witness :
  let s := run (mount None) [TypeContent "Hello"; Elapse 3000] in
  let s2 := step (step s (TypeContent "Hello world"))
                 (Settle 0%nat (Fulfilled {| data := None |})) in
  content s2 = "Hello world" /\ autoSaveStatus s2 = Saved /\ timers s2 = [].
Proof.
  destruct (change_during_save_is_not_rearmed None
              [TypeContent "Hello"; Elapse 3000] "Hello world" 0%nat
              {| p_rid := 0;
                 p_request := CreateNote {| create_title := None;
                                            create_content := "Hello" |};
                 p_awaiting := InAutoSaveCreate |} []
              {| data := None |} eq_refl eq_refl (or_intror eq_refl))
    as (_ & _ & _ & H1 & H2 & H3 & _).
  split; [exact H1|]. split; [exact H2|exact H3].
Defined.

(** X7: the two progress indicators tell the truth about the requests: the
    status text is "Auto-saving..." exactly when a create or edit call is in
    flight, and so is the "Saving..." label of the Save control. *)
Theorem saving_indicators_follow_requests
  (id : option string) (evs : list Event) :
  let s := run (mount id) evs in
  (getAutoSaveText s = "Auto-saving..." <-> saves (inflight s) <> [])
  /\ (saveButtonLabel s = "Saving..." <-> saves (inflight s) <> []).
Proof.
  intros s. destruct (Inv_reachable id evs) as [W _]. fold s in W.
  pose proof (wf_status _ W) as Hst. unfold status_wf in Hst.
  unfold getAutoSaveText, saveButtonLabel.
  destruct (wf_saves _ W) as [[Hn Hs]|[p [Hn Hs]]]; rewrite Hn, Hs in *;
    destruct (autoSaveStatus s); simpl in Hst; try discriminate;
    split; split; try discriminate; try congruence; auto.
Qed.

Lemma trimEnd_idem s : Js.trimEnd (Js.trimEnd s) = Js.trimEnd s.
Proof.
  induction s as [|c r IH]; simpl; [reflexivity|].
  destruct (Js.trimEnd r) as [|c' r'] eqn:E.
  - destruct (Js.is_white_space c) eqn:Ec; simpl; [reflexivity|].
    rewrite Ec. reflexivity.
  - change (Js.trimEnd (String c (String c' r')))
      with (match Js.trimEnd (String c' r') with
            | EmptyString =>
                if Js.is_white_space c then EmptyString else String c EmptyString
            | String a b => String c (String a b)
            end).
    rewrite IH. reflexivity.
Qed.

Lemma trimStart_head s :
  Js.trimStart s = ""
  \/ exists c r, Js.trimStart s = String c r /\ Js.is_white_space c = false.
Proof.
  induction s as [|c r IH]; simpl; [auto|].
  destruct (Js.is_white_space c) eqn:E; [exact IH|]. right. eauto.
Qed.

Lemma trimEnd_head c r :
  Js.is_white_space c = false ->
  exists r', Js.trimEnd (String c r) = String c r'.
Proof.
  intros E. simpl. destruct (Js.trimEnd r); [rewrite E|]; eauto.
Qed.

Lemma trim_idem s : Js.trim (Js.trim s) = Js.trim s.
Proof.
  unfold Js.trim.
  destruct (trimStart_head s) as [->|(c & r & -> & E)]; [reflexivity|].
  destruct (trimEnd_head c r E) as [r' Er]. rewrite Er.
  simpl Js.trimStart. rewrite E. rewrite <- Er. apply trimEnd_idem.
Qed.

Lemma save_request_normal s rid at_ms :
  Js.truthy (Js.trim (content s)) = true ->
  payload_normal (ApiCall rid at_ms (save_request s)).
Proof.
  intros H.
  assert (Hc : normal_text (Js.trim (content s))).
  { split; [intros E; rewrite E in H; discriminate|apply trim_idem]. }
  assert (Ht : normal_title (Js.or_undefined (Js.trim (title s)))).
  { unfold Js.or_undefined. destruct (Js.truthy (Js.trim (title s))) eqn:E;
      [|exact I]. split; [intros E'; rewrite E' in E; discriminate|apply trim_idem]. }
  unfold save_request. destruct (Js.if_truthy _); simpl; auto.
Qed.

Lemma notes_payload_normal notes :
  forallb is_note notes = true -> Forall payload_normal notes.
Proof.
  induction notes as [|e notes IH]; simpl; intros H; constructor.
  - apply andb_prop in H. destruct e; simpl in *; try exact I.
    destruct H; discriminate.
  - apply IH. apply andb_prop in H. tauto.
Qed.

(** X8: what is sent is normalised.  In every create and edit call of every
    run the content is non-empty and already trimmed (trimming it again
    changes nothing), and the title is either absent or non-empty and
    trimmed; a title of white space only is sent as no title. *)
Theorem payloads_are_trimmed (id : option string) (evs : list Event) :
  Forall payload_normal (trace (run (mount id) evs)).
Proof.
  apply reachable_ind.
  - destruct (trace_mount id) as [-> | [n ->]]; repeat constructor.
  - intros s e Hi _ IH. destruct (Delta_step s e Hi)
      as [Etr _ _ _|Etr _ _ _|k at_ms _ _ Hc _ _ Etr _ _ _|Etr _ _ _
         |n _ _ Etr _ _ _|rid out p rest notes _ _ Hn Etr _ _ _];
      rewrite Etr; try assumption; repeat constructor; try assumption.
    + apply save_request_normal. exact Hc.
    + apply Forall_app. split; [apply notes_payload_normal; exact Hn|].
      constructor; [exact I|exact IH].
Qed.

(** X9: the identity of the instance is assigned once.  When
    [createdNoteIdRef] holds an id, the id is non-empty, and whatever
    happens afterwards, changes of the route included, the ref keeps holding
    that same id, no create is called any more, and every edit that is
    called is an edit of that id: the ref takes precedence over the route
    id, so after a change of the route to another note the saves still go
    to the note the instance created. *)
Theorem created_identity_is_immutable
  (id : option string) (acts later : list Routed.Action) (i : string) :
  let s := Routed.run (mount id) acts in
  createdNoteIdRef s = Some i ->
  Js.truthy i = true
  /\ createdNoteIdRef (Routed.run s later) = Some i
  /\ exists newer,
      trace (Routed.run s later) = (newer ++ trace s)%list
      /\ Forall (only_edits i) newer.
Proof.
  intros s Hr.
  destruct (ref_wf_routed id acts) as [_ Ht]. fold s in Ht.
  split; [apply Ht; exact Hr|].
  induction later as [|a later IH] using rev_ind.
  - split; [exact Hr|]. exists []. auto.
  - destruct IH as (IH1 & newer & IH2 & IH3).
    rewrite routed_run_snoc.
    assert (E : Routed.run s later = Routed.run (mount id) (acts ++ later)).
    { subst s. unfold Routed.run. rewrite fold_left_app. reflexivity. }
    assert (Hi : Inv (Routed.run s later)) by (rewrite E; apply Inv_routed).
    assert (Hw : ref_wf (Routed.run s later))
      by (rewrite E; apply ref_wf_routed).
    assert (G : createdNoteIdRef (Routed.step (Routed.run s later) a) = Some i
                /\ exists more,
                    trace (Routed.step (Routed.run s later) a)
                    = (more ++ trace (Routed.run s later))%list
                    /\ Forall (only_edits i) more).
    { destruct a as [e|id']; simpl.
      - apply ref_step_stable; assumption.
      - apply ref_changeRoute_stable; assumption. }
    destruct G as (G1 & more & G2 & G3).
    split; [exact G1|]. exists (more ++ newer)%list.
    rewrite G2, IH2, app_assoc. split; [reflexivity|].
    apply Forall_app. auto.
Qed.

Lemma created_identity_is_immutable_witness :
  let n1 := {| data := Some {| note_id := "n1"; note_title := None;
                               note_content := "Hello" |} |} in
  let xyz := {| data := Some {| note_id := "xyz"; note_title := Some "Other";
                                note_content := "Other body" |} |} in
  let s := Routed.run (mount None)
             [Routed.Ui (TypeContent "Hello"); Routed.Ui (Elapse 3000);
              Routed.Ui (Settle 0%nat (Fulfilled n1))] in
  let later := [Routed.ChangeRoute (Some "xyz");
                Routed.Ui (Settle 1%nat (Fulfilled xyz));
                Routed.Ui (Elapse 3000)] in
  createdNoteIdRef s = Some "n1"
  /\ routeId (Routed.run s later) = Some "xyz"
  /\ createdNoteIdRef (Routed.run s later) = Some "n1"
  /\ persistence_calls (trace (Routed.run s later))
     = [ApiCall 2 6000 (EditNote {| edit_id := "n1";
                                    edit_title := Some "Other";
                                    edit_content := "Other body" |});
        ApiCall 0 3000 (CreateNote {| create_title := None;
                                       create_content := "Hello" |})].
Proof.
  cbv zeta.
  assert (H : createdNoteIdRef
                (Routed.run (mount None)
                   [Routed.Ui (TypeContent "Hello"); Routed.Ui (Elapse 3000);
                    Routed.Ui
                      (Settle 0%nat
                         (Fulfilled
                            {| data := Some {| note_id := "n1";
                                               note_title := None;
                                               note_content := "Hello" |} |}))])
              = Some "n1") by (vm_compute; reflexivity).
  split; [exact H|]. split; [vm_compute; reflexivity|]. split.
  - destruct (created_identity_is_immutable None _
                [Routed.ChangeRoute (Some "xyz");
                 Routed.Ui
                   (Settle 1%nat
                      (Fulfilled
                         {| data := Some {| note_id := "xyz";
                                            note_title := Some "Other";
                                            note_content := "Other body" |} |}));
                 Routed.Ui (Elapse 3000)] "n1" H) as (_ & H2 & _).
    exact H2.
  - vm_compute. reflexivity.
Defined.




Lemma fetch_calls_notes notes tr :
  forallb is_note notes = true -> fetch_calls (notes ++ tr) = fetch_calls tr.
Proof.
  unfold fetch_calls. induction notes as [|e notes IH]; simpl;
    intros H; [reflexivity|].
  apply andb_prop in H. destruct H as [He H].
  destruct e; try discriminate; simpl; auto.
Qed.

Lemma save_request_not_fetch s rid at_ms :
  is_fetch_call (ApiCall rid at_ms (save_request s)) = false.
Proof. unfold save_request. destruct (Js.if_truthy _); reflexivity. Qed.

(** X17: when the note is fetched.  At mount, for a truthy route id; and
    whenever the route of the mounted instance changes to another id that
    is truthy: then exactly one [getSingleNote] for the new id is sent.
    Nothing else fetches: no event of the editor, no answer (so a failed
    fetch is never tried again), no change of the route to the same id or
    to /dashboard/create-note, and nothing after the editor was left.  In
    an instance whose route never changes the fetch at mount is therefore
    the only one. *)
Theorem fetches_follow_the_route
  (id : option string) (acts : list Routed.Action) (a : Routed.Action)
  (evs : list Event) :
  let s := Routed.run (mount id) acts in
  let at_mount := match Js.if_truthy id with
                  | Some noteId => [ApiCall 0 0 (GetSingleNote noteId)]
                  | None => []
                  end in
  fetch_calls (trace (mount id)) = at_mount
  /\ fetch_calls (trace (Routed.step s a))
     = match a with
       | Routed.Ui _ => fetch_calls (trace s)
       | Routed.ChangeRoute id' =>
           match Js.if_truthy id' with
           | Some noteId =>
               if mounted s && negb (Routed.same_id (routeId s) id')
               then ApiCall (nextRequest s) (now s) (GetSingleNote noteId)
                    :: fetch_calls (trace s)
               else fetch_calls (trace s)
           | None => fetch_calls (trace s)
           end
       end
  /\ fetch_calls (trace (run (mount id) evs)) = at_mount.
Proof.
  intros s at_mount.
  assert (M : fetch_calls (trace (mount id)) = at_mount).
  { subst at_mount. unfold mount, isEditing. simpl.
    destruct id as [i|]; simpl; [|reflexivity].
    destruct (Js.truthy i); reflexivity. }
  assert (U : forall x e, Inv x ->
                fetch_calls (trace (step x e)) = fetch_calls (trace x)).
  { intros x e Hi. destruct (Delta_seen x e Hi) as (seen & _ & D).
    destruct D
      as [Etr _ _ _|Etr _ _ _|k at_ms _ _ Hc _ _ Etr _ _ _|Etr _ _ _
         |n _ _ Etr _ _ _|rid out p rest notes _ _ Hn Etr _ _ _];
      unseen Etr; rewrite Etr; try reflexivity.
    - unfold fetch_calls. cbn [filter]. rewrite save_request_not_fetch.
      reflexivity.
    - rewrite fetch_calls_notes by exact Hn. reflexivity. }
  split; [exact M|]. split.
  - destruct a as [e|id']; simpl.
    + apply U. apply Inv_routed.
    + destruct (changeRoute_cases id' s)
        as [E|(Hm & Hd & [[Hn E]|(n & Hn & E)])].
      * rewrite E. unfold Routed.changeRoute in E.
        destruct (Js.if_truthy id') as [n|] eqn:Hn; [|reflexivity].
        destruct (mounted s) eqn:Hm; [|reflexivity].
        destruct (Routed.same_id (routeId s) id') eqn:Hd; [reflexivity|].
        exfalso. unfold Routed.fetchEffect, isEditing in E. simpl in E.
        destruct id' as [j|]; simpl in *; [|discriminate].
        destruct (Js.truthy j); [|discriminate].
        apply (f_equal nextRequest) in E. simpl in E.
        symmetry in E. exact (n_Sn _ E).
      * rewrite E, Hn. reflexivity.
      * rewrite E, Hn, Hm, Hd. reflexivity.
  - rewrite <- M. clear M. induction evs as [|e evs IH] using rev_ind.
    + reflexivity.
    + rewrite run_snoc, U by apply Inv_reachable. exact IH.
Qed.

(** ** The character count of the footer *)

Lemma after_gt_length r rest :
  after_gt r = Some rest -> (String.length rest < String.length r)%nat.
Proof.
  revert rest. induction r as [|c r IH]; simpl; intros rest; [discriminate|].
  destruct (Ascii.eqb c ">").
  - intros H; inversion H; subst. lia.
  - intros H. specialize (IH rest H). lia.
Qed.

Lemma after_gt_app_None a b :
  after_gt (a ++ b) = None -> after_gt b = None.
Proof.
  induction a as [|c a IH]; simpl; [auto|].
  destruct (Ascii.eqb c ">"); [discriminate|exact IH].
Qed.

Lemma after_gt_None_strip fuel s :
  after_gt s = None -> strip_tags fuel s = s.
Proof.
  revert s. induction fuel as [|f IH]; intros s H; simpl; [reflexivity|].
  destruct s as [|c r]; [reflexivity|].
  simpl in H. destruct (Ascii.eqb c ">") eqn:Eg; [discriminate|].
  rewrite H. destruct (Ascii.eqb c "<"); [reflexivity|].
  rewrite IH by exact H. reflexivity.
Qed.

(** Enough fuel is as good as any more. *)
Lemma strip_tags_fuel fuel s :
  (String.length s <= fuel)%nat -> strip_tags fuel s = stripTags s.
Proof.
  unfold stripTags. revert s.
  induction fuel as [fuel IH] using (well_founded_induction lt_wf).
  intros s Hl. destruct s as [|c r].
  - destruct fuel; reflexivity.
  - destruct fuel as [|f]; [simpl in Hl; lia|].
    simpl String.length. simpl strip_tags.
    destruct (Ascii.eqb c "<").
    + destruct (after_gt r) as [rest|] eqn:E; [|reflexivity].
      pose proof (after_gt_length _ _ E) as Hr. simpl in Hl.
      rewrite (IH f) by lia.
      rewrite (IH (String.length r)) by lia. reflexivity.
    + simpl in Hl. rewrite (IH f) by lia. reflexivity.
Qed.

Lemma stripTags_nil : stripTags "" = "".
Proof. reflexivity. Qed.

Lemma stripTags_text c r :
  Ascii.eqb c "<" = false -> stripTags (String c r) = String c (stripTags r).
Proof.
  intros E. unfold stripTags at 1. simpl. rewrite E.
  rewrite strip_tags_fuel by lia. reflexivity.
Qed.

Lemma stripTags_tag r rest :
  after_gt r = Some rest -> stripTags (String "<" r) = stripTags rest.
Proof.
  intros E. unfold stripTags at 1. simpl. rewrite E.
  apply strip_tags_fuel. apply after_gt_length in E. lia.
Qed.

Lemma stripTags_open r :
  after_gt r = None -> stripTags (String "<" r) = String "<" r.
Proof. intros E. unfold stripTags. simpl. rewrite E. reflexivity. Qed.

(** Induction along the scan. *)
Lemma stripTags_ind (P : string -> string -> Prop) :
  P "" "" ->
  (forall c r, Ascii.eqb c "<" = false -> P r (stripTags r) ->
               P (String c r) (String c (stripTags r))) ->
  (forall r rest, after_gt r = Some rest -> P rest (stripTags rest) ->
                  P (String "<" r) (stripTags rest)) ->
  (forall r, after_gt r = None -> P (String "<" r) (String "<" r)) ->
  forall s, P s (stripTags s).
Proof.
  intros H0 Ht Hg Ho s.
  remember (String.length s) as n eqn:En. revert s En.
  induction n as [n IH] using (well_founded_induction lt_wf).
  intros s En. destruct s as [|c r]; [exact H0|].
  destruct (Ascii.eqb c "<") eqn:E.
  - apply Ascii.eqb_eq in E. subst c.
    destruct (after_gt r) as [rest|] eqn:Er.
    + rewrite (stripTags_tag _ _ Er). apply Hg; [exact Er|].
      apply (IH (String.length rest)); [|reflexivity].
      apply after_gt_length in Er. subst n. simpl. lia.
    + rewrite (stripTags_open _ Er). apply Ho. exact Er.
  - rewrite (stripTags_text _ _ E). apply Ht; [exact E|].
    apply (IH (String.length r)); [|reflexivity]. subst n. simpl. lia.
Qed.

Lemma tag_free_strip s : tag_free s -> stripTags s = s.
Proof.
  induction s as [|c r IH]; intros H; [reflexivity|].
  destruct (Ascii.eqb c "<") eqn:E.
  - apply Ascii.eqb_eq in E. subst c. apply stripTags_open.
    apply (H "" r). reflexivity.
  - rewrite (stripTags_text _ _ E). f_equal. apply IH.
    intros a b Hab. apply (H (String c a) b). simpl. rewrite Hab. reflexivity.
Qed.

Lemma stripTags_tag_free s : tag_free (stripTags s).
Proof.
  apply (stripTags_ind (fun _ t => tag_free t)).
  - intros a b H. destruct a; discriminate.
  - intros c r E IH a b H. destruct a as [|c' a]; simpl in H.
    + inversion H; subst. discriminate.
    + inversion H; subst. apply (IH a b). assumption.
  - intros r rest _ IH. exact IH.
  - intros r E a b H. destruct a as [|c' a]; simpl in H.
    + inversion H; subst. exact E.
    + inversion H; subst. apply after_gt_app_None in E. simpl in E. exact E.
Qed.

Lemma stripTags_length s :
  (String.length (stripTags s) <= String.length s)%nat.
Proof.
  apply (stripTags_ind
           (fun s t => (String.length t <= String.length s)%nat)).
  - simpl. lia.
  - intros c r _ IH. simpl. lia.
  - intros r rest E IH. apply after_gt_length in E. simpl. lia.
  - intros r _. lia.
Qed.

Lemma after_gt_tag tag b :
  has_char ">" tag = false -> after_gt (tag ++ String ">" b) = Some b.
Proof.
  induction tag as [|c tag IH]; simpl; [reflexivity|].
  destruct (Ascii.eqb c ">"); simpl; [discriminate|exact IH].
Qed.

(** X10: the character count of the footer.  Stripping leaves no [<] that
    has a [>] after it, so stripping again changes nothing; a text in which
    no [<] is followed by a [>] is counted as it is; a complete tag between
    a text without [<] and the rest contributes nothing; and the count never
    exceeds the length of the content. *)
Theorem character_count_ignores_tags (s : string) :
  tag_free (stripTags s)
  /\ stripTags (stripTags s) = stripTags s
  /\ (tag_free s -> stripTags s = s)
  /\ (forall text tag rest,
         s = text ++ String "<" (tag ++ String ">" rest) ->
         has_char "<" text = false -> has_char ">" tag = false ->
         stripTags s = text ++ stripTags rest)
  /\ (String.length (stripTags s) <= String.length s)%nat.
Proof.
  split; [apply stripTags_tag_free|].
  split; [apply tag_free_strip, stripTags_tag_free|].
  split; [apply tag_free_strip|].
  split; [|apply stripTags_length].
  intros text tag rest -> Ht Hg.
  induction text as [|c text IH]; simpl.
  - apply stripTags_tag. apply after_gt_tag. exact Hg.
  - simpl in Ht. apply orb_false_iff in Ht. destruct Ht as [Hc Ht].
    rewrite (stripTags_text _ _ Hc). f_equal. apply IH. exact Ht.
Qed.

Lemma character_count_ignores_tags_witness :
  stripTags "<p>Hi <b>there</b></p> 1 < 2"
  = "Hi there 1 < 2"
  /\ stripTags (stripTags "<p>Hi <b>there</b></p> 1 < 2")
     = stripTags "<p>Hi <b>there</b></p> 1 < 2".
Proof.
  split; [vm_compute; reflexivity|].
  apply (character_count_ignores_tags "<p>Hi <b>there</b></p> 1 < 2").
Defined.

(** ** Calls and tokens of utils/api.ts *)

Lemma get_set_header_same k v h :
  Api.get_header k (Api.set_header k v h) = Some v.
Proof.
  induction h as [|[k' v'] h IH]; simpl.
  - rewrite String.eqb_refl. reflexivity.
  - destruct (String.eqb k' k) eqn:E; simpl.
    + rewrite String.eqb_refl. reflexivity.
    + rewrite E. exact IH.
Qed.

Lemma get_set_header_other k k' v h :
  k' <> k -> Api.get_header k' (Api.set_header k v h) = Api.get_header k' h.
Proof.
  intros Hne. induction h as [|[k0 v0] h IH]; simpl.
  - destruct (String.eqb_spec k k'); [congruence|reflexivity].
  - destruct (String.eqb_spec k0 k); simpl.
    + subst k0. destruct (String.eqb_spec k k'); [congruence|reflexivity].
    + destruct (String.eqb k0 k'); [reflexivity|exact IH].
Qed.

(** X11: how [apiCall] fails.  It only ever throws an [ApiError]: the fixed
    network text with status 500 (when [fetch] rejects, the body does not
    parse, or a failing response has the body [null]), or else an error
    that belongs to a response whose status is not ok and carries that
    status; its message is the [message] of the body when that is a
    non-empty string, the conversion to a string when it is another truthy
    value, and the text "Something went wrong" otherwise.  When a
    [notesApi] call of the editor fails with a non-empty message, the
    editor shows that message as it is.  The message is empty only when
    the [message] of the body is a truthy value that is not a string and
    converts to the empty string (as [[]] does); [fetchNote], [handleSave]
    and [handleDelete] then show their own default texts. *)
Theorem apiCall_rejects_with_a_message
  {B T : Type} (endpoint : string) (options : Api.RequestInit B)
  (net : Api.FetchInit B -> Api.FetchResult T) (st st' : Api.Storage)
  (t : Api.Thrown) :
  Api.apiCall endpoint options net st = (Api.Throws t, st') ->
  exists e,
    t = Api.ThrownApiError e
    /\ (e = Api.network_error
        \/ exists code msg payload,
            net (Api.request_of endpoint options st)
            = Api.Response code (Some (Api.JsonValue msg payload))
            /\ Api.ok code = false
            /\ Api.status e = code
            /\ (forall m, msg = Api.Text m -> m <> "" -> Api.message e = m)
            /\ (msg = Api.Text "" \/ msg = Api.Falsy ->
                Api.message e = "Something went wrong")
            /\ (forall shown, msg = Api.Other shown ->
                              Api.message e = shown))
    /\ (Api.message e <> "" ->
        forall k s,
          k = InFetchNote \/ k = InHandleSave \/ k = InHandleDelete ->
          error (resume k (Rejected (Api.message e)) s)
          = Some (Api.message e))
    /\ (Api.message e = "" ->
        (exists code payload,
            net (Api.request_of endpoint options st)
            = Api.Response code (Some (Api.JsonValue (Api.Other "") payload)))
        /\ forall s,
            error (resume InFetchNote (Rejected (Api.message e)) s)
            = Some "Failed to fetch note"
            /\ error (resume InHandleSave (Rejected (Api.message e)) s)
               = Some "Failed to save note"
            /\ error (resume InHandleDelete (Rejected (Api.message e)) s)
               = Some "Failed to delete note").
Proof.
  unfold Api.apiCall. intros H.
  assert (G : forall e, Api.message e <> "" ->
              forall k s,
                k = InFetchNote \/ k = InHandleSave \/ k = InHandleDelete ->
                error (resume k (Rejected (Api.message e)) s)
                = Some (Api.message e)).
  { intros e He k s Hk. destruct (Api.message e) eqn:E; [congruence|].
    destruct Hk as [-> |[-> | ->]]; reflexivity. }
  assert (N : exists e,
             Api.ThrownApiError Api.network_error = Api.ThrownApiError e
             /\ (e = Api.network_error
                 \/ exists code msg payload,
                     net (Api.request_of endpoint options st)
                     = Api.Response code (Some (Api.JsonValue msg payload))
                     /\ Api.ok code = false
                     /\ Api.status e = code
                     /\ (forall m, msg = Api.Text m -> m <> "" ->
                                   Api.message e = m)
                     /\ (msg = Api.Text "" \/ msg = Api.Falsy ->
                         Api.message e = "Something went wrong")
                     /\ (forall shown, msg = Api.Other shown ->
                                       Api.message e = shown))
             /\ (Api.message e <> "" ->
                 forall k s,
                   k = InFetchNote \/ k = InHandleSave \/ k = InHandleDelete ->
                   error (resume k (Rejected (Api.message e)) s)
                   = Some (Api.message e))
             /\ (Api.message e = "" ->
                 (exists code payload,
                     net (Api.request_of endpoint options st)
                     = Api.Response code
                         (Some (Api.JsonValue (Api.Other "") payload)))
                 /\ forall s,
                     error (resume InFetchNote (Rejected (Api.message e)) s)
                     = Some "Failed to fetch note"
                     /\ error (resume InHandleSave (Rejected (Api.message e)) s)
                        = Some "Failed to save note"
                     /\ error (resume InHandleDelete
                                 (Rejected (Api.message e)) s)
                        = Some "Failed to delete note")).
  { exists Api.network_error. split; [reflexivity|]. split; [auto|].
    split; [apply G|discriminate]. }
  destruct (net (Api.request_of endpoint options st)) as [|code [data|]] eqn:En.
  - inversion H; subst. exact N.
  - destruct (Api.ok code) eqn:Eo; [discriminate|].
    destruct data as [|msg payload].
    + inversion H; subst. exact N.
    + inversion H; subst. clear N. eexists. split; [reflexivity|].
      split; [|split; [apply G|]].
      * right. exists code, msg, payload.
        split; [reflexivity|]. split; [exact Eo|]. split; [reflexivity|].
        split; [|split].
        -- intros m -> Hm. simpl. destruct m; [congruence|reflexivity].
        -- intros [-> | ->]; reflexivity.
        -- intros shown ->. reflexivity.
      * simpl. intros Hm.
        destruct msg as [|[|c m]|[|c shown]]; try discriminate.
        split; [exists code, payload; reflexivity|].
        intros s. auto.
  - inversion H; subst. exact N.
Qed.

Lemma apiCall_rejects_with_a_message_witness :
  let net := fun _ : Api.FetchInit Api.Body =>
               Api.Response 404
                 (Some (Api.JsonValue (Api.Text "Note not found")
                          (@None Note))) in
  exists e,
    fst (Api.notesApi (GetSingleNote "abc") net (fun _ => None))
    = Api.Throws (Api.ThrownApiError e)
    /\ Api.message e = "Note not found"
    /\ error (resume InFetchNote (Rejected (Api.message e)) (mount (Some "abc")))
       = Some "Note not found".
Proof.
  cbv zeta.
  destruct (apiCall_rejects_with_a_message
              (fst (Api.notes_endpoint (GetSingleNote "abc")))
              (snd (Api.notes_endpoint (GetSingleNote "abc")))
              (fun _ : Api.FetchInit Api.Body =>
                 Api.Response 404
                   (Some (Api.JsonValue (Api.Text "Note not found")
                            (@None Note))))
              (fun _ => None) (fun _ => None)
              (Api.ThrownApiError {| Api.status := 404;
                                     Api.message := "Note not found" |})
              eq_refl) as (e & He & _ & Hs & _).
  exists e. inversion He; subst e. split; [reflexivity|].
  split; [reflexivity|].
  apply Hs; [discriminate|auto].
Defined.

(** [clearTokens] touches the two token keys only. *)
Lemma clearTokens_other_keys (s : Api.Storage) (k : string) :
  k <> Api.TOKEN_KEY -> k <> Api.REFRESH_TOKEN_KEY ->
  Api.getItem k (Api.clearTokens s) = Api.getItem k s.
Proof.
  intros H1 H2. unfold Api.getItem, Api.clearTokens, Api.removeItem.
  destruct (String.eqb_spec k Api.REFRESH_TOKEN_KEY); [contradiction|].
  destruct (String.eqb_spec k Api.TOKEN_KEY); [contradiction|reflexivity].
Qed.

(** [apiCall] leaves the storage as it was, or as [clearTokens] makes it;
    when it returns, it leaves it as it was. *)
Lemma apiCall_storage_cases
  {B T : Type} (endpoint : string) (options : Api.RequestInit B)
  (net : Api.FetchInit B -> Api.FetchResult T) (st : Api.Storage) :
  (snd (Api.apiCall endpoint options net st) = st
   \/ snd (Api.apiCall endpoint options net st) = Api.clearTokens st)
  /\ (forall v, fst (Api.apiCall endpoint options net st) = Api.Returns v ->
                snd (Api.apiCall endpoint options net st) = st).
Proof.
  unfold Api.apiCall.
  destruct (net (Api.request_of endpoint options st)) as [|code [data|]];
    try (split; [left; reflexivity|reflexivity]).
  destruct (Api.ok code); [split; [left; reflexivity|reflexivity]|].
  destruct ((code =? 401) || (code =? 403)); destruct data; cbn [fst snd];
    (split; [auto|intros v Hv; discriminate]).
Qed.

(** The [Authorization] header of a request whose options carry no
    headers. *)
Lemma authorization_header
  {B : Type} (endpoint : string) (options : Api.RequestInit B)
  (st : Api.Storage) :
  Api.headers options = None ->
  Api.get_header "Authorization"
    (Api.f_headers (Api.request_of endpoint options st))
  = (if Api.isAuthenticated st
     then option_map (fun t => "Bearer " ++ t) (Api.getAccessToken st)
     else None).
Proof.
  intros Hh. unfold Api.request_of, Api.isAuthenticated. rewrite Hh.
  cbn [Api.f_headers Api.spread fold_left].
  destruct (Api.getAccessToken st) as [t|] eqn:Et; simpl Js.if_truthy;
    simpl Js.truthy_opt.
  - destruct (Js.truthy t); simpl; auto.
  - simpl. auto.
Qed.

(** X12: when [apiCall] touches the stored tokens.  It clears them only on a
    response whose status is 401 or 403 and whose body parsed; then the
    user counts as logged out.  In every other case (success, any other
    failing status, a body that does not parse, a network failure) the
    storage is left as it was.  No key other than the two token keys is ever
    changed. *)
Theorem apiCall_token_policy
  {B T : Type} (endpoint : string) (options : Api.RequestInit B)
  (net : Api.FetchInit B -> Api.FetchResult T) (st : Api.Storage) :
  let st' := snd (Api.apiCall endpoint options net st) in
  let answer := net (Api.request_of endpoint options st) in
  (forall k, k <> Api.TOKEN_KEY -> k <> Api.REFRESH_TOKEN_KEY ->
             Api.getItem k st' = Api.getItem k st)
  /\ ((exists code data, answer = Api.Response code (Some data)
                         /\ (code = 401 \/ code = 403))
      -> st' = Api.clearTokens st /\ Api.isAuthenticated st' = false)
  /\ ((forall code data, answer = Api.Response code (Some data) ->
                         code <> 401 /\ code <> 403)
      -> st' = st)
  /\ (forall v, fst (Api.apiCall endpoint options net st) = Api.Returns v ->
                st' = st).
Proof.
  intros st' answer. subst st' answer. unfold Api.apiCall.
  destruct (net (Api.request_of endpoint options st)) as [|code [data|]] eqn:En.
  - simpl. split; [reflexivity|]. split; [intros (c & d & H & _); discriminate|].
    split; reflexivity.
  - pose proof clearTokens_other_keys as Hc.
    destruct (Api.ok code) eqn:Eo.
    + simpl. split; [reflexivity|]. split.
      * intros (c & d & H & Hcode). inversion H; subst c d.
        unfold Api.ok in Eo. destruct Hcode; subst code; discriminate.
      * split; reflexivity.
    + destruct ((code =? 401) || (code =? 403)) eqn:Ec.
      * assert (E : snd (match data with
                         | Api.JsonNull =>
                             (Api.Throws (T:=T) (Api.ThrownApiError Api.network_error),
                              Api.clearTokens st)
                         | Api.JsonValue msg _ =>
                             (Api.Throws
                                (Api.ThrownApiError
                                   {| Api.status := code;
                                      Api.message :=
                                        match msg with
                                        | Api.Text m =>
                                            Js.or_default m
                                              "Something went wrong"
                                        | Api.Other shown => shown
                                        | Api.Falsy => "Something went wrong"
                                        end |}), Api.clearTokens st)
                         end) = Api.clearTokens st).
        { destruct data; reflexivity. }
        rewrite E. split; [apply Hc|]. split; [intros _; split; reflexivity|].
        split.
        -- intros H. destruct (H code data eq_refl) as [H1 H2].
           apply orb_true_iff in Ec. destruct Ec as [Ec|Ec];
             apply Z.eqb_eq in Ec; contradiction.
        -- intros v Hv. destruct data; discriminate.
      * assert (E : snd (match data with
                         | Api.JsonNull =>
                             (Api.Throws (T:=T) (Api.ThrownApiError Api.network_error),
                              st)
                         | Api.JsonValue msg _ =>
                             (Api.Throws
                                (Api.ThrownApiError
                                   {| Api.status := code;
                                      Api.message :=
                                        match msg with
                                        | Api.Text m =>
                                            Js.or_default m
                                              "Something went wrong"
                                        | Api.Other shown => shown
                                        | Api.Falsy => "Something went wrong"
                                        end |}), st)
                         end) = st).
        { destruct data; reflexivity. }
        rewrite E. split; [reflexivity|]. split.
        -- intros (c & d & H & Hcode). inversion H; subst c d.
           apply orb_false_iff in Ec. destruct Ec as [E1 E2].
           apply Z.eqb_neq in E1, E2. destruct Hcode; contradiction.
        -- split; reflexivity.
  - simpl. split; [reflexivity|]. split; [intros (c & d & H & _); discriminate|].
    split; reflexivity.
Qed.

(** X13: what every [notesApi] request of the editor carries.  The URL is
    the base URL followed by the endpoint, credentials are included, the
    content type is JSON, and the [Authorization] header is "Bearer "
    followed by the stored access token exactly when that token is
    non-empty; with no token, or an empty one, no such header is sent. *)
Theorem notes_requests_carry_the_token
  (req : Request) (st : Api.Storage) :
  let r := Api.request_of (fst (Api.notes_endpoint req))
                          (snd (Api.notes_endpoint req)) st in
  Api.f_url r = Api.API_BASE_URL ++ fst (Api.notes_endpoint req)
  /\ Api.f_credentials r = "include"
  /\ Api.get_header "Content-Type" (Api.f_headers r) = Some "application/json"
  /\ Api.get_header "Authorization" (Api.f_headers r)
     = (if Api.isAuthenticated st
        then option_map (fun t => "Bearer " ++ t) (Api.getAccessToken st)
        else None).
Proof.
  intros r. subst r.
  assert (Hh : Api.headers (snd (Api.notes_endpoint req)) = None)
    by (destruct req; reflexivity).
  split; [reflexivity|]. split; [reflexivity|]. split.
  - unfold Api.request_of. rewrite Hh.
    cbn [Api.f_headers Api.spread fold_left].
    destruct (Js.if_truthy (Api.getAccessToken st)); reflexivity.
  - apply authorization_header. exact Hh.
Qed.

(** X14: what [authApi.login] stores.  Tokens are written only when the
    call returns a body whose [data] holds a non-empty access token and a
    non-empty refresh token; from then on the user counts as logged in and
    the next request carries "Bearer " and that access token.  In every
    other case login writes nothing: the storage is what [apiCall] left. *)
Theorem login_stores_both_tokens_or_none
  (credentials : Api.LoginData)
  (net : Api.FetchInit Api.Body -> Api.FetchResult Api.LoginPayload)
  (st : Api.Storage) :
  let after_call :=
    snd (Api.apiCall "/users/login"
           (Api.post (Some (Api.BodyLogin credentials))) net st) in
  let st' := snd (Api.login credentials net st) in
  (forall msg a r,
      fst (Api.login credentials net st)
      = Api.Returns (Api.JsonValue msg
                       (Some {| Api.accessToken := Some a;
                                Api.refreshToken := Some r |})) ->
      a <> "" -> r <> "" ->
      st' = Api.setTokens a r st
      /\ Api.getAccessToken st' = Some a
      /\ Api.getItem Api.REFRESH_TOKEN_KEY st' = Some r
      /\ Api.isAuthenticated st' = true
      /\ forall req,
          Api.get_header "Authorization"
            (Api.f_headers
               (Api.request_of (fst (Api.notes_endpoint req))
                               (snd (Api.notes_endpoint req)) st'))
          = Some ("Bearer " ++ a))
  /\ ((forall msg a r,
          fst (Api.login credentials net st)
          = Api.Returns (Api.JsonValue msg
                           (Some {| Api.accessToken := Some a;
                                    Api.refreshToken := Some r |})) ->
          a = "" \/ r = "")
      -> st' = after_call).
Proof.
  intros after_call st'. subst after_call st'. unfold Api.login.
  destruct (Api.apiCall "/users/login"
              (Api.post (Some (Api.BodyLogin credentials))) net st)
    as [[[|msg payload]|e] st1] eqn:Ec.
  - split; [intros ? ? ? H; discriminate|reflexivity].
  - assert (Est : st1 = st).
    { pose proof (apiCall_storage_cases "/users/login"
                    (Api.post (Some (Api.BodyLogin credentials))) net st) as P.
      rewrite Ec in P. destruct P as (_ & P). exact (P _ eq_refl). }
    subst st1.
    destruct payload as [[[[|ca a'] |] [[|cr r'] |]]|];
      cbn [fst snd Api.accessToken Api.refreshToken Js.if_truthy Js.truthy];
      try (split; [intros ? ? ? H ? ?; inversion H; subst; congruence
                  |reflexivity]).
    split.
    + intros msg' a0 r0 H _ _. inversion H; subst.
      split; [reflexivity|]. split; [reflexivity|]. split; [reflexivity|].
      split; [reflexivity|]. intros req.
      rewrite authorization_header by (destruct req; reflexivity).
      reflexivity.
    + intros H. destruct (H msg _ _ eq_refl); discriminate.
  - split; [intros ? ? ? H; discriminate|reflexivity].
Qed.

Lemma login_stores_both_tokens_or_none_witness :
  let net := fun _ : Api.FetchInit Api.Body =>
               Api.Response 200
                 (Some (Api.JsonValue (Api.Text "ok")
                          (Some {| Api.accessToken := Some "tokA";
                                   Api.refreshToken := Some "tokR" |}))) in
  let creds := {| Api.email := "a@b.c"; Api.password := "pw" |} in
  Api.isAuthenticated (snd (Api.login creds net (fun _ => None))) = true.
Proof.
  cbv zeta.
  destruct (login_stores_both_tokens_or_none
              {| Api.email := "a@b.c"; Api.password := "pw" |}
              (fun _ : Api.FetchInit Api.Body =>
                 Api.Response 200
                   (Some (Api.JsonValue (Api.Text "ok")
                            (Some {| Api.accessToken := Some "tokA";
                                     Api.refreshToken := Some "tokR" |}))))
              (fun _ => None)) as [H _].
  destruct (H (Api.Text "ok") "tokA" "tokR" eq_refl) as (_ & _ & _ & H4 & _);
    [discriminate|discriminate|exact H4].
Defined.

(** X15: [authApi.logout] always logs out locally.  Whether the call returns
    or throws, both tokens are gone afterwards, every other key of the
    storage is as before, and the outcome of the call is passed on
    unchanged. *)
Theorem logout_always_clears_tokens
  {T : Type} (net : Api.FetchInit Api.Body -> Api.FetchResult T)
  (st : Api.Storage) :
  let st' := snd (Api.logout net st) in
  Api.getAccessToken st' = None
  /\ Api.getItem Api.REFRESH_TOKEN_KEY st' = None
  /\ Api.isAuthenticated st' = false
  /\ (forall k, k <> Api.TOKEN_KEY -> k <> Api.REFRESH_TOKEN_KEY ->
                Api.getItem k st' = Api.getItem k st)
  /\ fst (Api.logout net st)
     = fst (Api.apiCall "/users/logout" (Api.post None) net st).
Proof.
  intros st'. subst st'. unfold Api.logout.
  pose proof (apiCall_storage_cases "/users/logout" (Api.post None) net st)
    as [P _].
  destruct (Api.apiCall "/users/logout" (Api.post None) net st)
    as [[v|e] st1]; cbn [fst snd] in *;
    (split; [reflexivity|]); (split; [reflexivity|]); (split; [reflexivity|]);
    (split; [|reflexivity]); intros k H1 H2;
    rewrite clearTokens_other_keys by assumption;
    (destruct P as [->| ->];
     [reflexivity|apply clearTokens_other_keys; assumption]).
Qed.
